(** * nnUNetTrainerMultiTask: validation metrics, epoch-end reduction, loss ramp

    A shallow embedding of
    [nnunetv2/training/nnUNetTrainer/nnUNetTrainerMultiTask.py].

    Conventions of the embedding.
    - Python dictionaries received from collaborators (the network output,
      the loss mapping) are [gmap string _]; dictionaries the trainer builds
      itself with a literal are association lists in insertion order.
    - Counts (true/false positives and negatives, sample counts) are [N].
      Loss values and metric values are exact rationals [Qc]: the methods are
      embedded without the rounding of binary floating point.  Division by
      zero is modelled as numpy does it on non-negative operands: [0/0] is
      not-a-number and [x/0] is infinity.
    - Where a property compares two ways of computing one value, the
      rounding matters.  The arithmetic of float32, in which the count arrays
      of a label-based step are summed, is modelled by [round_to] and the
      module [Float32]; a sum of counts is exact there as long as it does not
      pass 2^24, and the properties that depend on this say so.
    - A method is a program in the monad [Prog]: it returns, raises a Python
      exception, stops at [pdb.set_trace()], takes part in a collective
      [all_gather_object], or writes to the logger or the console. *)

From Stdlib Require Import QArith Qcanon.
From stdpp Require Import base numbers list strings gmap.

Open Scope Qc_scope.

(** ** Python exceptions raised on the modelled paths *)

Inductive exn : Type :=
| KeyError (k : string)
| IndexError
| AttributeError
| TypeError
| ValueError
| RuntimeError.

#[global] Instance exn_eq_dec : EqDecision exn.
Proof. solve_decision. Defined.

(** ** Numbers *)

(** The value of a float computation: a rational, not-a-number, or
    (positive) infinity. *)
Inductive fval : Type :=
| Num (q : Qc)
| NaN
| Inf.

#[global] Instance fval_eq_dec : EqDecision fval.
Proof. solve_decision. Defined.

Definition Qc_of_N (n : N) : Qc := Qc_of_Z (Z.of_N n).

Definition is_nan (v : fval) : bool :=
  match v with NaN => true | _ => false end.

Definition fadd (a b : fval) : fval :=
  match a, b with
  | NaN, _ | _, NaN => NaN
  | Inf, _ | _, Inf => Inf
  | Num x, Num y => Num (x + y)
  end.

(** Division of a float by a positive count. *)
Definition fdiv_count (a : fval) (n : nat) : fval :=
  match a with
  | Num x => Num (x / Qc_of_Z (Z.of_nat n))
  | other => other
  end.

Definition Qc_sum (l : list Qc) : Qc := foldr Qcplus 0 l.
Definition N_sum (l : list N) : N := foldr N.add 0%N l.
Definition fsum (l : list fval) : fval := foldr fadd (Num 0) l.

(** [a / b] on two numpy numbers holding non-negative counts.  The quotient
    is the exact one; [Float32.np_true_divide] is the rounded one. *)
Definition np_true_divide (a b : N) : fval :=
  if (b =? 0)%N then (if (a =? 0)%N then NaN else Inf)
  else Num (Qc_of_N a / Qc_of_N b).

(** [np.mean] of the flattened values; not-a-number on an empty input.  The
    mean is the exact one, in which the order of the values plays no part. *)
Definition np_mean (l : list Qc) : fval :=
  match l with
  | [] => NaN
  | _ => Num (Qc_sum l / Qc_of_Z (Z.of_nat (length l)))
  end.

(** [np.nanmean]: the not-a-number entries are dropped, the others are
    averaged; not-a-number when nothing is left. *)
Definition np_nanmean (l : list fval) : fval :=
  let kept := filter (λ v, is_nan v = false) l in
  match kept with
  | [] => NaN
  | _ => fdiv_count (fsum kept) (length kept)
  end.

(** ** Python and numpy values held in the step results *)

Inductive pyobj : Type :=
| PFloat (q : Qc)          (* a Python float *)
| PInt (n : N)             (* a Python int *)
| PArr0F (q : Qc)          (* a 0-d float array, [tensor.detach().cpu().numpy()] *)
| PArr0I (n : N)           (* a 0-d integer array *)
| PArr1 (l : list N).      (* a 1-d array of counts *)

#[global] Instance pyobj_eq_dec : EqDecision pyobj.
Proof. solve_decision. Defined.

(** A value of [collate_outputs]: a Python list of scalars, or the per-step
    arrays stacked along a new first axis. *)
Inductive collated : Type :=
| CList (l : list pyobj)
| CMatF (m : list (list Qc))
| CMatI (m : list (list N)).

#[global] Instance collated_eq_dec : EqDecision collated.
Proof. solve_decision. Defined.

(** Objects handed to [dist.all_gather_object]. *)
Inductive payload : Type :=
| GVec (v : list N)
| GNum (n : N)
| GColl (c : collated).

#[global] Instance payload_eq_dec : EqDecision payload.
Proof. solve_decision. Defined.

(** Values of the epoch summary. *)
Inductive sval : Type :=
| SFloat (v : fval)
| SList (l : list fval)    (* a Python list of numpy scalars *)
| SArr (l : list Qc).      (* a 1-d float array *)

#[global] Instance sval_eq_dec : EqDecision sval.
Proof. solve_decision. Defined.

(** A dictionary built by a literal: entries in insertion order. *)
Abbreviation pydict V := (list (string * V)) (only parsing).

Fixpoint dict_get {V} (d : pydict V) (k : string) : option V :=
  match d with
  | [] => None
  | (k', v) :: d' => if String.eqb k' k then Some v else dict_get d' k
  end.

(** ** Effects *)

Inductive event : Type :=
| ELog (key : string) (v : sval) (epoch : nat)      (* [self.logger.log] *)
| EPrint (label : string) (v : option fval).        (* [print] *)

Inductive Prog (A : Type) : Type :=
| Ret (a : A)
| Raise (e : exn)
| SetTrace (k : Prog A)                              (* [pdb.set_trace()] *)
| AllGather (name : string) (v : payload) (k : list payload → Prog A)
| Emit (ev : event) (k : Prog A).

Arguments Ret {A} a.
Arguments Raise {A} e.
Arguments SetTrace {A} k.
Arguments AllGather {A} name v k.
Arguments Emit {A} ev k.

Fixpoint bind {A B} (m : Prog A) (f : A → Prog B) : Prog B :=
  match m with
  | Ret a => f a
  | Raise e => Raise e
  | SetTrace k => SetTrace (bind k f)
  | AllGather name v k => AllGather name v (λ vs, bind (k vs) f)
  | Emit ev k => Emit ev (bind k f)
  end.

#[global] Instance Prog_ret : MRet Prog := @Ret.
#[global] Instance Prog_bind : MBind Prog := λ A B f m, bind m f.

Definition set_trace : Prog unit := SetTrace (Ret tt).
Definition all_gather_object (name : string) (v : payload) : Prog (list payload) :=
  AllGather name v Ret.
Definition logger_log (key : string) (v : sval) (epoch : nat) : Prog unit :=
  Emit (ELog key v epoch) (Ret tt).
Definition print (label : string) (v : option fval) : Prog unit :=
  Emit (EPrint label v) (Ret tt).

Definition or_raise {A} (e : exn) (o : option A) : Prog A :=
  match o with Some a => Ret a | None => Raise e end.

Fixpoint foldP {A S} (f : S → A → Prog S) (l : list A) (s : S) : Prog S :=
  match l with
  | [] => Ret s
  | a :: l' => s' ← f s a; foldP f l' s'
  end.

(** An elementwise operation on two 1-d arrays under the broadcasting rule
    torch and numpy share: equal sizes, or one of the sizes is 1; [e] is the
    exception of the library at hand. *)
Definition broadcast_with {A B C} (e : exn) (f : A → B → C)
    (a : list A) (b : list B) : Prog (list C) :=
  if (length a =? length b)%nat then Ret (zip_with f a b)
  else match a, b with
       | [x], _ => Ret (map (f x) b)
       | _, [y] => Ret (map (λ x, f x y) a)
       | _, _ => Raise e
       end.

Fixpoint mapP {A B} (f : A → Prog B) (l : list A) : Prog (list B) :=
  match l with
  | [] => Ret []
  | a :: l' => b ← f a; bs ← mapP f l'; Ret (b :: bs)
  end.

(** ** Collaborators: tensors, network, loss functor, optimizer *)

(** A classification prediction read as a [B x C] table of scores;
    [n_classes] is [cls_output.shape[1]]. *)
Record ClsLogits : Type := {
  n_classes : nat;
  rows : list (list Qc);
}.

(** A loss component: a tensor holding a scalar, or a plain Python float. *)
Inductive lval : Type :=
| LTensor (q : Qc)
| LFloat (q : Qc).

(** The loss functor object, [MultiTaskLoss(seg_weight, cls_weight, loss_type)];
    [on_train_epoch_start] assigns its [cls_weight] attribute. *)
Record MultiTaskLoss : Type := {
  loss_seg_weight : Qc;
  loss_cls_weight : Qc;
  loss_loss_type : string;
}.

Record LabelManager : Type := {
  has_regions : bool;
  has_ignore_label : bool;
  ignore_label : Z;
}.

Section Trainer.

Context {Tensor Params : Type}.

(** A value the network may put in its output. *)
Inductive netval : Type :=
| VTensor (t : Tensor)
| VList (l : list Tensor).

Inductive NetOutput : Type :=
| OVal (v : netval)
| ODict (d : gmap string netval).

(** The operations of the tensor library, the network, the loss functor and
    the optimizer, as the trainer calls them.  [Params] is the state the
    optimizer works on: the weights of the network, their gradients and the
    state of the optimizer. *)
Class Torch : Type := {
  network : Params → Tensor → NetOutput;
  loss_call : MultiTaskLoss → NetOutput → Tensor → option netval → list Z
              → gmap string lval;
  zero_grad : Params → Params;                    (* [self.optimizer.zero_grad()] *)
  backward : Params → Qc → Params;                (* [loss.backward()] *)
  optimizer_step : Params → Params;               (* [self.optimizer.step()] *)
  tensor_first : Tensor → Tensor;                 (* [t[0]] *)
  tensor_ndim : Tensor → nat;
  sigmoid_gt_half : Tensor → Tensor;              (* [(torch.sigmoid(t) > 0.5).long()] *)
  argmax_onehot : Tensor → Tensor;                (* arg-max over axis 1, scattered one-hot *)
  ne_label : Tensor → Z → Tensor;                 (* [(t != label).float()] *)
  zero_label : Tensor → Z → Tensor;               (* clone, then [t[t == label] = 0] *)
  dtype_is_bool : Tensor → bool;
  last_channel : Tensor → Tensor;                 (* [t[:, -1:]] *)
  drop_last_channel : Tensor → Tensor;            (* [t[:, :-1]] *)
  tensor_not : Tensor → Tensor;                   (* [~t] *)
  one_minus : Tensor → Tensor;                    (* [1 - t] *)
  get_tp_fp_fn_tn : Tensor → Tensor → list nat → option Tensor
                    → list N * list N * list N * list N;
  logits : Tensor → ClsLogits;                    (* the scores of a [B x C] tensor *)
}.

Context {torch : Torch}.

Record Batch : Type := {
  data : Tensor;
  target : Tensor;
  class_target : list Z;
}.

(** The attributes of [self] the methods read or assign.  [current_epoch] is
    [None] when the attribute does not exist ([hasattr] is false). *)
Record Trainer : Type := {
  params : Params;
  loss : MultiTaskLoss;
  num_classification_classes : nat;
  seg_weight : Qc;
  cls_weight : Qc;
  loss_type : string;
  enable_deep_supervision : bool;
  label_manager : LabelManager;
  is_ddp : bool;
  current_epoch : option nat;
}.

Definition set_params (self : Trainer) (p : Params) : Trainer :=
  {| params := p; loss := loss self;
     num_classification_classes := num_classification_classes self;
     seg_weight := seg_weight self; cls_weight := cls_weight self;
     loss_type := loss_type self;
     enable_deep_supervision := enable_deep_supervision self;
     label_manager := label_manager self; is_ddp := is_ddp self;
     current_epoch := current_epoch self |}.

Definition set_loss (self : Trainer) (l : MultiTaskLoss) : Trainer :=
  {| params := params self; loss := l;
     num_classification_classes := num_classification_classes self;
     seg_weight := seg_weight self; cls_weight := cls_weight self;
     loss_type := loss_type self;
     enable_deep_supervision := enable_deep_supervision self;
     label_manager := label_manager self; is_ddp := is_ddp self;
     current_epoch := current_epoch self |}.

(** [__init__]: the multi-task parameters on top of what the base trainer
    set up. *)
Definition init (base : Trainer) : Trainer :=
  {| params := params base; loss := loss base;
     num_classification_classes := 3;
     seg_weight := 1;
     cls_weight := Qc_of_Z 1 / Qc_of_Z 2;
     loss_type := "dice_ce";
     enable_deep_supervision := enable_deep_supervision base;
     label_manager := label_manager base; is_ddp := is_ddp base;
     current_epoch := current_epoch base |}.

Definition _build_loss (self : Trainer) : MultiTaskLoss :=
  {| loss_seg_weight := seg_weight self;
     loss_cls_weight := cls_weight self;
     loss_loss_type := loss_type self |}.

(** [output[key]] on a dictionary. *)
Definition getitem (d : gmap string netval) (key : string) : Prog netval :=
  or_raise (KeyError key) (d !! key).

(** The split of the network output, written the same way in [train_step]
    and in [validation_step]:
    [if isinstance(output, dict) and len(output) == 2: ... else: ...]. *)
Definition split_output (output : NetOutput) : Prog (NetOutput * option netval) :=
  match output with
  | ODict d =>
      if (size d =? 2)%nat then
        seg ← getitem d "segmentation";
        cls ← getitem d "classification";
        Ret (OVal seg, Some cls)
      else Ret (output, None)
  | OVal _ => Ret (output, None)
  end.

(** [loss_dict['loss'].backward()]: the key must exist and hold a tensor. *)
Definition loss_for_backward (loss_dict : gmap string lval) : Prog Qc :=
  l ← or_raise (KeyError "loss") (loss_dict !! "loss");
  match l with
  | LTensor q => Ret q
  | LFloat _ => Raise AttributeError
  end.

Definition train_step (self : Trainer) (batch : Batch)
  : Prog (Trainer * gmap string lval) :=
  let data := data batch in
  let target_seg := target batch in
  let target_cls := class_target batch in
  let self := set_params self (zero_grad (params self)) in
  let output := network (params self) data in
  '(seg_output, cls_output) ← split_output output;
  let loss_dict := loss_call (loss self) seg_output target_seg cls_output target_cls in
  l ← loss_for_backward loss_dict;
  let self := set_params self (backward (params self) l) in
  let self := set_params self (optimizer_step (params self)) in
  Ret (self, loss_dict).

(** *** validation_step *)

(** [row.argmax()] over the [n] scores of one sample: the first index that
    holds the largest score. *)
Definition argmax_row (n : nat) (row : list Qc) : nat :=
  foldl (λ best i, if bool_decide (nth best row 0 < nth i row 0) then i else best)
        0%nat (seq 0 n).

(** [torch.argmax(cls_output, dim=1)]; an empty class axis is an error. *)
Definition torch_argmax_dim1 (c : ClsLogits) : Prog (list nat) :=
  if (n_classes c =? 0)%nat then Raise IndexError
  else Ret (map (argmax_row (n_classes c)) (rows c)).

(** An elementwise operation on two 1-d tensors, with torch's broadcasting:
    equal sizes, or one of the sizes is 1. *)
Definition broadcast {A B C} (f : A → B → C) (a : list A) (b : list B)
  : Prog (list C) := broadcast_with RuntimeError f a b.

(** [t.sum()] of a boolean tensor. *)
Definition count_true (l : list bool) : N :=
  N_sum (map (λ b : bool, if b then 1%N else 0%N) l).

Record ClsArrays : Type := {
  a_tp : list N;
  a_fp : list N;
  a_fn : list N;
  a_tn : list N;
}.

(** One iteration of [for class_idx in range(num_classes)]. *)
Definition cls_loop_body (cls_pred : list nat) (cls_target : list Z)
    (acc : ClsArrays) (class_idx : nat) : Prog ClsArrays :=
  let pred_positive := map (λ p, (p =? class_idx)%nat) cls_pred in
  let target_positive := map (λ t, (t =? Z.of_nat class_idx)%Z) cls_target in
  tp ← broadcast (λ p t, p && t) pred_positive target_positive;
  fp ← broadcast (λ p t, p && negb t) pred_positive target_positive;
  fn ← broadcast (λ p t, negb p && t) pred_positive target_positive;
  tn ← broadcast (λ p t, negb p && negb t) pred_positive target_positive;
  Ret {| a_tp := <[class_idx := count_true tp]> (a_tp acc);
         a_fp := <[class_idx := count_true fp]> (a_fp acc);
         a_fn := <[class_idx := count_true fn]> (a_fn acc);
         a_tn := <[class_idx := count_true tn]> (a_tn acc) |}.

Definition cls_zeros (num_classes : nat) : ClsArrays :=
  {| a_tp := replicate num_classes 0%N; a_fp := replicate num_classes 0%N;
     a_fn := replicate num_classes 0%N; a_tn := replicate num_classes 0%N |}.

(** The block under [if cls_output is not None and target_cls is not None];
    [target_cls] is a tensor, never [None], once [.to(device)] succeeded. *)
Definition classification_metrics (cls_output : option netval) (target_cls : list Z)
  : Prog (pydict pyobj) :=
  match cls_output with
  | None => Ret []
  | Some (VList _) => Raise TypeError
  | Some (VTensor t) =>
      let cls_output := logits t in
      cls_pred ← torch_argmax_dim1 cls_output;
      let cls_target := target_cls in
      let num_classes := n_classes cls_output in
      arrays ← foldP (cls_loop_body cls_pred cls_target) (seq 0 num_classes)
                     (cls_zeros num_classes);
      correct ← broadcast (λ p t, (Z.of_nat p =? t)%Z) cls_pred cls_target;
      Ret [ ("cls_tp", PArr1 (a_tp arrays));
            ("cls_fp", PArr1 (a_fp arrays));
            ("cls_fn", PArr1 (a_fn arrays));
            ("cls_tn", PArr1 (a_tn arrays));
            ("cls_correct", PArr0I (count_true correct));
            ("cls_total", PInt (N.of_nat (length cls_target))) ]
  end.

(** [loss_dict.get(key, 0.0)], turned into a numpy value when it is a tensor. *)
Definition loss_entry (loss_dict : gmap string lval) (key : string) : pyobj :=
  match default (LFloat 0) (loss_dict !! key) with
  | LTensor q => PArr0F q
  | LFloat q => PFloat q
  end.

(** [seg_output[0]]. *)
Definition index0 (o : NetOutput) : Prog Tensor :=
  match o with
  | OVal (VTensor t) => Ret (tensor_first t)
  | OVal (VList l) => or_raise IndexError (head l)
  | ODict _ => Raise (KeyError "0")
  end.

(** The tensor whose [.ndim] is read: a list or a dictionary has none. *)
Definition as_tensor (o : NetOutput) : Prog Tensor :=
  match o with
  | OVal (VTensor t) => Ret t
  | _ => Raise AttributeError
  end.

Definition segmentation_counts (self : Trainer) (seg_output : NetOutput)
    (target_seg : Tensor) : Prog (list N * list N * list N) :=
  let lm := label_manager self in
  seg_output_for_metrics ←
    (if enable_deep_supervision self then index0 seg_output
     else as_tensor seg_output);
  let target_seg_for_metrics := target_seg in
  let axes := 0%nat :: seq 2 (tensor_ndim seg_output_for_metrics - 2) in
  let predicted_segmentation_onehot :=
    if has_regions lm then sigmoid_gt_half seg_output_for_metrics
    else argmax_onehot seg_output_for_metrics in
  let '(mask, target_seg_for_metrics) :=
    if has_ignore_label lm then
      if negb (has_regions lm) then
        (Some (ne_label target_seg_for_metrics (ignore_label lm)),
         zero_label target_seg_for_metrics (ignore_label lm))
      else
        (Some (if dtype_is_bool target_seg_for_metrics
               then tensor_not (last_channel target_seg_for_metrics)
               else one_minus (last_channel target_seg_for_metrics)),
         drop_last_channel target_seg_for_metrics)
    else (None, target_seg_for_metrics) in
  let '(tp, fp, fn, _) :=
    get_tp_fp_fn_tn predicted_segmentation_onehot target_seg_for_metrics axes mask in
  if negb (has_regions lm) then Ret (tail tp, tail fp, tail fn)
  else Ret (tp, fp, fn).

Definition validation_step (self : Trainer) (batch : Batch) : Prog (pydict pyobj) :=
  let data := data batch in
  let target_seg := target batch in
  let target_cls := class_target batch in
  let output := network (params self) data in
  '(seg_output, cls_output) ← split_output output;
  let loss_dict := loss_call (loss self) seg_output target_seg cls_output target_cls in
  '(tp_hard, fp_hard, fn_hard) ← segmentation_counts self seg_output target_seg;
  cls_metrics ← classification_metrics cls_output target_cls;
  let result :=
    [ ("loss", loss_entry loss_dict "total_loss");
      ("seg_loss", loss_entry loss_dict "seg_loss");
      ("cls_loss", loss_entry loss_dict "cls_loss");
      ("tp_hard", PArr1 tp_hard);
      ("fp_hard", PArr1 fp_hard);
      ("fn_hard", PArr1 fn_hard) ] ++ cls_metrics in
  set_trace;;
  Ret result.


(** ** Epoch-end reduction *)

(** *** numpy on the collated results *)

(** One array with a new first axis, [a[None]]: a row of floats or of
    integers.  A Python scalar cannot be indexed. *)
Inductive row : Type :=
| RowF (r : list Qc)
| RowI (r : list N).

Definition add_axis (v : pyobj) : Prog row :=
  match v with
  | PArr0F q => Ret (RowF [q])
  | PArr0I n => Ret (RowI [n])
  | PArr1 l => Ret (RowI l)
  | PFloat _ | PInt _ => Raise TypeError
  end.

Definition row_length (r : row) : nat :=
  match r with RowF l => length l | RowI l => length l end.

Definition row_ints (r : row) : option (list N) :=
  match r with RowI l => Some l | RowF _ => None end.

Definition row_floats (r : row) : list Qc :=
  match r with RowF l => l | RowI l => map Qc_of_N l end.

Definition same_length (rs : list row) : bool :=
  match rs with
  | [] => true
  | r :: rs' => forallb (λ r', (row_length r' =? row_length r)%nat) rs'
  end.

(** [np.vstack] of rows: the lengths must agree; the result is an integer
    array when every row is, a float array otherwise. *)
Definition np_vstack (rs : list row) : Prog collated :=
  match rs with
  | [] => Raise ValueError
  | _ =>
      if same_length rs then
        match mapM row_ints rs with
        | Some m => Ret (CMatI m)
        | None => Ret (CMatF (map row_floats rs))
        end
      else Raise ValueError
  end.

(** The sum of the rows of a stacked array, [m.sum(0)].  On counts as [N]
    the sum is exact; [Float32.np_sum0] is the sum of float32 rows. *)
Definition col_sums (m : list (list N)) : list N :=
  match m with
  | [] => []
  | r :: rs => foldl (zip_with N.add) r rs
  end.

(** [np.sum(c, 0)] where a 1-d array of counts is expected. *)
Definition np_sum0 (c : collated) : Prog (list N) :=
  match c with
  | CMatI m => Ret (col_sums m)
  | CMatF _ | CList _ => Raise TypeError
  end.

Definition scalar_count (v : pyobj) : Prog N :=
  match v with
  | PInt n | PArr0I n => Ret n
  | _ => Raise TypeError
  end.

(** [np.sum(c)] where an integer is expected. *)
Definition np_sum_all (c : collated) : Prog N :=
  match c with
  | CMatI m => Ret (N_sum (concat m))
  | CList l => ns ← mapP scalar_count l; Ret (N_sum ns)
  | CMatF _ => Raise TypeError
  end.

Definition scalar_float (v : pyobj) : Prog Qc :=
  match v with
  | PFloat q | PArr0F q => Ret q
  | PInt n | PArr0I n => Ret (Qc_of_N n)
  | PArr1 _ => Raise ValueError
  end.

(** The values of a collated entry, flattened. *)
Definition coll_floats (c : collated) : Prog (list Qc) :=
  match c with
  | CMatF m => Ret (concat m)
  | CMatI m => Ret (map Qc_of_N (concat m))
  | CList l => mapP scalar_float l
  end.

(** [np.mean(c)]. *)
Definition np_mean_coll (c : collated) : Prog fval :=
  xs ← coll_floats c; Ret (np_mean xs).

(** [c.size]; a Python list has no such attribute. *)
Definition coll_size (c : collated) : Prog nat :=
  match c with
  | CMatF m => Ret (length (concat m))
  | CMatI m => Ret (length (concat m))
  | CList _ => Raise AttributeError
  end.

(** The 2-d view [np.vstack] takes of one gathered object. *)
Definition coll_rows (c : collated) : Prog (list row) :=
  match c with
  | CMatF m => Ret (map RowF m)
  | CMatI m => Ret (map RowI m)
  | CList l => xs ← mapP scalar_float l; Ret [RowF xs]
  end.

Definition gathered_vec (g : payload) : Prog row :=
  match g with GVec v => Ret (RowI v) | _ => Raise TypeError end.

Definition gathered_coll (g : payload) : Prog (list row) :=
  match g with GColl c => coll_rows c | _ => Raise TypeError end.

Definition gathered_num (g : payload) : Prog N :=
  match g with GNum n => Ret n | _ => Raise TypeError end.

(** [np.vstack([i[None] for i in gathered]).sum(0)]. *)
Definition vstack_sum0 (gathered : list payload) : Prog (list N) :=
  rs ← mapP gathered_vec gathered;
  c ← np_vstack rs;
  np_sum0 c.

(** [np.vstack(gathered).mean()]. *)
Definition vstack_mean (gathered : list payload) : Prog fval :=
  rss ← mapP gathered_coll gathered;
  c ← np_vstack (concat rss);
  np_mean_coll c.

(** [np.sum(gathered)] of integers. *)
Definition sum_gathered (gathered : list payload) : Prog N :=
  ns ← mapP gathered_num gathered; Ret (N_sum ns).

(** [a + b] on two 1-d count arrays, with numpy's broadcasting. *)
Definition np_add (a b : list N) : Prog (list N) :=
  broadcast_with ValueError N.add a b.

Definition guarded_ratio (x d : N) : Qc :=
  if (d =? 0)%N then 0 else Qc_of_N x / Qc_of_N d.

(** [np.divide(a, d, out=np.zeros_like(a, dtype=float), where=d != 0)]: the
    result has the shape of [a], so [d] has that shape or a single entry. *)
Definition np_divide_where (a d : list N) : Prog (list Qc) :=
  if (length d =? length a)%nat then Ret (zip_with guarded_ratio a d)
  else match d with
       | [d0] => Ret (map (λ x, guarded_ratio x d0) a)
       | _ => Raise ValueError
       end.

(** [np.divide(2 * p * r, p + r, out=np.zeros_like(p), where=(p + r) != 0)]
    on two float arrays of one shape, as the exact value for exact [p] and
    [r]. *)
Definition f1_score (p r : Qc) : Qc :=
  if bool_decide (p + r = 0) then 0 else Qc_of_Z 2 * p * r / (p + r).

(** [zip(tp, fp, fn)]: stops at the shortest. *)
Fixpoint zip3 {A B C} (a : list A) (b : list B) (c : list C) : list (A * B * C) :=
  match a, b, c with
  | x :: a', y :: b', z :: c' => (x, y, z) :: zip3 a' b' c'
  | _, _, _ => []
  end.

(** [[2 * i / (2 * i + j + k) for i, j, k in zip(tp, fp, fn)]]. *)
Definition dice_per_class (tp fp fn : list N) : list fval :=
  map (λ '(i, j, k), np_true_divide (2 * i) (2 * i + j + k)) (zip3 tp fp fn).

(** *** collate_outputs *)

(** Modelled from the spec: [collate_outputs]
    (nnunetv2/utilities/collate_outputs.py) is not among the sources.  The
    epoch-end reduction is given "the list of all per-step validation
    results" and sums each count array "over all steps": for every key of the
    first result the per-step values are put together, scalars into a Python
    list and arrays stacked along a new first axis, which is the form the
    indexing and the sums over axis 0 of [on_validation_epoch_end] rely on. *)
Definition collate_key (outputs : list (pydict pyobj)) (k : string) (v0 : pyobj)
  : Prog collated :=
  vs ← mapP (λ o, or_raise (KeyError k) (dict_get o k)) outputs;
  match v0 with
  | PFloat _ | PInt _ => Ret (CList vs)
  | PArr0F _ | PArr0I _ | PArr1 _ => rs ← mapP add_axis vs; np_vstack rs
  end.

(** Modelled from the spec: [collate_outputs] is not among the sources; the
    keys are those of the first per-step result, each collated over all
    steps, and an empty list of results has no first element. *)
Definition collate_outputs (outputs : list (pydict pyobj)) : Prog (pydict collated) :=
  match outputs with
  | [] => Raise IndexError
  | o0 :: _ => mapP (λ '(k, v0), c ← collate_key outputs k v0; Ret (k, c)) o0
  end.

(** [outputs_collated[key]]. *)
Definition coll_getitem (d : pydict collated) (key : string) : Prog collated :=
  or_raise (KeyError key) (dict_get d key).

(** *** on_validation_epoch_end *)

Record SegReduced : Type := {
  r_tp : list N; r_fp : list N; r_fn : list N;
  r_total_loss : fval; r_seg_loss : fval; r_cls_loss : fval;
}.

(** Lines 286-318: the reduction of the segmentation counts and of the
    losses, across workers when [is_ddp]. *)
Definition reduce_segmentation (self : Trainer) (outputs_collated : pydict collated)
    (tp fp fn : list N) : Prog SegReduced :=
  if is_ddp self then
    tps ← all_gather_object "tp" (GVec tp);
    tp ← vstack_sum0 tps;
    fps ← all_gather_object "fp" (GVec fp);
    fp ← vstack_sum0 fps;
    fns ← all_gather_object "fn" (GVec fn);
    fn ← vstack_sum0 fns;
    l ← coll_getitem outputs_collated "loss";
    losses_val ← all_gather_object "loss" (GColl l);
    total_loss ← vstack_mean losses_val;
    l ← coll_getitem outputs_collated "seg_loss";
    seg_losses_val ← all_gather_object "seg_loss" (GColl l);
    seg_loss ← vstack_mean seg_losses_val;
    l ← coll_getitem outputs_collated "cls_loss";
    cls_losses_val ← all_gather_object "cls_loss" (GColl l);
    cls_loss ← vstack_mean cls_losses_val;
    Ret {| r_tp := tp; r_fp := fp; r_fn := fn; r_total_loss := total_loss;
           r_seg_loss := seg_loss; r_cls_loss := cls_loss |}
  else
    total_loss ← (l ← coll_getitem outputs_collated "loss"; np_mean_coll l);
    seg_loss ← (l ← coll_getitem outputs_collated "seg_loss"; np_mean_coll l);
    cls_loss ← (l ← coll_getitem outputs_collated "cls_loss"; np_mean_coll l);
    Ret {| r_tp := tp; r_fp := fp; r_fn := fn; r_total_loss := total_loss;
           r_seg_loss := seg_loss; r_cls_loss := cls_loss |}.

(** Lines 326-380: the classification block. *)
Definition classification_summary (self : Trainer) (outputs_collated : pydict collated)
  : Prog (pydict sval) :=
  match dict_get outputs_collated "cls_tp" with
  | None => Ret []
  | Some c =>
      sz ← coll_size c;
      if (0 <? sz)%nat then
        cls_tp ← np_sum0 c;
        cls_fp ← (c ← coll_getitem outputs_collated "cls_fp"; np_sum0 c);
        cls_fn ← (c ← coll_getitem outputs_collated "cls_fn"; np_sum0 c);
        cls_tn ← (c ← coll_getitem outputs_collated "cls_tn"; np_sum0 c);
        cls_correct ← (c ← coll_getitem outputs_collated "cls_correct"; np_sum_all c);
        cls_total ← (c ← coll_getitem outputs_collated "cls_total"; np_sum_all c);
        '(cls_tp, cls_fp, cls_fn, cls_correct, cls_total) ←
          (if is_ddp self then
             cls_tps ← all_gather_object "cls_tp" (GVec cls_tp);
             cls_tp ← vstack_sum0 cls_tps;
             cls_fps ← all_gather_object "cls_fp" (GVec cls_fp);
             cls_fp ← vstack_sum0 cls_fps;
             cls_fns ← all_gather_object "cls_fn" (GVec cls_fn);
             cls_fn ← vstack_sum0 cls_fns;
             cls_corrects ← all_gather_object "cls_correct" (GNum cls_correct);
             cls_correct ← sum_gathered cls_corrects;
             cls_totals ← all_gather_object "cls_total" (GNum cls_total);
             cls_total ← sum_gathered cls_totals;
             Ret (cls_tp, cls_fp, cls_fn, cls_correct, cls_total)
           else Ret (cls_tp, cls_fp, cls_fn, cls_correct, cls_total));
        let cls_accuracy :=
          if (0 <? cls_total)%N then Qc_of_N cls_correct / Qc_of_N cls_total else 0 in
        cls_precision ← (d ← np_add cls_tp cls_fp; np_divide_where cls_tp d);
        cls_recall ← (d ← np_add cls_tp cls_fn; np_divide_where cls_tp d);
        let cls_f1 := zip_with f1_score cls_precision cls_recall in
        let macro_precision := np_nanmean (map Num cls_precision) in
        let macro_recall := np_nanmean (map Num cls_recall) in
        let macro_f1 := np_nanmean (map Num cls_f1) in
        Ret [ ("cls_accuracy", SFloat (Num cls_accuracy));
              ("cls_precision_per_class", SArr cls_precision);
              ("cls_recall_per_class", SArr cls_recall);
              ("cls_f1_per_class", SArr cls_f1);
              ("cls_macro_precision", SFloat macro_precision);
              ("cls_macro_recall", SFloat macro_recall);
              ("cls_macro_f1", SFloat macro_f1) ]
      else Ret []
  end.

(** [cls_metrics_summary[key]]. *)
Definition summary_getitem (d : pydict sval) (key : string) : Prog sval :=
  or_raise (KeyError key) (dict_get d key).

Definition as_float (v : sval) : option fval :=
  match v with SFloat x => Some x | _ => None end.

(** Lines 382-401: the calls of the logger. *)
Definition log_metrics (self : Trainer) (mean_fg_dice : fval)
    (global_dc_per_class : list fval) (total_loss seg_loss cls_loss : fval)
    (cls_metrics_summary : pydict sval) : Prog unit :=
  epoch ← or_raise AttributeError (current_epoch self);
  logger_log "mean_fg_dice" (SFloat mean_fg_dice) epoch;;
  logger_log "dice_per_class_or_region" (SList global_dc_per_class) epoch;;
  logger_log "val_losses" (SFloat total_loss) epoch;;
  logger_log "val_total_loss" (SFloat total_loss) epoch;;
  logger_log "val_seg_loss" (SFloat seg_loss) epoch;;
  logger_log "val_cls_loss" (SFloat cls_loss) epoch;;
  match cls_metrics_summary with
  | [] => Ret tt
  | _ =>
      mapP (λ key, v ← summary_getitem cls_metrics_summary key; logger_log key v epoch)
           [ "cls_accuracy"; "cls_macro_f1"; "cls_macro_precision";
             "cls_macro_recall"; "cls_f1_per_class"; "cls_precision_per_class";
             "cls_recall_per_class" ];;
      Ret tt
  end.

(** Lines 403-420: the console summary. *)
Definition print_summary (self : Trainer) (mean_fg_dice : fval)
    (global_dc_per_class : list fval) (total_loss seg_loss cls_loss : fval)
    (cls_metrics_summary : pydict sval) : Prog unit :=
  epoch ← or_raise AttributeError (current_epoch self);
  print "=== Validation Epoch Results ===" (Some (Num (Qc_of_Z (Z.of_nat epoch))));;
  print "Total Loss" (Some total_loss);;
  print "Segmentation Loss" (Some seg_loss);;
  print "Classification Loss" (Some cls_loss);;
  print "Mean Foreground Dice" (Some mean_fg_dice);;
  (match global_dc_per_class with
   | pancreas :: lesion :: _ =>
       print "Pancreas Dice" (Some pancreas);;
       print "Lesion Dice" (Some lesion)
   | _ => Ret tt
   end);;
  (match cls_metrics_summary with
   | [] => Ret tt
   | _ =>
       mapP (λ '(label, key),
               v ← summary_getitem cls_metrics_summary key;
               print label (as_float v))
            [ ("Classification Accuracy", "cls_accuracy");
              ("Classification Macro F1", "cls_macro_f1");
              ("Classification Macro Precision", "cls_macro_precision");
              ("Classification Macro Recall", "cls_macro_recall") ];;
       Ret tt
   end);;
  print "==================================================" None.

Definition on_validation_epoch_end (self : Trainer) (val_outputs : list (pydict pyobj))
  : Prog (pydict sval) :=
  outputs_collated ← collate_outputs val_outputs;
  set_trace;;
  tp ← (c ← coll_getitem outputs_collated "tp_hard"; np_sum0 c);
  fp ← (c ← coll_getitem outputs_collated "fp_hard"; np_sum0 c);
  fn ← (c ← coll_getitem outputs_collated "fn_hard"; np_sum0 c);
  red ← reduce_segmentation self outputs_collated tp fp fn;
  let tp := r_tp red in
  let fp := r_fp red in
  let fn := r_fn red in
  let total_loss := r_total_loss red in
  let seg_loss := r_seg_loss red in
  let cls_loss := r_cls_loss red in
  let global_dc_per_class := dice_per_class tp fp fn in
  let mean_fg_dice := np_nanmean global_dc_per_class in
  cls_metrics_summary ← classification_summary self outputs_collated;
  log_metrics self mean_fg_dice global_dc_per_class total_loss seg_loss cls_loss
              cls_metrics_summary;;
  print_summary self mean_fg_dice global_dc_per_class total_loss seg_loss cls_loss
                cls_metrics_summary;;
  Ret ([ ("mean_fg_dice", SFloat mean_fg_dice);
         ("dice_per_class", SList global_dc_per_class);
         ("total_loss", SFloat total_loss);
         ("seg_loss", SFloat seg_loss);
         ("cls_loss", SFloat cls_loss) ] ++ cls_metrics_summary).

(** *** on_train_epoch_start *)

Definition py_min (a b : Qc) : Qc := if bool_decide (b < a) then b else a.

(** [min(self.current_epoch / 100.0, 1.0)]. *)
Definition epoch_ratio (epoch : nat) : Qc :=
  py_min (Qc_of_Z (Z.of_nat epoch) / Qc_of_Z 100) 1.

(** The hook after [super().on_train_epoch_start()]: the classification
    weight of the loss functor is assigned when the trainer has a
    [current_epoch]. *)
Definition on_train_epoch_start (self : Trainer) : Trainer :=
  match current_epoch self with
  | Some e =>
      let epoch_ratio := epoch_ratio e in
      set_loss self
        {| loss_seg_weight := loss_seg_weight (loss self);
           loss_cls_weight := cls_weight self * epoch_ratio;
           loss_loss_type := loss_loss_type (loss self) |}
  | None => self
  end.

End Trainer.

Arguments Torch : clear implicits.
Arguments Trainer : clear implicits.
Arguments NetOutput : clear implicits.
Arguments netval : clear implicits.
Arguments Batch : clear implicits.

(** ** Running a program *)

(** What one process does, in order. *)
Inductive obs : Type :=
| OBreak                       (* the debugger prompt of [pdb.set_trace()] *)
| OGather (name : string)
| OEvent (ev : event).

(** A single process: the debugger is resumed each time it stops, and a
    collective over a group of one hands back the process's own object. *)
Fixpoint run_local {A} (p : Prog A) : list obs * (exn + A) :=
  match p with
  | Ret a => ([], inr a)
  | Raise e => ([], inl e)
  | SetTrace k => let '(t, r) := run_local k in (OBreak :: t, r)
  | AllGather name v k => let '(t, r) := run_local (k [v]) in (OGather name :: t, r)
  | Emit ev k => let '(t, r) := run_local k in (OEvent ev :: t, r)
  end.

Definition result_of {A} (p : Prog A) : exn + A := (run_local p).2.
Definition trace_of {A} (p : Prog A) : list obs := (run_local p).1.

(** Where a process stands once its local actions are done: finished, or
    waiting in a collective. *)
Inductive stop (A : Type) : Type :=
| Done (r : exn + A)
| Waiting (name : string) (v : payload) (k : list payload → Prog A).

Arguments Done {A} r.
Arguments Waiting {A} name v k.

Fixpoint advance {A} (p : Prog A) : stop A :=
  match p with
  | Ret a => Done (inr a)
  | Raise e => Done (inl e)
  | SetTrace k => advance k
  | AllGather name v k => Waiting name v k
  | Emit _ k => advance k
  end.

(** The outcome of a group of processes: every process finished, after the
    listed rounds of collectives (one name per process and round); or the
    group hangs, some process waiting in a collective the others never
    enter. *)
Inductive outcome (A : Type) : Type :=
| Finished (results : list (exn + A)) (rounds : list (list string))
| Hang.

Arguments Finished {A} results rounds.
Arguments Hang {A}.

Definition stop_done {A} (s : stop A) : option (exn + A) :=
  match s with Done r => Some r | Waiting _ _ _ => None end.

Definition stop_waiting {A} (s : stop A)
  : option (string * payload * (list payload → Prog A)) :=
  match s with Done _ => None | Waiting name v k => Some (name, v, k) end.

(** [run_world p0 ps]: the processes [p0 :: ps], rank 0 first, in lockstep
    from one collective to the next. *)
Fixpoint run_world {A} (p0 : Prog A) (ps : list (Prog A)) : outcome A :=
  match p0 with
  | Ret a =>
      match mapM (λ p, stop_done (advance p)) ps with
      | Some rs => Finished (inr a :: rs) []
      | None => Hang
      end
  | Raise e =>
      match mapM (λ p, stop_done (advance p)) ps with
      | Some rs => Finished (inl e :: rs) []
      | None => Hang
      end
  | SetTrace k => run_world k ps
  | Emit _ k => run_world k ps
  | AllGather name v k =>
      match mapM (λ p, stop_waiting (advance p)) ps with
      | Some others =>
          let vs := v :: map (λ o, o.1.2) others in
          match run_world (k vs) (map (λ o, o.2 vs) others) with
          | Finished rs rounds => Finished rs ((name :: map (λ o, o.1.1) others) :: rounds)
          | Hang => Hang
          end
      | None => Hang
      end
  end.

(** One process against given answers: the collectives it enters, in
    order, each answered by the next list of gathered objects; the result
    ([None] when it is left waiting) and the answers not used. *)
Fixpoint run_with {A} (p : Prog A) (answers : list (list payload))
  : list (string * payload) * option (exn + A) * list (list payload) :=
  match p with
  | Ret a => ([], Some (inr a), answers)
  | Raise e => ([], Some (inl e), answers)
  | SetTrace k => run_with k answers
  | Emit _ k => run_with k answers
  | AllGather name v k =>
      match answers with
      | [] => ([(name, v)], None, [])
      | a :: rest =>
          let '(c, r, rem) := run_with (k a) rest in ((name, v) :: c, r, rem)
      end
  end.

(** The answers are what the processes contributed: round by round, the
    gathered list holds the object of every process, by rank. *)
Fixpoint consistent (answers : list (list payload))
    (calls : list (list (string * payload))) : Prop :=
  match answers with
  | [] => True
  | a :: rest =>
      a = map (λ c, match c with (_, v) :: _ => v | [] => GNum 0 end) calls ∧
      consistent rest (map tail calls)
  end.

(** The names the processes passed, round by round. *)
Fixpoint rounds_of (answers : list (list payload))
    (calls : list (list (string * payload))) : list (list string) :=
  match answers with
  | [] => []
  | _ :: rest =>
      map (λ c, match c with (name, _) :: _ => name | [] => "" end) calls
      :: rounds_of rest (map tail calls)
  end.

(** ** Per-step results as typed views *)

(** The content of a per-step result of [validation_step]. *)
Record ClsView : Type := {
  v_cls_tp : list N;
  v_cls_fp : list N;
  v_cls_fn : list N;
  v_cls_tn : list N;
  v_cls_correct : N;
  v_cls_total : N;
}.

Record StepView : Type := {
  v_loss : lval;
  v_seg_loss : lval;
  v_cls_loss : lval;
  v_tp : list N;
  v_fp : list N;
  v_fn : list N;
  v_cls : option ClsView;
}.

Definition lval_obj (l : lval) : pyobj :=
  match l with LTensor q => PArr0F q | LFloat q => PFloat q end.

Definition lval_num (l : lval) : Qc :=
  match l with LTensor q => q | LFloat q => q end.

Definition cls_dict (c : ClsView) : pydict pyobj :=
  [ ("cls_tp", PArr1 (v_cls_tp c));
    ("cls_fp", PArr1 (v_cls_fp c));
    ("cls_fn", PArr1 (v_cls_fn c));
    ("cls_tn", PArr1 (v_cls_tn c));
    ("cls_correct", PArr0I (v_cls_correct c));
    ("cls_total", PInt (v_cls_total c)) ].

(** The dictionary [validation_step] returns for this content. *)
Definition step_dict (v : StepView) : pydict pyobj :=
  [ ("loss", lval_obj (v_loss v));
    ("seg_loss", lval_obj (v_seg_loss v));
    ("cls_loss", lval_obj (v_cls_loss v));
    ("tp_hard", PArr1 (v_tp v));
    ("fp_hard", PArr1 (v_fp v));
    ("fn_hard", PArr1 (v_fn v)) ]
  ++ from_option cls_dict [] (v_cls v).

(** ** A small instance of the collaborators

    Tensors are numbered, the parameters of the network are the function it
    computes, the loss functor returns a fixed mapping, the confusion counts
    of the segmentation and the class scores are fixed. *)
Definition sample_torch (loss_dict : gmap string lval)
    (counts : list N * list N * list N * list N) (scores : ClsLogits)
  : Torch nat (nat → NetOutput nat) :=
  {| network := λ p x, p x;
     loss_call := λ _ _ _ _ _, loss_dict;
     zero_grad := λ p, p;
     backward := λ p _, p;
     optimizer_step := λ p, p;
     tensor_first := λ t, t;
     tensor_ndim := λ _, 4%nat;
     sigmoid_gt_half := λ t, t;
     argmax_onehot := λ t, t;
     ne_label := λ t _, t;
     zero_label := λ t _, t;
     dtype_is_bool := λ _, false;
     last_channel := λ t, t;
     drop_last_channel := λ t, t;
     tensor_not := λ t, t;
     one_minus := λ t, t;
     get_tp_fp_fn_tn := λ _ _ _ _, counts;
     logits := λ _, scores |}.

Definition sample_trainer (net : nat → NetOutput nat) (ddp : bool)
  : Trainer (nat → NetOutput nat) :=
  {| params := net;
     loss := {| loss_seg_weight := 1; loss_cls_weight := Qc_of_Z 1 / Qc_of_Z 2;
                loss_loss_type := "dice_ce" |};
     num_classification_classes := 3;
     seg_weight := 1;
     cls_weight := Qc_of_Z 1 / Qc_of_Z 2;
     loss_type := "dice_ce";
     enable_deep_supervision := false;
     label_manager := {| has_regions := false; has_ignore_label := false;
                         ignore_label := 0 |};
     is_ddp := ddp;
     current_epoch := Some 0%nat |}.

Definition two_heads : NetOutput nat :=
  ODict (<["segmentation" := VTensor 1%nat]> (<["classification" := VTensor 2%nat]> ∅)).

Definition sample_batch : Batch nat :=
  {| data := 0%nat; target := 7%nat; class_target := [0; 1; 1]%Z |}.

Definition sample_scores : ClsLogits :=
  {| n_classes := 2;
     rows := [ [Qc_of_Z 3; Qc_of_Z 1]; [Qc_of_Z 0; Qc_of_Z 2]; [Qc_of_Z 5; Qc_of_Z 4] ] |}.

Definition sample_losses : gmap string lval :=
  <["total_loss" := LTensor (Qc_of_Z 3)]>
    (<["seg_loss" := LTensor (Qc_of_Z 2)]> (<["cls_loss" := LTensor (Qc_of_Z 1)]> ∅)).

Definition sample_counts : list N * list N * list N * list N :=
  ([9; 4; 0], [9; 1; 0], [9; 2; 0], [9; 0; 0])%N.

(** The same collaborators with another loss functor. *)
Definition with_loss {Tensor Params} (T : Torch Tensor Params)
    (f : MultiTaskLoss → NetOutput Tensor → Tensor → option (netval Tensor) → list Z
         → gmap string lval) : Torch Tensor Params :=
  {| network := @network _ _ T;
     loss_call := f;
     zero_grad := @zero_grad _ _ T;
     backward := @backward _ _ T;
     optimizer_step := @optimizer_step _ _ T;
     tensor_first := @tensor_first _ _ T;
     tensor_ndim := @tensor_ndim _ _ T;
     sigmoid_gt_half := @sigmoid_gt_half _ _ T;
     argmax_onehot := @argmax_onehot _ _ T;
     ne_label := @ne_label _ _ T;
     zero_label := @zero_label _ _ T;
     dtype_is_bool := @dtype_is_bool _ _ T;
     last_channel := @last_channel _ _ T;
     drop_last_channel := @drop_last_channel _ _ T;
     tensor_not := @tensor_not _ _ T;
     one_minus := @one_minus _ _ T;
     get_tp_fp_fn_tn := @get_tp_fp_fn_tn _ _ T;
     logits := @logits _ _ T |}.

(** The collaborators whose loss functor never reports component [k]. *)
Definition without_component {Tensor Params} (T : Torch Tensor Params) (k : string)
  : Torch Tensor Params :=
  with_loss T (λ lf seg tgt cls tcls, delete k (loss_call lf seg tgt cls tcls)).

(** [d[key] = v] on a dictionary that has the key. *)
Fixpoint dict_set {V} (d : pydict V) (key : string) (v : V) : pydict V :=
  match d with
  | [] => []
  | (k', v') :: d' =>
      if String.eqb k' key then (k', v) :: d' else (k', v') :: dict_set d' key v
  end.

(** The entry of the step result that reports a component of the loss. *)
Definition result_key (loss_key : string) : string :=
  if String.eqb loss_key "total_loss" then "loss" else loss_key.

(** ** The training epoch *)

(** Modelled from the spec: the epoch loop of the base trainer
    ([nnUNetTrainer.run_training]) is not among the sources.  The hook runs
    "before each training epoch" and "must take effect before any training
    step of that epoch executes": one epoch is the hook followed by the
    training steps, each on the state the previous one left. *)
Fixpoint train_steps {Tensor Params} {torch : Torch Tensor Params}
    (self : Trainer Params) (batches : list (Batch Tensor))
  : Prog (Trainer Params * list (gmap string lval)) :=
  match batches with
  | [] => Ret (self, [])
  | b :: bs =>
      '(self, l) ← train_step self b;
      '(self, ls) ← train_steps self bs;
      Ret (self, l :: ls)
  end.

(** Modelled from the spec: the hook, then the training steps of the epoch. *)
Definition train_epoch {Tensor Params} {torch : Torch Tensor Params}
    (self : Trainer Params) (batches : list (Batch Tensor))
  : Prog (Trainer Params * list (gmap string lval)) :=
  train_steps (on_train_epoch_start self) batches.



(** The four counts of class [c], as the loop computes them. *)
Definition class_counts (cls_pred : list nat) (cls_target : list Z) (c : nat)
    (f : bool → bool → bool) : N :=
  count_true (zip_with f (map (λ p, (p =? c)%nat) cls_pred)
                         (map (λ t, (t =? Z.of_nat c)%Z) cls_target)).

(** *** What the reduction computes from the typed views *)

Definition is_tensor (l : lval) : bool :=
  match l with LTensor _ => true | LFloat _ => false end.

Definition sv_cls_tp (v : StepView) : list N := from_option v_cls_tp [] (v_cls v).
Definition sv_cls_fp (v : StepView) : list N := from_option v_cls_fp [] (v_cls v).
Definition sv_cls_fn (v : StepView) : list N := from_option v_cls_fn [] (v_cls v).
Definition sv_cls_tn (v : StepView) : list N := from_option v_cls_tn [] (v_cls v).
Definition sv_cls_correct (v : StepView) : N := from_option v_cls_correct 0%N (v_cls v).
Definition sv_cls_total (v : StepView) : N := from_option v_cls_total 0%N (v_cls v).

(** The per-step results of one validation run have one shape: [n_fg]
    foreground classes, classification counts for [n_cls] classes in every
    step or in none, and each loss component a tensor in every step or a
    float in every step. *)
Record Shape : Type := {
  n_fg : nat;
  n_cls : option nat;
  loss_is_tensor : bool;
  seg_loss_is_tensor : bool;
  cls_loss_is_tensor : bool;
}.

Definition has_shape (sh : Shape) (v : StepView) : Prop :=
  length (v_tp v) = n_fg sh ∧ length (v_fp v) = n_fg sh ∧ length (v_fn v) = n_fg sh ∧
  is_tensor (v_loss v) = loss_is_tensor sh ∧
  is_tensor (v_seg_loss v) = seg_loss_is_tensor sh ∧
  is_tensor (v_cls_loss v) = cls_loss_is_tensor sh ∧
  match n_cls sh, v_cls v with
  | Some k, Some c =>
      length (v_cls_tp c) = k ∧ length (v_cls_fp c) = k ∧
      length (v_cls_fn c) = k ∧ length (v_cls_tn c) = k
  | None, None => True
  | _, _ => False
  end.

(** The collated form of one loss component. *)
Definition loss_column (tensor : bool) (f : StepView → lval) (vs : list StepView)
  : collated :=
  if tensor then CMatF (map (λ v, [lval_num (f v)]) vs)
  else CList (map (λ v, PFloat (lval_num (f v))) vs).

Definition collated_of (sh : Shape) (vs : list StepView) : pydict collated :=
  [ ("loss", loss_column (loss_is_tensor sh) v_loss vs);
    ("seg_loss", loss_column (seg_loss_is_tensor sh) v_seg_loss vs);
    ("cls_loss", loss_column (cls_loss_is_tensor sh) v_cls_loss vs);
    ("tp_hard", CMatI (map v_tp vs));
    ("fp_hard", CMatI (map v_fp vs));
    ("fn_hard", CMatI (map v_fn vs)) ]
  ++ match n_cls sh with
     | Some _ =>
         [ ("cls_tp", CMatI (map sv_cls_tp vs));
           ("cls_fp", CMatI (map sv_cls_fp vs));
           ("cls_fn", CMatI (map sv_cls_fn vs));
           ("cls_tn", CMatI (map sv_cls_tn vs));
           ("cls_correct", CMatI (map (λ v, [sv_cls_correct v]) vs));
           ("cls_total", CList (map (λ v, PInt (sv_cls_total v)) vs)) ]
     | None => []
     end.

(** The segmentation part of the epoch summary, from the aggregated counts
    and the loss means. *)
Definition seg_part (tp fp fn : list N) (total_loss seg_loss cls_loss : fval)
  : pydict sval :=
  [ ("mean_fg_dice", SFloat (np_nanmean (dice_per_class tp fp fn)));
    ("dice_per_class", SList (dice_per_class tp fp fn));
    ("total_loss", SFloat total_loss);
    ("seg_loss", SFloat seg_loss);
    ("cls_loss", SFloat cls_loss) ].

(** The classification part, from the aggregated counts. *)
Definition cls_part (tp fp fn : list N) (correct total : N) : pydict sval :=
  let precision := zip_with guarded_ratio tp (zip_with N.add tp fp) in
  let recall := zip_with guarded_ratio tp (zip_with N.add tp fn) in
  let f1 := zip_with f1_score precision recall in
  [ ("cls_accuracy",
     SFloat (Num (if (0 <? total)%N then Qc_of_N correct / Qc_of_N total else 0)));
    ("cls_precision_per_class", SArr precision);
    ("cls_recall_per_class", SArr recall);
    ("cls_f1_per_class", SArr f1);
    ("cls_macro_precision", SFloat (np_nanmean (map Num precision)));
    ("cls_macro_recall", SFloat (np_nanmean (map Num recall)));
    ("cls_macro_f1", SFloat (np_nanmean (map Num f1))) ].

Definition loss_mean (f : StepView → lval) (vs : list StepView) : fval :=
  np_mean (map (λ v, lval_num (f v)) vs).

(** The epoch summary of the per-step results [vs]. *)
Definition epoch_summary (sh : Shape) (vs : list StepView) : pydict sval :=
  seg_part (col_sums (map v_tp vs)) (col_sums (map v_fp vs)) (col_sums (map v_fn vs))
           (loss_mean v_loss vs) (loss_mean v_seg_loss vs) (loss_mean v_cls_loss vs)
  ++ match n_cls sh with
     | Some _ =>
         if (0 <? length (concat (map sv_cls_tp vs)))%nat then
           cls_part (col_sums (map sv_cls_tp vs)) (col_sums (map sv_cls_fp vs))
                    (col_sums (map sv_cls_fn vs))
                    (N_sum (map sv_cls_correct vs)) (N_sum (map sv_cls_total vs))
         else []
     | None => []
     end.

(** The summary handed to the logger and the console is either without a
    classification part or with the full one. *)
Definition cls_part_or_none (cm : pydict sval) : Prop :=
  cm = [] ∨ ∃ tp fp fn correct total, cm = cls_part tp fp fn correct total.

(** *** The reduction across workers *)

(** Classification counts are reduced when they were collected for at least
    one class ([outputs_collated['cls_tp'].size > 0]). *)
Definition cls_active (sh : Shape) : bool :=
  match n_cls sh with
  | Some k => (0 <? k)%nat
  | None => false
  end.

(** The collectives of one epoch-end reduction, in order: the name of the
    gathered variable and the object a worker holding the per-step results
    [vs] contributes. *)
Definition seg_plan (sh : Shape) : list (string * (list StepView → payload)) :=
  [ ("tp", λ vs, GVec (col_sums (map v_tp vs)));
    ("fp", λ vs, GVec (col_sums (map v_fp vs)));
    ("fn", λ vs, GVec (col_sums (map v_fn vs)));
    ("loss", λ vs, GColl (loss_column (loss_is_tensor sh) v_loss vs));
    ("seg_loss", λ vs, GColl (loss_column (seg_loss_is_tensor sh) v_seg_loss vs));
    ("cls_loss", λ vs, GColl (loss_column (cls_loss_is_tensor sh) v_cls_loss vs)) ].

Definition cls_plan : list (string * (list StepView → payload)) :=
  [ ("cls_tp", λ vs, GVec (col_sums (map sv_cls_tp vs)));
    ("cls_fp", λ vs, GVec (col_sums (map sv_cls_fp vs)));
    ("cls_fn", λ vs, GVec (col_sums (map sv_cls_fn vs)));
    ("cls_correct", λ vs, GNum (N_sum (map sv_cls_correct vs)));
    ("cls_total", λ vs, GNum (N_sum (map sv_cls_total vs))) ].

Definition gather_plan (sh : Shape) : list (string * (list StepView → payload)) :=
  seg_plan sh ++ if cls_active sh then cls_plan else [].

Definition worker_calls (sh : Shape) (vs : list StepView) : list (string * payload) :=
  map (λ ng, (ng.1, ng.2 vs)) (gather_plan sh).

Definition world_answers (sh : Shape) (vss : list (list StepView)) : list (list payload) :=
  map (λ ng, map ng.2 vss) (gather_plan sh).

(** The sum over the workers of the local sums. *)
Definition world_sum (f : StepView → list N) (vss : list (list StepView)) : list N :=
  col_sums (map (λ vs, col_sums (map f vs)) vss).

Definition world_count (f : StepView → N) (vss : list (list StepView)) : N :=
  N_sum (map (λ vs, N_sum (map f vs)) vss).

(** The epoch summary every worker of the group returns. *)
Definition world_summary (sh : Shape) (vss : list (list StepView)) : pydict sval :=
  seg_part (world_sum v_tp vss) (world_sum v_fp vss) (world_sum v_fn vss)
           (loss_mean v_loss (concat vss)) (loss_mean v_seg_loss (concat vss))
           (loss_mean v_cls_loss (concat vss))
  ++ if cls_active sh then
       cls_part (world_sum sv_cls_tp vss) (world_sum sv_cls_fp vss)
                (world_sum sv_cls_fn vss)
                (world_count sv_cls_correct vss) (world_count sv_cls_total vss)
     else [].

(** The shards of a group: every worker has at least one per-step result,
    all of one shape; where a loss component is a Python float the workers
    have the same number of steps (the gathered lists are stacked as rows). *)
Definition world_ok (sh : Shape) (vss : list (list StepView)) : Prop :=
  vss ≠ [] ∧
  Forall (λ vs, vs ≠ [] ∧ Forall (has_shape sh) vs) vss ∧
  ((loss_is_tensor sh && seg_loss_is_tensor sh && cls_loss_is_tensor sh = true) ∨
   ∃ m, Forall (λ vs, length vs = m) vss).

(** The rows [np.vstack] sees in the collated losses of one worker. *)
Definition loss_rows (b : bool) (f : StepView → lval) (vs : list StepView)
  : list (list Qc) :=
  if b then map (λ v, [lval_num (f v)]) vs else [map (λ v, lval_num (f v)) vs].

(** ** The formulas of the specification *)

(** Per-class Dice, "2*tp / (2*tp + fp + fn)", not-a-number when the
    denominator is zero. *)
Definition dice_formula (tp fp fn : N) : fval :=
  let denominator := Qc_of_Z 2 * Qc_of_N tp + Qc_of_N fp + Qc_of_N fn in
  if bool_decide (denominator = 0) then NaN
  else Num (Qc_of_Z 2 * Qc_of_N tp / denominator).

(** The entries that are numbers. *)
Definition numbers (l : list fval) : list Qc :=
  omap (λ v, match v with Num q => Some q | NaN | Inf => None end) l.

(** "The mean over classes, ignoring not-a-number entries" (not-a-number
    when every entry is). *)
Definition mean_ignoring_nan (l : list fval) : fval :=
  match numbers l with
  | [] => NaN
  | xs => Num (Qc_sum xs / Qc_of_Z (Z.of_nat (length xs)))
  end.

(** "x / d (0 when the denominator is 0)". *)
Definition ratio_or_zero (x d : Qc) : Qc :=
  if bool_decide (d = 0) then 0 else x / d.

(** Two per-step results of one shape, with and without classification
    counts. *)
Definition sample_cls (correct total : N) : ClsView :=
  {| v_cls_tp := [2; 0]%N; v_cls_fp := [1; 0]%N; v_cls_fn := [0; 3]%N;
     v_cls_tn := [3; 3]%N; v_cls_correct := correct; v_cls_total := total |}.

Definition sample_step (loss_value : Z) (tp fp fn : list N) (cls : option ClsView)
  : StepView :=
  {| v_loss := LTensor (Qc_of_Z loss_value);
     v_seg_loss := LTensor (Qc_of_Z 2);
     v_cls_loss := LTensor (Qc_of_Z 1);
     v_tp := tp; v_fp := fp; v_fn := fn; v_cls := cls |}.

Definition sample_shape (cls : option nat) : Shape :=
  {| n_fg := 2; n_cls := cls; loss_is_tensor := true;
     seg_loss_is_tensor := true; cls_loss_is_tensor := true |}.

Definition sample_steps : list StepView :=
  [ sample_step 3 [4; 0]%N [1; 0]%N [2; 0]%N None;
    sample_step 5 [1; 0]%N [0; 0]%N [3; 0]%N None ].

(** What the specification says of the Dice entries of a summary [r]
    computed from the aggregated counts [tp], [fp], [fn]: one value per
    class, 2*tp/(2*tp+fp+fn) where the denominator is not zero and
    not-a-number where it is, and their mean, not-a-number entries ignored. *)
Definition dice_entries (tp fp fn : list N) (r : pydict sval) : Prop :=
  ∃ dice,
    dict_get r "dice_per_class" = Some (SList dice) ∧
    length dice = length tp ∧
    (∀ c i j k, tp !! c = Some i → fp !! c = Some j → fn !! c = Some k →
       dice !! c = Some (dice_formula i j k) ∧
       ((2 * i + j + k)%N ≠ 0%N →
          dice !! c = Some (Num (Qc_of_Z 2 * Qc_of_N i
                                 / (Qc_of_Z 2 * Qc_of_N i + Qc_of_N j + Qc_of_N k)))) ∧
       ((2 * i + j + k)%N = 0%N → dice !! c = Some NaN)) ∧
    dict_get r "mean_fg_dice" = Some (SFloat (mean_ignoring_nan dice)).

(** What the specification says of the classification entries of a summary
    [r] computed from the aggregated counts of [k] classes: accuracy,
    precision, recall and F1 with 0 for a zero denominator, and the macro
    averages, the means over the classes. *)
Definition classification_entries (k : nat) (tp fp fn : list N) (correct total : N)
    (r : pydict sval) : Prop :=
  ∃ precision recall f1,
    dict_get r "cls_accuracy"
      = Some (SFloat (Num (ratio_or_zero (Qc_of_N correct) (Qc_of_N total)))) ∧
    dict_get r "cls_precision_per_class" = Some (SArr precision) ∧
    dict_get r "cls_recall_per_class" = Some (SArr recall) ∧
    dict_get r "cls_f1_per_class" = Some (SArr f1) ∧
    length precision = k ∧ length recall = k ∧ length f1 = k ∧
    (∀ c a b x, tp !! c = Some a → fp !! c = Some b → fn !! c = Some x →
       ∃ p q,
         p = ratio_or_zero (Qc_of_N a) (Qc_of_N a + Qc_of_N b) ∧
         q = ratio_or_zero (Qc_of_N a) (Qc_of_N a + Qc_of_N x) ∧
         precision !! c = Some p ∧ recall !! c = Some q ∧
         f1 !! c = Some (ratio_or_zero (Qc_of_Z 2 * p * q) (p + q))) ∧
    dict_get r "cls_macro_precision"
      = Some (SFloat (Num (Qc_sum precision / Qc_of_Z (Z.of_nat k)))) ∧
    dict_get r "cls_macro_recall"
      = Some (SFloat (Num (Qc_sum recall / Qc_of_Z (Z.of_nat k)))) ∧
    dict_get r "cls_macro_f1"
      = Some (SFloat (Num (Qc_sum f1 / Qc_of_Z (Z.of_nat k)))) ∧
    mean_ignoring_nan (map Num precision) = Num (Qc_sum precision / Qc_of_Z (Z.of_nat k)) ∧
    mean_ignoring_nan (map Num recall) = Num (Qc_sum recall / Qc_of_Z (Z.of_nat k)) ∧
    mean_ignoring_nan (map Num f1) = Num (Qc_sum f1 / Qc_of_Z (Z.of_nat k)).

(** ** build_network_architecture *)

(** A result of a collaborator that may raise. *)
Definition lift {A} (r : exn + A) : Prog A :=
  match r with inl e => Raise e | inr a => Ret a end.

(** A value among the architecture keyword arguments: [None], a string (the
    dotted name of something to import) or any other object. *)
Inductive kwval (Obj : Type) : Type :=
| KNone
| KStr (s : string)
| KObj (o : Obj).

Arguments KNone {Obj}.
Arguments KStr {Obj} s.
Arguments KObj {Obj} o.

(** The three network classes imported from
    [nnunetv2.architectures.MultiTaskResEncUNet]. *)
Inductive arch_class : Type :=
| MultiTaskResEncUNet
| MultiTaskChannelAttentionResEncUNet
| MultiTaskEfficientAttentionResEncUNet.

#[global] Instance arch_class_eq_dec : EqDecision arch_class.
Proof. solve_decision. Defined.

(** The literal [architecture_mapping]. *)
Definition architecture_mapping : pydict arch_class :=
  [ ("nnunetv2.architectures.MultiTaskResEncUNet.MultiTaskResEncUNet",
     MultiTaskResEncUNet);
    ("nnunetv2.architectures.MultiTaskResEncUNet.MultiTaskChannelAttentionResEncUNet",
     MultiTaskChannelAttentionResEncUNet);
    ("nnunetv2.architectures.MultiTaskResEncUNet.MultiTaskEfficientAttentionResEncUNet",
     MultiTaskEfficientAttentionResEncUNet);
    ("MultiTaskResEncUNet", MultiTaskResEncUNet);
    ("MultiTaskChannelAttentionResEncUNet", MultiTaskChannelAttentionResEncUNet);
    ("MultiTaskEfficientAttentionResEncUNet", MultiTaskEfficientAttentionResEncUNet) ].

Section Architecture.

Context {Obj Net : Type}.

(** What the method calls: [pydoc.locate], the constructors of the network
    classes, and the optional [initialize] of the network built. *)
Class Arch : Type := {
  pydoc_locate : kwval Obj → exn + kwval Obj;
  construct : arch_class → Z → Z → gmap string (kwval Obj) → exn + Net;
  has_initialize : Net → bool;                    (* [hasattr(network, 'initialize')] *)
  apply_initialize : Net → exn + Net;             (* [network.apply(network.initialize)] *)
}.

Context {arch : Arch}.

(** One iteration of [for ri in arch_init_kwargs_req_import]. *)
Definition locate_import (architecture_kwargs : gmap string (kwval Obj)) (ri : string)
  : Prog (gmap string (kwval Obj)) :=
  v ← or_raise (KeyError ri) (architecture_kwargs !! ri);
  match v with
  | KNone => Ret architecture_kwargs
  | _ => w ← lift (pydoc_locate v); Ret (<[ri := w]> architecture_kwargs)
  end.

(** [network_class(input_channels=..., num_classes=..., **architecture_kwargs)]:
    a keyword given twice is a [TypeError] of the call itself. *)
Definition call_network_class (network_class : arch_class)
    (num_input_channels num_output_channels : Z)
    (architecture_kwargs : gmap string (kwval Obj)) : Prog Net :=
  if bool_decide (is_Some (architecture_kwargs !! "input_channels")
                  ∨ is_Some (architecture_kwargs !! "num_classes"))
  then Raise TypeError
  else lift (construct network_class num_input_channels num_output_channels
                       architecture_kwargs).

Definition build_network_architecture (architecture_class_name : string)
    (arch_init_kwargs : gmap string (kwval Obj))
    (arch_init_kwargs_req_import : list string)
    (num_input_channels num_output_channels : Z)
    (enable_deep_supervision : bool) : Prog Net :=
  architecture_kwargs ←
    foldP locate_import arch_init_kwargs_req_import arch_init_kwargs;
  network_class ←
    or_raise ValueError (dict_get architecture_mapping architecture_class_name);
  network ← call_network_class network_class num_input_channels num_output_channels
                               architecture_kwargs;
  if has_initialize network then lift (apply_initialize network)
  else Ret network.

End Architecture.

Arguments Arch : clear implicits.

(** An instance: imports are looked up in a table (a name that is not found
    gives [None], as [pydoc.locate] does; anything but a string cannot be
    located), and a network is a record of what its constructor received. *)
Record sample_net : Type := {
  net_class : arch_class;
  net_input_channels : Z;
  net_num_classes : Z;
  net_kwargs : gmap string (kwval string);
  net_initialized : bool;
}.

Definition sample_arch (table : gmap string string) : Arch string sample_net :=
  {| pydoc_locate := λ v,
       match v with
       | KStr s => inr (from_option KObj KNone (table !! s))
       | _ => inl AttributeError
       end;
     construct := λ c i o kw,
       inr {| net_class := c; net_input_channels := i; net_num_classes := o;
              net_kwargs := kw; net_initialized := false |};
     has_initialize := λ _, true;
     apply_initialize := λ n,
       inr {| net_class := net_class n; net_input_channels := net_input_channels n;
              net_num_classes := net_num_classes n; net_kwargs := net_kwargs n;
              net_initialized := true |} |}.

Definition sample_table : gmap string string :=
  <["torch.nn.Conv3d" := "Conv3d"]> (<["torch.nn.InstanceNorm3d" := "InstanceNorm3d"]> ∅).

Definition sample_kwargs : gmap string (kwval string) :=
  <["conv_op" := KStr "torch.nn.Conv3d"]>
    (<["norm_op" := KStr "torch.nn.InstanceNorm3d"]>
       (<["dropout_op" := KNone]> (<["n_stages" := KObj "6"]> ∅))).

(** ** get_tr_and_val_datasets *)

(** The path separator. *)
Definition sep : Ascii.ascii := Ascii.Ascii true true true true false true false false.

(** [os.path.join] on POSIX paths: a component that starts with the
    separator replaces what came before; otherwise it is appended, after a
    separator unless the path so far is empty or ends with one. *)
Definition starts_with_sep (s : string) : bool :=
  match s with
  | String c _ => Ascii.eqb c sep
  | EmptyString => false
  end.

Fixpoint ends_with_sep (s : string) : bool :=
  match s with
  | EmptyString => false
  | String c EmptyString => Ascii.eqb c sep
  | String _ s' => ends_with_sep s'
  end.

Definition join_component (path b : string) : string :=
  if starts_with_sep b then b
  else if String.eqb path "" || ends_with_sep path then path +:+ b
  else path +:+ "/" +:+ b.

Definition os_path_join (a : string) (p : list string) : string :=
  foldl join_component a p.

Section Datasets.

Context {Keys Folder DatasetClass Dataset : Type}.

(** The arguments of one call of the dataset class. *)
Record DatasetCall : Type := {
  c_folder : Folder;
  c_keys : Keys;
  c_folder_with_segs_from_previous_stage : option Folder;
  c_load_subtype_labels : bool;
  c_label_path : string;
}.

(** What the method calls: [self.do_split()], [infer_dataset_class] and the
    constructor of the class it returns. *)
Class DataLoading : Type := {
  do_split : exn + (Keys * Keys);
  infer_dataset_class : Folder → exn + DatasetClass;
  new_dataset : DatasetClass → DatasetCall → exn + Dataset;
}.

Context {loading : DataLoading}.

(** The attributes of [self] the method reads. *)
Record DataTrainer : Type := {
  dataset_name : string;                          (* [self.plans_manager.dataset_name] *)
  preprocessed_dataset_folder : Folder;
  folder_with_segs_from_previous_stage : option Folder;
}.

(** [os.environ[key]]. *)
Definition environ_getitem (environ : gmap string string) (key : string) : Prog string :=
  or_raise (KeyError key) (environ !! key).

Definition get_tr_and_val_datasets (self : DataTrainer) (environ : gmap string string)
  : Prog (Dataset * Dataset) :=
  '(tr_keys, val_keys) ← lift do_split;
  let dataset_name := dataset_name self in
  dataset_class ← lift (infer_dataset_class (preprocessed_dataset_folder self));
  raw ← environ_getitem environ "nnUNet_raw";
  dataset_tr ← lift (new_dataset dataset_class
    {| c_folder := preprocessed_dataset_folder self; c_keys := tr_keys;
       c_folder_with_segs_from_previous_stage := folder_with_segs_from_previous_stage self;
       c_load_subtype_labels := true;
       c_label_path := os_path_join raw [dataset_name; "labels.csv"] |});
  raw ← environ_getitem environ "nnUNet_raw";
  dataset_val ← lift (new_dataset dataset_class
    {| c_folder := preprocessed_dataset_folder self; c_keys := val_keys;
       c_folder_with_segs_from_previous_stage := folder_with_segs_from_previous_stage self;
       c_load_subtype_labels := true;
       c_label_path := os_path_join raw [dataset_name; "labels.csv"] |});
  Ret (dataset_tr, dataset_val).

End Datasets.

Arguments DatasetCall : clear implicits.
Arguments DataLoading : clear implicits.
Arguments DataTrainer : clear implicits.

(** An instance: case identifiers are strings, a dataset is the record of
    the call that built it. *)
Definition sample_loading
  : DataLoading (list string) string unit (DatasetCall (list string) string) :=
  {| do_split := inr (["case_0"; "case_1"], ["case_2"]);
     infer_dataset_class := λ _, inr tt;
     new_dataset := λ _ c, inr c |}.

Definition sample_data_trainer : DataTrainer string :=
  {| dataset_name := "Dataset001_Pancreas";
     preprocessed_dataset_folder := "/data/preprocessed/Dataset001_Pancreas/3d_fullres";
     folder_with_segs_from_previous_stage := None |}.

(** The labels that name one of the [n] classes. *)
Definition in_range_labels (n : nat) (cls_target : list Z) : list Z :=
  filter (λ t, (0 ≤ t < Z.of_nat n)%Z) cls_target.

(** ** Reading the trace and the summary of the reduction *)

(** What the logger received, in order. *)
Definition logged (t : list obs) : list (string * sval * nat) :=
  omap (λ o, match o with OEvent (ELog k v e) => Some (k, v, e) | _ => None end) t.


(** The names [on_validation_epoch_end] logs under, in the order of its
    calls of the logger. *)
Definition log_keys : list string :=
  [ "mean_fg_dice"; "dice_per_class_or_region"; "val_losses"; "val_total_loss";
    "val_seg_loss"; "val_cls_loss"; "cls_accuracy"; "cls_macro_f1";
    "cls_macro_precision"; "cls_macro_recall"; "cls_f1_per_class";
    "cls_precision_per_class"; "cls_recall_per_class" ].

(** The entry of the returned summary that is logged under a name. *)
Definition summary_key (log_key : string) : string :=
  if String.eqb log_key "dice_per_class_or_region" then "dice_per_class"
  else if String.eqb log_key "val_losses" then "total_loss"
  else if String.eqb log_key "val_total_loss" then "total_loss"
  else if String.eqb log_key "val_seg_loss" then "seg_loss"
  else if String.eqb log_key "val_cls_loss" then "cls_loss"
  else log_key.

(** The entries of a summary [r] under the logged names, at epoch [e]. *)
Definition logged_entries (e : nat) (r : pydict sval) : list (string * sval * nat) :=
  omap (λ k, v ← dict_get r (summary_key k); Some (k, v, e)) log_keys.

(** The reduction in its two modes: a process that is not distributed
    returns a summary [r] with [P vs r] for its per-step results [vs]; every
    worker of a distributed group returns one summary [r] with [P vs r] for
    the per-step results [vs] of all workers together. *)
Definition reduces_to {Params} (self : Trainer Params) (sh : Shape)
    (P : list StepView → pydict sval → Prop) : Prop :=
  (∀ vs, vs ≠ [] → Forall (has_shape sh) vs → is_ddp self = false →
     ∃ r, result_of (on_validation_epoch_end self (map step_dict vs)) = inr r ∧ P vs r) ∧
  (∀ vs0 vss, world_ok sh (vs0 :: vss) → is_ddp self = true →
     ∃ r rounds,
       run_world (on_validation_epoch_end self (map step_dict vs0))
                 (map (λ vs, on_validation_epoch_end self (map step_dict vs)) vss)
       = Finished (map (λ _, inr r) (vs0 :: vss)) rounds ∧
       P (concat (vs0 :: vss)) r).

(** A value is a number between 0 and 1. *)
Definition unit_interval (q : Qc) : Prop := 0 ≤ q ∧ q ≤ 1.

(** A float is not-a-number or a number between 0 and 1. *)
Definition nan_or_unit (v : fval) : Prop :=
  v = NaN ∨ ∃ q, v = Num q ∧ unit_interval q.

(** The shape of per-step results that carry no classification counts and
    are otherwise as [sh] says. *)
Definition without_cls (sh : Shape) : Shape :=
  {| n_fg := n_fg sh; n_cls := None; loss_is_tensor := loss_is_tensor sh;
     seg_loss_is_tensor := seg_loss_is_tensor sh;
     cls_loss_is_tensor := cls_loss_is_tensor sh |}.

(** ** Binary floating point

    Without regions the one-hot prediction of [validation_step] is created
    with [dtype=torch.float32] (line 186), so the counts of
    [get_tp_fp_fn_tn] and the arrays tp_hard, fp_hard, fn_hard (lines
    214-216) are float32 arrays, and [np.sum(..., 0)] and [.sum(0)] (lines
    282-284, 293-301) add them in float32.  With regions the prediction is
    [.long()] and the sums are integer sums.  The rounding of float32 is
    modelled on the rationals: the exact result of an operation, rounded to
    the nearest number with a significand of 24 bits, ties to the even
    significand.  The exponent range (overflow, subnormal numbers) is not
    modelled.  The definitions of [Float32] are those of the reduction
    ([np_sum0], [np_true_divide], [dice_per_class]) with this rounding
    after every operation. *)

(** [p / q] rounded to the nearest integer, ties to the even one. *)
Definition round_half_even (p q : Z) : Z :=
  let f := (p / q)%Z in
  let r := (2 * (p mod q))%Z in
  if (r <? q)%Z then f
  else if (q <? r)%Z then (f + 1)%Z
  else if Z.even f then f else (f + 1)%Z.

(** The positive rational [p / q] rounded to [prec] significant bits: [e] is
    the exponent of its leading bit. *)
Definition round_pos (prec p q : Z) : Qc :=
  let d := (Z.log2 p - Z.log2 q)%Z in
  let e := if (q * 2 ^ Z.max 0 d <=? p * 2 ^ Z.max 0 (- d))%Z then d else (d - 1)%Z in
  let s := (prec - 1 - e)%Z in
  let n := round_half_even (p * 2 ^ Z.max 0 s) (q * 2 ^ Z.max 0 (- s)) in
  Qc_of_Z (n * 2 ^ Z.max 0 (- s)) / Qc_of_Z (2 ^ Z.max 0 s).

(** The number with [prec] significant bits nearest to [x]. *)
Definition round_to (prec : Z) (x : Qc) : Qc :=
  let p := Qnum x in
  let q := Z.pos (Qden x) in
  if (p =? 0)%Z then 0
  else if (0 <? p)%Z then round_pos prec p q
  else - round_pos prec (- p) q.

(** The value a float32 takes for the exact result [x]. *)
Definition float32 : Qc → Qc := round_to 24.

Module Float32.

(** [a + b] on two float32 numbers. *)
Definition add (a b : Qc) : Qc := float32 (a + b).

(** The float32 array that holds the counts [l]. *)
Definition array (l : list N) : list Qc := map (λ n, float32 (Qc_of_N n)) l.

(** [np.sum(m, 0)] and [m.sum(0)] on a float32 array: the rows are added to
    the first one, one after the other. *)
Definition np_sum0 (m : list (list Qc)) : list Qc :=
  match m with
  | [] => []
  | r :: rs => foldl (zip_with add) r rs
  end.

(** [a / b] on two float32 numbers that are not negative. *)
Definition np_true_divide (a b : Qc) : fval :=
  if bool_decide (b = 0) then (if bool_decide (a = 0) then NaN else Inf)
  else Num (float32 (a / b)).

(** [[2 * i / (2 * i + j + k) for i, j, k in zip(tp, fp, fn)]] on float32
    arrays. *)
Definition dice_per_class (tp fp fn : list Qc) : list fval :=
  map (λ '(i, j, k),
         let twice := float32 (Qc_of_Z 2 * i) in
         np_true_divide twice (add (add twice j) k))
      (zip3 tp fp fn).

End Float32.

(** The largest count up to which float32 holds every integer. *)
Definition float32_max_count : N := 2 ^ 24.

(** No count of the array is above that bound. *)
Definition within_float32 (l : list N) : Prop :=
  Forall (λ n, (n ≤ float32_max_count)%N) l.

(** The sum of the specification, "summing per-step segmentation counts
    across all validation steps", written out entry by entry: entry [c] of
    the sum of the arrays [rows], each of [k] entries, is the sum of their
    entries [c]. *)
Definition summed_counts (k : nat) (rows : list (list N)) : list N :=
  map (λ c, N_sum (map (λ r, default 0%N (r !! c)) rows)) (seq 0 k).

(** A single step that holds the sums of the counts of [sample_steps]. *)
Definition sample_whole : StepView :=
  sample_step 4 [5; 0]%N [1; 0]%N [5; 0]%N None.

(** The counts of three steps with one foreground class.  A float32 holds
    every count and every sum of them, but adding the true positives in turn
    does not reach their sum. *)
Definition large_tp : list (list N) := [[2 ^ 24]; [1]; [1]]%N.
Definition large_fp : list (list N) := [[0]; [0]; [0]]%N.
Definition large_fn : list (list N) := [[2 ^ 25]; [0]; [0]]%N.

(** The entries of the epoch summary computed from the counts: the Dice
    values and the classification metrics. *)
Definition count_metrics : list string :=
  [ "dice_per_class"; "mean_fg_dice"; "cls_accuracy"; "cls_precision_per_class";
    "cls_recall_per_class"; "cls_f1_per_class"; "cls_macro_precision";
    "cls_macro_recall"; "cls_macro_f1" ].

(** The entries that are means of the per-step losses. *)
Definition loss_means : list (string * (StepView → lval)) :=
  [ ("total_loss", v_loss); ("seg_loss", v_seg_loss); ("cls_loss", v_cls_loss) ].

(** A per-step result whose total loss is the Python float 0.0, the default
    when the loss mapping has no 'total_loss', and three of them. *)
Definition float_loss_step (tp : list N) : StepView :=
  {| v_loss := LFloat 0; v_seg_loss := LTensor (Qc_of_Z 2);
     v_cls_loss := LTensor (Qc_of_Z 1);
     v_tp := tp; v_fp := [1; 0]%N; v_fn := [2; 0]%N; v_cls := None |}.

Definition float_loss_steps : list StepView :=
  [ float_loss_step [4; 0]%N; float_loss_step [1; 0]%N; float_loss_step [3; 3]%N ].

(** * Properties *)

(** ** The monad *)

Lemma bind_ret {A B} (a : A) (f : A → Prog B) : (Ret a ≫= f) = f a.
Proof. reflexivity. Qed.


(** Running a sequence: the first part, then the rest on its value. *)
Lemma run_local_bind {A B} (m : Prog A) (f : A → Prog B) :
  run_local (m ≫= f) =
  match run_local m with
  | (t, inl e) => (t, inl e)
  | (t, inr a) => ((t ++ (run_local (f a)).1), (run_local (f a)).2)
  end.
Proof.
  unfold mbind, Prog_bind.
  induction m as [a|e|k IH|name v k IH|ev k IH]; simpl.
  - by destruct (run_local (f a)).
  - done.
  - rewrite IH. by destruct (run_local k) as [t [e|a]].
  - rewrite IH. by destruct (run_local (k [v])) as [t [e|a]].
  - rewrite IH. by destruct (run_local k) as [t [e|a]].
Qed.

Lemma result_of_bind {A B} (m : Prog A) (f : A → Prog B) :
  result_of (m ≫= f) =
  match result_of m with
  | inl e => inl e
  | inr a => result_of (f a)
  end.
Proof.
  unfold result_of. rewrite run_local_bind.
  by destruct (run_local m) as [t [e|a]].
Qed.

Lemma trace_of_bind {A B} (m : Prog A) (f : A → Prog B) :
  trace_of (m ≫= f) =
  match result_of m with
  | inl e => trace_of m
  | inr a => trace_of m ++ trace_of (f a)
  end.
Proof.
  unfold result_of, trace_of. rewrite run_local_bind.
  by destruct (run_local m) as [t [e|a]].
Qed.

(** ** The loss ramp of [on_train_epoch_start] *)

Lemma hundred_pos : 0 < Qc_of_Z 100.
Proof. rewrite <-Z2Qc_inj_0. by apply Z2Qc_inj_lt. Qed.

Lemma hundred_ne : Qc_of_Z 100 ≠ 0.
Proof. rewrite <-Z2Qc_inj_0. intros E. by apply Z2Qc_inj in E. Qed.

Lemma ratio_above_one (e : nat) :
  1 < Qc_of_Z (Z.of_nat e) / Qc_of_Z 100 ↔ (100 < e)%nat.
Proof.
  rewrite (Qcmult_lt_mono_pos_r _ _ (Qc_of_Z 100) hundred_pos).
  rewrite Qcmult_1_l, test_field by apply hundred_ne.
  rewrite <-Z2Qc_inj_lt. lia.
Qed.

Lemma epoch_ratio_below (e : nat) :
  (e ≤ 100)%nat → epoch_ratio e = Qc_of_Z (Z.of_nat e) / Qc_of_Z 100.
Proof.
  intros He. unfold epoch_ratio, py_min.
  rewrite bool_decide_eq_false_2; [done|]. rewrite ratio_above_one. lia.
Qed.

Lemma epoch_ratio_above (e : nat) : (100 ≤ e)%nat → epoch_ratio e = 1.
Proof.
  intros He. unfold epoch_ratio, py_min. case_bool_decide as Hlt; [done|].
  rewrite ratio_above_one in Hlt. replace e with 100%nat by lia.
  by apply Qc_is_canon.
Qed.

Section TrainEpoch.
Context {Tensor Params : Type} {torch : Torch Tensor Params}.
Implicit Types (self : Trainer Params) (b : Batch Tensor).

(** A training step leaves the loss functor and the configured weights
    alone, and its loss mapping is the functor's, called as it stood. *)
Lemma train_step_loss self b self' ld :
  result_of (train_step self b) = inr (self', ld) →
  loss self' = loss self ∧ cls_weight self' = cls_weight self ∧
  ∃ seg cls, ld = loss_call (loss self) seg (target b) cls (class_target b).
Proof.
  unfold train_step. rewrite result_of_bind.
  destruct (result_of (split_output _)) as [e|[seg cls]]; [done|].
  rewrite result_of_bind.
  destruct (result_of (loss_for_backward _)) as [e|l]; [done|].
  intros [= <- <-]. eauto.
Qed.

Lemma train_steps_loss self bs self' lds :
  result_of (train_steps self bs) = inr (self', lds) →
  loss self' = loss self ∧
  Forall (λ ld, ∃ seg tgt cls tcls, ld = loss_call (loss self) seg tgt cls tcls) lds.
Proof.
  revert self self' lds. induction bs as [|b bs IH]; intros self self' lds; simpl.
  - by intros [= <- <-].
  - rewrite result_of_bind.
    destruct (result_of (train_step self b)) as [e|[self1 l]] eqn:Hstep; [done|].
    apply train_step_loss in Hstep as (Hl & _ & seg & cls & ->).
    rewrite result_of_bind.
    destruct (result_of (train_steps self1 bs)) as [e|[self2 ls]] eqn:Hrest; [done|].
    apply IH in Hrest as [Hl2 Hall]. intros [= <- <-]. split; [congruence|].
    constructor; [eauto|]. by rewrite <-Hl.
Qed.
End TrainEpoch.

(** C6.  With the trainer at epoch [e], the epoch-start hook sets the
    classification weight of the loss functor to the configured maximum
    [cls_weight] times min(e/100, 1): the linear value up to epoch 100, that
    is 0 at epoch 0 and half the maximum at epoch 50, and the maximum itself
    from epoch 100 on.  In an epoch that starts with the hook, every training
    step evaluates the loss functor as the hook left it, and the weight is
    still the same after the last step. *)
Theorem on_train_epoch_start_ramp {Tensor Params} {torch : Torch Tensor Params}
    (self : Trainer Params) (e : nat) :
  current_epoch self = Some e →
  let w := loss_cls_weight (loss (on_train_epoch_start self)) in
  ((e ≤ 100)%nat → w = cls_weight self * (Qc_of_Z (Z.of_nat e) / Qc_of_Z 100)) ∧
  (e = 0%nat → w = 0) ∧
  (e = 50%nat → w = cls_weight self * (Qc_of_Z 1 / Qc_of_Z 2)) ∧
  ((100 ≤ e)%nat → w = cls_weight self) ∧
  (∀ (batches : list (Batch Tensor)) self' lds,
     result_of (train_epoch self batches) = inr (self', lds) →
     loss_cls_weight (loss self') = w ∧
     Forall (λ ld, ∃ seg tgt cls tcls,
               ld = loss_call (loss (on_train_epoch_start self)) seg tgt cls tcls) lds).
Proof.
  intros He w.
  assert (Hw : w = cls_weight self * epoch_ratio e).
  { unfold w, on_train_epoch_start. by rewrite He. }
  split; [|split; [|split; [|split]]].
  - intros Hle. by rewrite Hw, epoch_ratio_below.
  - intros ->. rewrite Hw, epoch_ratio_below by lia. apply Qc_is_canon.
    simpl. by rewrite Qmult_0_r.
  - intros ->. rewrite Hw, epoch_ratio_below by lia. by f_equal.
  - intros Hge. by rewrite Hw, epoch_ratio_above, Qcmult_1_r.
  - intros batches self' lds Hr. unfold train_epoch in Hr.
    apply train_steps_loss in Hr as [Hl Hall]. split; [by rewrite Hl|done].
Qed.

Lemma on_train_epoch_start_ramp_witness :
  let self := sample_trainer (λ _, two_heads) false in
  loss_cls_weight (loss (on_train_epoch_start self)) = 0.
Proof.
  intros self.
  pose proof (on_train_epoch_start_ramp
                (torch := sample_torch sample_losses sample_counts sample_scores)
                self 0 eq_refl) as (_ & H0 & _).
  by apply H0.
Defined.

(** ** Missing entries of the loss mapping *)

Lemma loss_entry_missing (ld : gmap string lval) (k : string) :
  ld !! k = None → loss_entry ld k = PFloat 0.
Proof. unfold loss_entry. by intros ->. Qed.

Lemma loss_entry_delete_ne (ld : gmap string lval) (k j : string) :
  k ≠ j → loss_entry (delete k ld) j = loss_entry ld j.
Proof. intros Hne. unfold loss_entry. by rewrite lookup_delete_ne. Qed.

Lemma loss_entry_delete (ld : gmap string lval) (k : string) :
  loss_entry (delete k ld) k = PFloat 0.
Proof. apply loss_entry_missing, lookup_delete_eq. Qed.

Lemma dict_get_set_eq {V} (d : pydict V) (k : string) (v : V) :
  is_Some (dict_get d k) → dict_get (dict_set d k v) k = Some v.
Proof.
  induction d as [|[k' v'] d IH]; simpl.
  - by intros [? [=]].
  - destruct (String.eqb k' k) eqn:E; simpl; rewrite E; auto.
Qed.

Lemma dict_get_set_ne {V} (d : pydict V) (k j : string) (v : V) :
  j ≠ k → dict_get (dict_set d k v) j = dict_get d j.
Proof.
  intros Hne. induction d as [|[k' v'] d IH]; simpl; [done|].
  destruct (String.eqb k' k) eqn:E; simpl.
  - apply String.eqb_eq in E as ->.
    by rewrite (proj2 (String.eqb_neq k j)).
  - by rewrite IH.
Qed.

Section MissingLoss.
Context {Tensor Params : Type} (T : Torch Tensor Params).
Implicit Types (self : Trainer Params) (batch : Batch Tensor).

Lemma validation_step_without self batch (k : string) :
  k ∈ ["total_loss"; "seg_loss"; "cls_loss"] →
  run_local (validation_step (torch := without_component T k) self batch) =
  (trace_of (validation_step (torch := T) self batch),
   match result_of (validation_step (torch := T) self batch) with
   | inl e => inl e
   | inr r => inr (dict_set r (result_key k) (PFloat 0))
   end).
Proof.
  intros Hk. unfold result_of, trace_of, validation_step.
  rewrite !run_local_bind.
  change (@network _ _ (without_component T k)) with (@network _ _ T).
  destruct (run_local (split_output _)) as [t1 [e|[seg cls]]]; [done|].
  rewrite !run_local_bind.
  change (@segmentation_counts _ _ (without_component T k))
    with (@segmentation_counts _ _ T).
  destruct (run_local (segmentation_counts _ _ _)) as [t2 [e|[[tp fp] fn]]]; [done|].
  rewrite !run_local_bind.
  change (@classification_metrics _ _ (without_component T k))
    with (@classification_metrics _ _ T).
  destruct (run_local (classification_metrics _ _)) as [t3 [e|cm]]; [done|].
  simpl.
  do 2 f_equal.
  set (ld := loss_call _ _ _ _ _).
  repeat (apply elem_of_cons in Hk as [->|Hk]); [..|by apply elem_of_nil in Hk];
    simpl; rewrite loss_entry_delete, !loss_entry_delete_ne by done; done.
Qed.
End MissingLoss.

Lemma validation_step_loss_keys {Tensor Params} {torch : Torch Tensor Params}
    (self : Trainer Params) (batch : Batch Tensor) (r : pydict pyobj) (j : string) :
  result_of (validation_step self batch) = inr r →
  j ∈ ["loss"; "seg_loss"; "cls_loss"] → is_Some (dict_get r j).
Proof.
  unfold validation_step. rewrite result_of_bind.
  destruct (result_of (split_output _)) as [e|[seg cls]]; [done|].
  rewrite result_of_bind.
  destruct (result_of (segmentation_counts _ _ _)) as [e|[[tp fp] fn]]; [done|].
  rewrite result_of_bind.
  destruct (result_of (classification_metrics _ _)) as [e|cm]; [done|].
  intros [= <-] Hj.
  repeat (apply elem_of_cons in Hj as [->|Hj]); [..|by apply elem_of_nil in Hj];
    simpl; eauto.
Qed.

(** C10.  Take any collaborators and let the loss functor stop reporting
    component [k], one of 'total_loss', 'seg_loss', 'cls_loss'.  The
    validation step then acts as before: the same observable actions, an
    exception exactly where there was one before; and where it returned [r]
    it now returns a result whose entry for that component ('loss' for
    'total_loss') is 0.0 and whose other entries are those of [r]. *)
Theorem validation_step_missing_loss {Tensor Params} (T : Torch Tensor Params)
    (self : Trainer Params) (batch : Batch Tensor) (k : string) :
  k ∈ ["total_loss"; "seg_loss"; "cls_loss"] →
  let before := validation_step (torch := T) self batch in
  let after := validation_step (torch := without_component T k) self batch in
  trace_of after = trace_of before ∧
  match result_of before with
  | inl e => result_of after = inl e
  | inr r =>
      ∃ r', result_of after = inr r' ∧
            dict_get r' (result_key k) = Some (PFloat 0) ∧
            ∀ j, j ≠ result_key k → dict_get r' j = dict_get r j
  end.
Proof.
  intros Hk before after.
  pose proof (validation_step_without T self batch k Hk) as Hrun.
  fold after before in Hrun. unfold trace_of at 1, result_of at 2 3.
  rewrite Hrun. simpl. split; [done|].
  destruct (result_of before) as [e|r] eqn:Hr; [done|].
  eexists; split; [done|]. split.
  - apply dict_get_set_eq. apply (validation_step_loss_keys self batch r); [done|].
    repeat (apply elem_of_cons in Hk as [->|Hk]); [..|by apply elem_of_nil in Hk];
      simpl; set_solver.
  - intros j Hj. by apply dict_get_set_ne.
Qed.

Lemma validation_step_missing_loss_witness :
  let T := sample_torch sample_losses sample_counts sample_scores in
  let self := sample_trainer (λ _, two_heads) false in
  ∃ r', result_of (validation_step (torch := without_component T "cls_loss")
                     self sample_batch) = inr r' ∧
        dict_get r' "cls_loss" = Some (PFloat 0) ∧
        dict_get r' "loss" = Some (PArr0F (Qc_of_Z 3)).
Proof.
  intros T self.
  destruct (validation_step_missing_loss T self sample_batch "cls_loss")
    as [_ Hres]; [set_solver|].
  assert (Hbefore : result_of (validation_step (torch := T) self sample_batch) =
    inr [ ("loss", PArr0F (Qc_of_Z 3)); ("seg_loss", PArr0F (Qc_of_Z 2));
          ("cls_loss", PArr0F (Qc_of_Z 1));
          ("tp_hard", PArr1 [4; 0]%N); ("fp_hard", PArr1 [1; 0]%N);
          ("fn_hard", PArr1 [2; 0]%N); ("cls_tp", PArr1 [1; 1]%N);
          ("cls_fp", PArr1 [1; 0]%N); ("cls_fn", PArr1 [0; 1]%N);
          ("cls_tn", PArr1 [1; 1]%N); ("cls_correct", PArr0I 2);
          ("cls_total", PInt 3) ]) by (vm_compute; reflexivity).
  rewrite Hbefore in Hres.
  destruct Hres as (r' & Hr' & Hz & Hother).
  exists r'. split; [done|]. split; [done|].
  by rewrite (Hother "loss").
Defined.

(** ** The split of the network output *)

Section Split.
Context {Tensor Params : Type} {torch : Torch Tensor Params}.
Implicit Types (self : Trainer Params) (batch : Batch Tensor)
  (output : NetOutput Tensor) (d : gmap string (netval Tensor)).



(** What the two steps do with the pair the split produced. *)
Lemma train_step_after_split self batch seg cls :
  split_output (network (zero_grad (params self)) (data batch)) = Ret (seg, cls) →
  train_step self batch =
  (let loss_dict := loss_call (loss self) seg (target batch) cls (class_target batch) in
   l ← loss_for_backward loss_dict;
   Ret (set_params self (optimizer_step (backward (zero_grad (params self)) l)),
        loss_dict)).
Proof. intros Hsplit. unfold train_step. cbn [params loss set_params]. by rewrite Hsplit. Qed.

Lemma validation_step_after_split self batch seg cls r :
  split_output (network (params self) (data batch)) = Ret (seg, cls) →
  result_of (validation_step self batch) = inr r →
  ∃ tp fp fn cm,
    result_of (segmentation_counts self seg (target batch)) = inr (tp, fp, fn) ∧
    result_of (classification_metrics cls (class_target batch)) = inr cm ∧
    let loss_dict := loss_call (loss self) seg (target batch) cls (class_target batch) in
    r = [ ("loss", loss_entry loss_dict "total_loss");
          ("seg_loss", loss_entry loss_dict "seg_loss");
          ("cls_loss", loss_entry loss_dict "cls_loss");
          ("tp_hard", PArr1 tp); ("fp_hard", PArr1 fp); ("fn_hard", PArr1 fn) ]
        ++ cm.
Proof.
  intros Hsplit. unfold validation_step. rewrite Hsplit, bind_ret.
  rewrite result_of_bind.
  destruct (result_of (segmentation_counts _ _ _)) as [e|[[tp fp] fn]]; [done|].
  rewrite result_of_bind.
  destruct (result_of (classification_metrics _ _)) as [e|cm]; [done|].
  intros [= <-]. by exists tp, fp, fn, cm.
Qed.
End Split.

Section SplitFallback.
Context {Tensor Params : Type} {torch : Torch Tensor Params}.
Implicit Types (self : Trainer Params) (batch : Batch Tensor)
  (output : NetOutput Tensor) (d : gmap string (netval Tensor)).




End SplitFallback.




(** ** The debugger breakpoints *)

(** C1 fails on the code: [validation_step] stops at [pdb.set_trace()]
    whenever it gets as far as returning a result, and
    [on_validation_epoch_end] stops there as soon as the per-step results are
    collated. *)
Theorem validation_path_stops_at_debugger {Tensor Params} {torch : Torch Tensor Params}
    (self : Trainer Params) (batch : Batch Tensor) (val_outputs : list (pydict pyobj)) :
  (∀ r, result_of (validation_step self batch) = inr r →
        OBreak ∈ trace_of (validation_step self batch)) ∧
  (∀ c, collate_outputs val_outputs = Ret c →
        head (trace_of (on_validation_epoch_end self val_outputs)) = Some OBreak).
Proof.
  split.
  - intros r. unfold validation_step.
    rewrite result_of_bind, trace_of_bind.
    destruct (result_of (split_output _)) as [e|[seg cls]]; [done|].
    rewrite result_of_bind, trace_of_bind.
    destruct (result_of (segmentation_counts _ _ _)) as [e|[[tp fp] fn]]; [done|].
    rewrite result_of_bind, trace_of_bind.
    destruct (result_of (classification_metrics _ _)) as [e|cm]; [done|].
    intros _. rewrite !elem_of_app. right. right. right. simpl. set_solver.
  - intros c Hc. unfold on_validation_epoch_end. rewrite Hc, bind_ret.
    rewrite trace_of_bind. simpl. done.
Qed.

Lemma validation_path_stops_at_debugger_witness :
  let T := sample_torch sample_losses sample_counts sample_scores in
  let self := sample_trainer (λ _, two_heads) false in
  OBreak ∈ trace_of (validation_step self sample_batch) ∧
  head (trace_of (on_validation_epoch_end self (map step_dict sample_steps)))
  = Some OBreak.
Proof.
  intros T self.
  destruct (validation_path_stops_at_debugger self sample_batch
              (map step_dict sample_steps)) as [Hstep Hend].
  split.
  - eapply Hstep. vm_compute. reflexivity.
  - eapply Hend. vm_compute. reflexivity.
Defined.

(** ** The confusion counts of the classification head *)

Lemma foldP_ret {A S} (f : S → A → Prog S) (g : S → A → S) (l : list A) (s : S) :
  (∀ s a, f s a = Ret (g s a)) → foldP f l s = Ret (foldl g s l).
Proof.
  intros Hf. revert s. induction l as [|a l IH]; intros s; simpl; [done|].
  by rewrite Hf, bind_ret, IH.
Qed.

Lemma broadcast_with_same {A B C} (e : exn) (f : A → B → C) (a : list A) (b : list B) :
  length a = length b → broadcast_with e f a b = Ret (zip_with f a b).
Proof. intros Hl. unfold broadcast_with. by rewrite Hl, Nat.eqb_refl. Qed.

Lemma argmax_row_lt (n : nat) (row : list Qc) : (0 < n)%nat → (argmax_row n row < n)%nat.
Proof.
  intros Hn. unfold argmax_row.
  assert (Hinv : ∀ l best, (best < n)%nat → Forall (λ i, (i < n)%nat) l →
    (foldl (λ best i, if bool_decide (nth best row 0%Qc < nth i row 0%Qc)%Qc
                      then i else best)
           best l < n)%nat).
  { induction l as [|i l IH]; intros best Hb Hall; simpl; [done|].
    inversion Hall; subst. apply IH; [|done]. by case_bool_decide. }
  apply Hinv; [done|]. apply Forall_forall. intros i Hi.
  apply elem_of_seq in Hi. lia.
Qed.

Lemma foldl_insert_lookup (f : nat → N) (l : list nat) (acc : list N) (i : nat) :
  foldl (λ a c, <[c := f c]> a) acc l !! i =
  if decide (i ∈ l ∧ (i < length acc)%nat) then Some (f i) else acc !! i.
Proof.
  revert acc. induction l as [|c l IH]; intros acc; cbn [foldl].
  - destruct (decide _) as [[Hd _]|_]; [by apply elem_of_nil in Hd|done].
  - rewrite IH, length_insert.
    destruct (decide (i ∈ l ∧ (i < length acc)%nat)) as [[Hin Hlt]|Hn].
    { rewrite decide_True; [done|]. split; [set_solver|done]. }
    destruct (decide (i = c)) as [->|Hne].
    + destruct (decide (c < length acc)%nat) as [Hlt|Hge].
      * rewrite list_lookup_insert_eq by done.
        rewrite decide_True; [done|]. split; [set_solver|done].
      * rewrite decide_False by (intros [_ ?]; lia).
        by rewrite list_insert_ge by lia.
    + rewrite list_lookup_insert_ne by done.
      rewrite decide_False; [done|]. intros [Hin Hlt]. apply Hn. split; [|done].
      by apply elem_of_cons in Hin as [?|?].
Qed.


Lemma foldl_insert_seq (f : nat → N) (n : nat) :
  foldl (λ a c, <[c := f c]> a) (replicate n 0%N) (seq 0 n) = map f (seq 0 n).
Proof.
  apply list_eq. intros i. rewrite foldl_insert_lookup, length_replicate.
  rewrite list_lookup_fmap.
  destruct (decide (i < n)%nat) as [Hi|Hi].
  - rewrite lookup_seq_lt by done. simpl. rewrite decide_True; [done|].
    split; [|done]. apply elem_of_seq. lia.
  - rewrite lookup_seq_ge by lia. simpl. rewrite decide_False by tauto.
    apply lookup_ge_None_2. rewrite length_replicate. lia.
Qed.


Lemma cls_loop_body_same (cls_pred : list nat) (cls_target : list Z)
    (acc : ClsArrays) (c : nat) :
  length cls_pred = length cls_target →
  cls_loop_body cls_pred cls_target acc c =
  Ret {| a_tp := <[c := class_counts cls_pred cls_target c (λ p t, p && t)]> (a_tp acc);
         a_fp := <[c := class_counts cls_pred cls_target c (λ p t, p && negb t)]> (a_fp acc);
         a_fn := <[c := class_counts cls_pred cls_target c (λ p t, negb p && t)]> (a_fn acc);
         a_tn := <[c := class_counts cls_pred cls_target c (λ p t, negb p && negb t)]>
                   (a_tn acc) |}.
Proof.
  intros Hl. unfold cls_loop_body, broadcast.
  rewrite !broadcast_with_same by (by rewrite !length_map).
  by rewrite !bind_ret.
Qed.

Lemma cls_loop_arrays (cls_pred : list nat) (cls_target : list Z) (l : list nat)
    (acc : ClsArrays) :
  let step acc c :=
    {| a_tp := <[c := class_counts cls_pred cls_target c (λ p t, p && t)]> (a_tp acc);
       a_fp := <[c := class_counts cls_pred cls_target c (λ p t, p && negb t)]> (a_fp acc);
       a_fn := <[c := class_counts cls_pred cls_target c (λ p t, negb p && t)]> (a_fn acc);
       a_tn := <[c := class_counts cls_pred cls_target c (λ p t, negb p && negb t)]>
                 (a_tn acc) |} in
  foldl step acc l =
  {| a_tp := foldl (λ a c, <[c := class_counts cls_pred cls_target c (λ p t, p && t)]> a)
                   (a_tp acc) l;
     a_fp := foldl (λ a c, <[c := class_counts cls_pred cls_target c (λ p t, p && negb t)]> a)
                   (a_fp acc) l;
     a_fn := foldl (λ a c, <[c := class_counts cls_pred cls_target c (λ p t, negb p && t)]> a)
                   (a_fn acc) l;
     a_tn := foldl (λ a c, <[c := class_counts cls_pred cls_target c
                                   (λ p t, negb p && negb t)]> a)
                   (a_tn acc) l |}.
Proof.
  intros step. revert acc. induction l as [|c l IH]; intros acc; cbn [foldl].
  - by destruct acc.
  - by rewrite IH.
Qed.

(** The loop over the classes fills each array with the counts of its class. *)
Lemma cls_loop_result (cls_pred : list nat) (cls_target : list Z) (n : nat) :
  length cls_pred = length cls_target →
  foldP (cls_loop_body cls_pred cls_target) (seq 0 n) (cls_zeros n) =
  Ret {| a_tp := map (λ c, class_counts cls_pred cls_target c (λ p t, p && t)) (seq 0 n);
         a_fp := map (λ c, class_counts cls_pred cls_target c (λ p t, p && negb t)) (seq 0 n);
         a_fn := map (λ c, class_counts cls_pred cls_target c (λ p t, negb p && t)) (seq 0 n);
         a_tn := map (λ c, class_counts cls_pred cls_target c (λ p t, negb p && negb t))
                     (seq 0 n) |}.
Proof.
  intros Hl.
  rewrite (foldP_ret _ _ _ _ (λ acc c, cls_loop_body_same cls_pred cls_target acc c Hl)).
  rewrite cls_loop_arrays. unfold cls_zeros. cbn [a_tp a_fp a_fn a_tn].
  by rewrite !foldl_insert_seq.
Qed.

Lemma N_sum_app (l k : list N) : N_sum (l ++ k) = (N_sum l + N_sum k)%N.
Proof. induction l as [|x l IH]; simpl; [done|]. rewrite IH. lia. Qed.

(** Every sample falls in exactly one of the four cells. *)
Lemma class_counts_total (cls_pred : list nat) (cls_target : list Z) (c : nat) :
  length cls_pred = length cls_target →
  (class_counts cls_pred cls_target c (λ p t, p && t)
   + class_counts cls_pred cls_target c (λ p t, p && negb t)
   + class_counts cls_pred cls_target c (λ p t, negb p && t)
   + class_counts cls_pred cls_target c (λ p t, negb p && negb t))%N
  = N.of_nat (length cls_target).
Proof.
  unfold class_counts, count_true. revert cls_target.
  induction cls_pred as [|p ps IH]; intros [|t ts] Hl; simplify_eq/=; [done|].
  specialize (IH ts Hl).
  destruct (p =? c)%nat, (t =? Z.of_nat c)%Z; simpl; lia.
Qed.

(** Summed over the classes, the true positives are the correct predictions. *)
Lemma class_counts_correct (cls_pred : list nat) (cls_target : list Z) (n : nat) :
  length cls_pred = length cls_target →
  Forall (λ p, (p < n)%nat) cls_pred →
  N_sum (map (λ c, class_counts cls_pred cls_target c (λ p t, p && t)) (seq 0 n)) =
  count_true (zip_with (λ p t, (Z.of_nat p =? t)%Z) cls_pred cls_target).
Proof.
  unfold class_counts, count_true. revert cls_target.
  induction cls_pred as [|p ps IH]; intros [|t ts] Hl Hall; simplify_eq/=.
  - induction (seq 0 n); simpl; [done|lia].
  - inversion Hall as [|? ? Hp Hps]; subst. rewrite <-(IH ts Hl Hps).
    assert (Hone : ∀ l, NoDup l →
      N_sum (map (λ c, ((if (p =? c)%nat && (t =? Z.of_nat c)%Z then 1 else 0)
                + N_sum (map (λ b : bool, if b then 1 else 0)
                     (zip_with (λ p t, p && t) (map (λ p, (p =? c)%nat) ps)
                        (map (λ t, (t =? Z.of_nat c)%Z) ts))))%N) l) =
      ((if bool_decide (p ∈ l) && (Z.of_nat p =? t)%Z then 1 else 0)
       + N_sum (map (λ c, N_sum (map (λ b : bool, if b then 1 else 0)
                     (zip_with (λ p t, p && t) (map (λ p, (p =? c)%nat) ps)
                        (map (λ t, (t =? Z.of_nat c)%Z) ts)))) l))%N).
    { induction l as [|c l IHl]; intros Hnd.
      { rewrite bool_decide_eq_false_2 by apply not_elem_of_nil. done. }
      cbn [map N_sum foldr].
      inversion Hnd as [|? ? Hc Hnd']; subst.
      change (foldr N.add 0%N ?x) with (N_sum x). rewrite (IHl Hnd').
      destruct (decide (p = c)) as [->|Hne].
      - rewrite Nat.eqb_refl.
        rewrite (bool_decide_eq_true_2 (c ∈ c :: l)) by (apply elem_of_cons; by left).
        rewrite (bool_decide_eq_false_2 (c ∈ l)) by done. cbn [andb].
        rewrite (Z.eqb_sym t). destruct (Z.of_nat c =? t)%Z; lia.
      - rewrite (proj2 (Nat.eqb_neq p c)) by done. cbn [andb].
        rewrite (bool_decide_ext (p ∈ c :: l) (p ∈ l)); [lia|].
        rewrite elem_of_cons. tauto. }
    rewrite (Hone _ (NoDup_seq 0 n)).
    rewrite bool_decide_eq_true_2 by (apply elem_of_seq; lia). simpl.
    destruct (Z.of_nat p =? t)%Z; lia.
Qed.

Section ClsCounts.
Context {Tensor Params : Type} {torch : Torch Tensor Params}.
(** With one target per sample and at least one class, the classification
    block returns, and its arrays hold the per-class counts. *)
Lemma classification_metrics_counts (t : Tensor) (target_cls : list Z) :
  length (rows (logits t)) = length target_cls →
  (0 < n_classes (logits t))%nat →
  let n := n_classes (logits t) in
  let cls_pred := map (argmax_row n) (rows (logits t)) in
  classification_metrics (Some (VTensor t)) target_cls =
  Ret [ ("cls_tp", PArr1 (map (λ c, class_counts cls_pred target_cls c (λ p t, p && t))
                             (seq 0 n)));
        ("cls_fp", PArr1 (map (λ c, class_counts cls_pred target_cls c
                                      (λ p t, p && negb t)) (seq 0 n)));
        ("cls_fn", PArr1 (map (λ c, class_counts cls_pred target_cls c
                                      (λ p t, negb p && t)) (seq 0 n)));
        ("cls_tn", PArr1 (map (λ c, class_counts cls_pred target_cls c
                                      (λ p t, negb p && negb t)) (seq 0 n)));
        ("cls_correct",
         PArr0I (count_true (zip_with (λ p t, (Z.of_nat p =? t)%Z) cls_pred target_cls)));
        ("cls_total", PInt (N.of_nat (length target_cls))) ].
Proof.
  intros Hl Hn n cls_pred. unfold classification_metrics, torch_argmax_dim1.
  rewrite (proj2 (Nat.eqb_neq _ 0)) by lia. rewrite bind_ret.
  fold n cls_pred.
  assert (Hlen : length cls_pred = length target_cls).
  { unfold cls_pred. by rewrite length_map. }
  rewrite cls_loop_result, bind_ret by done.
  unfold broadcast. by rewrite broadcast_with_same, bind_ret by done.
Qed.
End ClsCounts.

(** C9.  Let the network output split into a classification prediction [t]
    with at least one class and one row of scores per classification target
    of the batch.  The classification block of the validation step then
    returns the arrays cls_tp, cls_fp, cls_fn, cls_tn, one entry per class,
    with cls_total the number of samples; for every class the four counts add
    up to the number of samples, the true positives summed over the classes
    are cls_correct, and a result of the validation step holds exactly these
    entries after the losses and the segmentation counts. *)
Theorem validation_cls_counts {Tensor Params} {torch : Torch Tensor Params}
    (self : Trainer Params) (batch : Batch Tensor) (seg : NetOutput Tensor) (t : Tensor) :
  split_output (network (params self) (data batch)) = Ret (seg, Some (VTensor t)) →
  length (rows (logits t)) = length (class_target batch) →
  (0 < n_classes (logits t))%nat →
  let samples := N.of_nat (length (class_target batch)) in
  ∃ tp fp fn tn correct,
    let cm := [ ("cls_tp", PArr1 tp); ("cls_fp", PArr1 fp); ("cls_fn", PArr1 fn);
                ("cls_tn", PArr1 tn); ("cls_correct", PArr0I correct);
                ("cls_total", PInt samples) ] in
    classification_metrics (Some (VTensor t)) (class_target batch) = Ret cm ∧
    length tp = n_classes (logits t) ∧ length fp = n_classes (logits t) ∧
    length fn = n_classes (logits t) ∧ length tn = n_classes (logits t) ∧
    (∀ c a b x y,
       tp !! c = Some a → fp !! c = Some b → fn !! c = Some x → tn !! c = Some y →
       (a + b + x + y)%N = samples) ∧
    N_sum tp = correct ∧
    (∀ r, result_of (validation_step self batch) = inr r →
          ∃ head, length head = 6%nat ∧ r = head ++ cm).
Proof.
  intros Hsplit Hrows Hn samples.
  pose proof (classification_metrics_counts t (class_target batch) Hrows Hn) as Hcm.
  cbv zeta in Hcm.
  set (n := n_classes (logits t)) in *.
  set (cls_pred := map (argmax_row n) (rows (logits t))) in *.
  assert (Hlen : length cls_pred = length (class_target batch)).
  { unfold cls_pred. by rewrite length_map. }
  eexists _, _, _, _, _. split; [exact Hcm|].
  rewrite !length_map, !length_seq.
  split; [done|]. split; [done|]. split; [done|]. split; [done|]. split; [|split].
  - intros c a b x y. rewrite !list_lookup_fmap.
    destruct (seq 0 n !! c) as [c'|] eqn:Hc; [|done]. simpl.
    intros [= <-] [= <-] [= <-] [= <-]. by apply class_counts_total.
  - apply class_counts_correct; [done|].
    unfold cls_pred. apply Forall_forall. intros p Hp.
    apply list_elem_of_fmap in Hp as (row & -> & _). by apply argmax_row_lt.
  - intros r Hr.
    destruct (validation_step_after_split self batch _ _ r Hsplit Hr)
      as (tp & fp & fn & cm & _ & Hcm' & ->).
    unfold result_of in Hcm'. rewrite Hcm in Hcm'. injection Hcm' as <-.
    eexists. split; [|reflexivity]. done.
Qed.

Lemma validation_cls_counts_witness :
  let T := sample_torch sample_losses sample_counts sample_scores in
  let self := sample_trainer (λ _, two_heads) false in
  ∃ tp fp fn tn correct,
    classification_metrics (Some (VTensor 2%nat)) (class_target sample_batch) =
      Ret [ ("cls_tp", PArr1 tp); ("cls_fp", PArr1 fp); ("cls_fn", PArr1 fn);
            ("cls_tn", PArr1 tn); ("cls_correct", PArr0I correct);
            ("cls_total", PInt 3) ] ∧
    N_sum tp = correct.
Proof.
  intros T self.
  destruct (validation_cls_counts self sample_batch (OVal (VTensor 1%nat)) 2%nat)
    as (tp & fp & fn & tn & correct & Hcm & _ & _ & _ & _ & _ & Hsum & _).
  - reflexivity.
  - reflexivity.
  - simpl. lia.
  - by exists tp, fp, fn, tn, correct.
Defined.

(** ** Collating well-shaped step results *)

Lemma mapP_ret {A B} (f : A → Prog B) (g : A → B) (l : list A) :
  (∀ a, a ∈ l → f a = Ret (g a)) → mapP f l = Ret (map g l).
Proof.
  induction l as [|a l IH]; intros Hf; simpl; [done|].
  rewrite Hf, bind_ret by (apply elem_of_cons; by left).
  rewrite IH, bind_ret; [done|]. intros b Hb. apply Hf, elem_of_cons. by right.
Qed.

Lemma mapP_map {A B C} (f : B → Prog C) (g : A → B) (l : list A) :
  mapP f (map g l) = mapP (λ a, f (g a)) l.
Proof. induction l as [|a l IH]; simpl; [done|]. by rewrite IH. Qed.

Lemma same_length_rows (rs : list row) (n : nat) :
  Forall (λ r, row_length r = n) rs → same_length rs = true.
Proof.
  intros Hall. destruct rs as [|r rs]; [done|]. simpl.
  apply Forall_cons in Hall as [Hr Hrs]. apply forallb_forall.
  intros r' Hr'. apply Nat.eqb_eq. rewrite Forall_forall in Hrs.
  rewrite Hr. apply Hrs. by apply list_elem_of_In.
Qed.

Lemma np_vstack_ints (m : list (list N)) (n : nat) :
  m ≠ [] → Forall (λ r, length r = n) m → np_vstack (map RowI m) = Ret (CMatI m).
Proof.
  intros Hne Hall. unfold np_vstack.
  destruct (map RowI m) eqn:Hm; [by destruct m|]. rewrite <-Hm.
  rewrite (same_length_rows _ n) by (by apply Forall_fmap).
  assert (Hints : mapM row_ints (map RowI m) = Some m).
  { apply mapM_Some. clear. induction m; by constructor. }
  by rewrite Hints.
Qed.

Lemma np_vstack_floats (m : list (list Qc)) (n : nat) :
  m ≠ [] → Forall (λ r, length r = n) m → np_vstack (map RowF m) = Ret (CMatF m).
Proof.
  intros Hne Hall. unfold np_vstack.
  destruct (map RowF m) eqn:Hm; [by destruct m|]. rewrite <-Hm.
  rewrite (same_length_rows _ n) by (by apply Forall_fmap).
  assert (Hints : mapM row_ints (map RowF m) = None).
  { clear -Hne. by destruct m. }
  rewrite Hints. do 2 f_equal. clear. induction m as [|x m IH]; simpl; by f_equal.
Qed.

Lemma collate_key_values (vs : list StepView) (k : string) (g : StepView → pyobj)
    (v0 : pyobj) :
  (∀ v, v ∈ vs → dict_get (step_dict v) k = Some (g v)) →
  collate_key (map step_dict vs) k v0 =
  match v0 with
  | PFloat _ | PInt _ => Ret (CList (map g vs))
  | PArr0F _ | PArr0I _ | PArr1 _ => rs ← mapP add_axis (map g vs); np_vstack rs
  end.
Proof.
  intros Hget. unfold collate_key. rewrite mapP_map.
  rewrite (mapP_ret _ g); [by rewrite bind_ret|].
  intros v Hv. by rewrite Hget.
Qed.

Lemma collate_key_counts (vs : list StepView) (k : string) (f : StepView → list N)
    (x : list N) (n : nat) :
  vs ≠ [] →
  (∀ v, v ∈ vs → dict_get (step_dict v) k = Some (PArr1 (f v))) →
  Forall (λ v, length (f v) = n) vs →
  collate_key (map step_dict vs) k (PArr1 x) = Ret (CMatI (map f vs)).
Proof.
  intros Hne Hget Hlen. rewrite (collate_key_values vs k (λ v, PArr1 (f v))) by done.
  rewrite mapP_map, (mapP_ret _ (λ v, RowI (f v))), bind_ret by done.
  rewrite (list_fmap_compose f RowI). apply (np_vstack_ints _ n).
  - by destruct vs.
  - by apply Forall_fmap.
Qed.

Lemma collate_key_count (vs : list StepView) (k : string) (f : StepView → N) (x : N) :
  vs ≠ [] →
  (∀ v, v ∈ vs → dict_get (step_dict v) k = Some (PArr0I (f v))) →
  collate_key (map step_dict vs) k (PArr0I x) = Ret (CMatI (map (λ v, [f v]) vs)).
Proof.
  intros Hne Hget. rewrite (collate_key_values vs k (λ v, PArr0I (f v))) by done.
  rewrite mapP_map, (mapP_ret _ (λ v, RowI [f v])), bind_ret by done.
  rewrite (list_fmap_compose (λ v, [f v]) RowI). apply (np_vstack_ints _ 1).
  - by destruct vs.
  - apply Forall_fmap, Forall_forall. by intros.
Qed.

Lemma collate_key_loss (vs : list StepView) (k : string) (f : StepView → lval)
    (v0 : StepView) (b : bool) :
  vs ≠ [] →
  (∀ v, v ∈ vs → dict_get (step_dict v) k = Some (lval_obj (f v))) →
  Forall (λ v, is_tensor (f v) = b) vs →
  is_tensor (f v0) = b →
  collate_key (map step_dict vs) k (lval_obj (f v0)) = Ret (loss_column b f vs).
Proof.
  intros Hne Hget Hkind Hv0.
  rewrite (collate_key_values vs k (λ v, lval_obj (f v))) by done.
  rewrite Forall_forall in Hkind.
  destruct (f v0) as [q0|q0]; simpl in Hv0; subst b; simpl.
  - rewrite mapP_map, (mapP_ret _ (λ v, RowF [lval_num (f v)])), bind_ret.
    + rewrite (list_fmap_compose (λ v, [lval_num (f v)]) RowF).
      apply (np_vstack_floats _ 1); [by destruct vs|].
      apply Forall_fmap, Forall_forall. by intros.
    + intros v Hv. specialize (Hkind v Hv). by destruct (f v).
  - do 2 f_equal. apply list_fmap_ext. intros i v Hv.
    apply list_elem_of_lookup_2 in Hv. specialize (Hkind v Hv). by destruct (f v).
Qed.

Lemma has_shape_cls (sh : Shape) (v : StepView) (k : nat) :
  has_shape sh v → n_cls sh = Some k →
  ∃ c, v_cls v = Some c ∧
       length (v_cls_tp c) = k ∧ length (v_cls_fp c) = k ∧
       length (v_cls_fn c) = k ∧ length (v_cls_tn c) = k.
Proof.
  intros (_ & _ & _ & _ & _ & _ & Hc) Hk. rewrite Hk in Hc.
  destruct (v_cls v) as [c|]; [|done]. by exists c.
Qed.

Lemma has_shape_no_cls (sh : Shape) (v : StepView) :
  has_shape sh v → n_cls sh = None → v_cls v = None.
Proof.
  intros (_ & _ & _ & _ & _ & _ & Hc) Hk. rewrite Hk in Hc.
  by destruct (v_cls v).
Qed.

(** The collated form of well-shaped per-step results. *)
Lemma collate_outputs_views (sh : Shape) (vs : list StepView) :
  vs ≠ [] → Forall (has_shape sh) vs →
  collate_outputs (map step_dict vs) = Ret (collated_of sh vs).
Proof.
  intros Hne Hall. destruct vs as [|v0 vs']; [done|].
  set (vs := v0 :: vs') in *. unfold collate_outputs.
  change (map step_dict vs) with (step_dict v0 :: map step_dict vs') at 1.
  cbv iota. change (step_dict v0 :: map step_dict vs') with (map step_dict vs).
  pose proof Hall as Hall'. rewrite Forall_forall in Hall'.
  assert (Hv0 : has_shape sh v0) by (apply Hall'; apply elem_of_cons; by left).
  destruct Hv0 as (_ & _ & _ & Hk1 & Hk2 & Hk3 & _).
  assert (Hl1 := collate_key_loss vs "loss" v_loss v0 _ Hne (λ _ _, eq_refl)
    (Forall_impl _ _ _ Hall (λ v Hv, proj1 (proj2 (proj2 (proj2 Hv))))) Hk1).
  assert (Hl2 := collate_key_loss vs "seg_loss" v_seg_loss v0 _ Hne (λ _ _, eq_refl)
    (Forall_impl _ _ _ Hall (λ v Hv, proj1 (proj2 (proj2 (proj2 (proj2 Hv)))))) Hk2).
  assert (Hl3 := collate_key_loss vs "cls_loss" v_cls_loss v0 _ Hne (λ _ _, eq_refl)
    (Forall_impl _ _ _ Hall (λ v Hv, proj1 (proj2 (proj2 (proj2 (proj2 (proj2 Hv))))))) Hk3).
  assert (Ht1 := collate_key_counts vs "tp_hard" v_tp (v_tp v0) _ Hne (λ _ _, eq_refl)
    (Forall_impl _ _ _ Hall (λ v Hv, proj1 Hv))).
  assert (Ht2 := collate_key_counts vs "fp_hard" v_fp (v_fp v0) _ Hne (λ _ _, eq_refl)
    (Forall_impl _ _ _ Hall (λ v Hv, proj1 (proj2 Hv)))).
  assert (Ht3 := collate_key_counts vs "fn_hard" v_fn (v_fn v0) _ Hne (λ _ _, eq_refl)
    (Forall_impl _ _ _ Hall (λ v Hv, proj1 (proj2 (proj2 Hv))))).
  set (outs := map step_dict vs) in *. unfold step_dict. cbn [app mapP].
  rewrite Hl1, bind_ret, Hl2, !bind_ret, Hl3, !bind_ret, Ht1, !bind_ret, Ht2, !bind_ret,
    Ht3, !bind_ret.
  unfold collated_of. destruct (n_cls sh) as [k|] eqn:Hk.
  - assert (Hcls : ∀ v, v ∈ vs → ∃ c, v_cls v = Some c ∧
       length (v_cls_tp c) = k ∧ length (v_cls_fp c) = k ∧
       length (v_cls_fn c) = k ∧ length (v_cls_tn c) = k).
    { intros v Hv. apply (has_shape_cls sh); [by apply Hall'|done]. }
    destruct (Hcls v0) as (c0 & Hc0 & _); [apply elem_of_cons; by left|].
    rewrite Hc0. cbn [from_option cls_dict mapP]. subst outs.
    rewrite (collate_key_counts vs "cls_tp" sv_cls_tp _ k Hne), !bind_ret.
    rewrite (collate_key_counts vs "cls_fp" sv_cls_fp _ k Hne), !bind_ret.
    rewrite (collate_key_counts vs "cls_fn" sv_cls_fn _ k Hne), !bind_ret.
    rewrite (collate_key_counts vs "cls_tn" sv_cls_tn _ k Hne), !bind_ret.
    rewrite (collate_key_count vs "cls_correct" sv_cls_correct _ Hne), !bind_ret.
    rewrite (collate_key_values vs "cls_total" (λ v, PInt (sv_cls_total v))), !bind_ret.
    + done.
    + intros v Hv. destruct (Hcls v Hv) as (c & Hc & _).
      unfold step_dict, sv_cls_total. by rewrite Hc.
    + intros v Hv. destruct (Hcls v Hv) as (c & Hc & _).
      unfold step_dict, sv_cls_correct. by rewrite Hc.
    + intros v Hv. destruct (Hcls v Hv) as (c & Hc & _).
      unfold step_dict, sv_cls_tn. by rewrite Hc.
    + apply Forall_forall. intros v Hv. destruct (Hcls v Hv) as (c & Hc & ? & ? & ? & ?).
      unfold sv_cls_tn. by rewrite Hc.
    + intros v Hv. destruct (Hcls v Hv) as (c & Hc & _).
      unfold step_dict, sv_cls_fn. by rewrite Hc.
    + apply Forall_forall. intros v Hv. destruct (Hcls v Hv) as (c & Hc & ? & ? & ? & ?).
      unfold sv_cls_fn. by rewrite Hc.
    + intros v Hv. destruct (Hcls v Hv) as (c & Hc & _).
      unfold step_dict, sv_cls_fp. by rewrite Hc.
    + apply Forall_forall. intros v Hv. destruct (Hcls v Hv) as (c & Hc & ? & ? & ? & ?).
      unfold sv_cls_fp. by rewrite Hc.
    + intros v Hv. destruct (Hcls v Hv) as (c & Hc & _).
      unfold step_dict, sv_cls_tp. by rewrite Hc.
    + apply Forall_forall. intros v Hv. destruct (Hcls v Hv) as (c & Hc & ? & ? & ? & ?).
      unfold sv_cls_tp. by rewrite Hc.
  - rewrite (has_shape_no_cls sh v0); [done| |done].
    apply Hall'. apply elem_of_cons. by left.
Qed.

(** ** The reduction in a single process *)

Lemma concat_singletons {A B} (f : A → B) (l : list A) :
  concat (map (λ a, [f a]) l) = map f l.
Proof. induction l as [|a l IH]; simpl; by f_equal. Qed.

Lemma np_mean_loss_column (b : bool) (f : StepView → lval) (vs : list StepView) :
  np_mean_coll (loss_column b f vs) = Ret (loss_mean f vs).
Proof.
  unfold np_mean_coll, loss_column, loss_mean. destruct b; simpl.
  - by rewrite concat_singletons.
  - rewrite mapP_map, (mapP_ret _ (λ v, lval_num (f v))); done.
Qed.

Lemma length_zip_with_same {A B C} (f : A → B → C) (a : list A) (b : list B) (n : nat) :
  length a = n → length b = n → length (zip_with f a b) = n.
Proof. intros Ha Hb. rewrite length_zip_with. lia. Qed.

Lemma length_col_sums (m : list (list N)) (k : nat) :
  m ≠ [] → Forall (λ r, length r = k) m → length (col_sums m) = k.
Proof.
  intros Hne Hall. destruct m as [|r rs]; [done|]. clear Hne. simpl.
  apply Forall_cons in Hall as [Hr Hrs]. revert r Hr.
  induction Hrs as [|r' rs Hr' Hrs IH]; intros r Hr; simpl; [done|].
  apply IH. by apply length_zip_with_same.
Qed.

Lemma length_col_sums_views (sh : Shape) (vs : list StepView) (f : StepView → list N)
    (k : nat) :
  vs ≠ [] → (∀ v, v ∈ vs → length (f v) = k) → length (col_sums (map f vs)) = k.
Proof.
  intros Hne Hf. apply length_col_sums; [by destruct vs|].
  apply Forall_fmap, Forall_forall. intros v Hv. by apply Hf.
Qed.

Lemma np_sum_all_counts (f : StepView → N) (vs : list StepView) :
  np_sum_all (CMatI (map (λ v, [f v]) vs)) = Ret (N_sum (map f vs)).
Proof. simpl. by rewrite concat_singletons. Qed.

Lemma np_sum_all_ints (f : StepView → N) (vs : list StepView) :
  np_sum_all (CList (map (λ v, PInt (f v)) vs)) = Ret (N_sum (map f vs)).
Proof. simpl. by rewrite mapP_map, (mapP_ret _ f). Qed.

Lemma np_divide_where_same (a d : list N) :
  length d = length a → np_divide_where a d = Ret (zip_with guarded_ratio a d).
Proof. intros Hl. unfold np_divide_where. by rewrite Hl, Nat.eqb_refl. Qed.

(** The metrics computed from aggregated classification counts of one length. *)
Lemma classification_metrics_part (tp fp fn : list N) (correct total : N) (k : nat) :
  length tp = k → length fp = k → length fn = k →
  (cls_precision ← (d ← np_add tp fp; np_divide_where tp d);
   cls_recall ← (d ← np_add tp fn; np_divide_where tp d);
   let cls_f1 := zip_with f1_score cls_precision cls_recall in
   Ret [ ("cls_accuracy",
          SFloat (Num (if (0 <? total)%N then Qc_of_N correct / Qc_of_N total else 0)));
         ("cls_precision_per_class", SArr cls_precision);
         ("cls_recall_per_class", SArr cls_recall);
         ("cls_f1_per_class", SArr cls_f1);
         ("cls_macro_precision", SFloat (np_nanmean (map Num cls_precision)));
         ("cls_macro_recall", SFloat (np_nanmean (map Num cls_recall)));
         ("cls_macro_f1", SFloat (np_nanmean (map Num cls_f1))) ])
  = Ret (cls_part tp fp fn correct total).
Proof.
  intros Htp Hfp Hfn. unfold np_add.
  rewrite !broadcast_with_same by congruence. rewrite !bind_ret.
  rewrite !np_divide_where_same by (rewrite length_zip_with; lia).
  by rewrite !bind_ret.
Qed.

Section CollatedLookups.
Context (sh : Shape) (vs : list StepView).

Lemma get_loss : coll_getitem (collated_of sh vs) "loss"
                 = Ret (loss_column (loss_is_tensor sh) v_loss vs).
Proof. reflexivity. Qed.
Lemma get_seg_loss : coll_getitem (collated_of sh vs) "seg_loss"
                     = Ret (loss_column (seg_loss_is_tensor sh) v_seg_loss vs).
Proof. reflexivity. Qed.
Lemma get_cls_loss : coll_getitem (collated_of sh vs) "cls_loss"
                     = Ret (loss_column (cls_loss_is_tensor sh) v_cls_loss vs).
Proof. reflexivity. Qed.
Lemma get_tp_hard : coll_getitem (collated_of sh vs) "tp_hard" = Ret (CMatI (map v_tp vs)).
Proof. reflexivity. Qed.
Lemma get_fp_hard : coll_getitem (collated_of sh vs) "fp_hard" = Ret (CMatI (map v_fp vs)).
Proof. reflexivity. Qed.
Lemma get_fn_hard : coll_getitem (collated_of sh vs) "fn_hard" = Ret (CMatI (map v_fn vs)).
Proof. reflexivity. Qed.

Lemma get_no_cls : n_cls sh = None → dict_get (collated_of sh vs) "cls_tp" = None.
Proof. intros Hk. unfold collated_of. by rewrite Hk. Qed.

Context (k : nat) (Hk : n_cls sh = Some k).

Lemma get_cls_tp : dict_get (collated_of sh vs) "cls_tp" = Some (CMatI (map sv_cls_tp vs)).
Proof. unfold collated_of. by rewrite Hk. Qed.
Lemma get_cls_fp : coll_getitem (collated_of sh vs) "cls_fp"
                   = Ret (CMatI (map sv_cls_fp vs)).
Proof. unfold collated_of. by rewrite Hk. Qed.
Lemma get_cls_fn : coll_getitem (collated_of sh vs) "cls_fn"
                   = Ret (CMatI (map sv_cls_fn vs)).
Proof. unfold collated_of. by rewrite Hk. Qed.
Lemma get_cls_tn : coll_getitem (collated_of sh vs) "cls_tn"
                   = Ret (CMatI (map sv_cls_tn vs)).
Proof. unfold collated_of. by rewrite Hk. Qed.
Lemma get_cls_correct : coll_getitem (collated_of sh vs) "cls_correct"
                        = Ret (CMatI (map (λ v, [sv_cls_correct v]) vs)).
Proof. unfold collated_of. by rewrite Hk. Qed.
Lemma get_cls_total : coll_getitem (collated_of sh vs) "cls_total"
                      = Ret (CList (map (λ v, PInt (sv_cls_total v)) vs)).
Proof. unfold collated_of. by rewrite Hk. Qed.
End CollatedLookups.

Lemma has_shape_cls_lengths (sh : Shape) (vs : list StepView) (k : nat) :
  vs ≠ [] → Forall (has_shape sh) vs → n_cls sh = Some k →
  length (col_sums (map sv_cls_tp vs)) = k ∧
  length (col_sums (map sv_cls_fp vs)) = k ∧
  length (col_sums (map sv_cls_fn vs)) = k.
Proof.
  intros Hne Hall Hk. rewrite Forall_forall in Hall.
  repeat split; apply (length_col_sums_views sh); try done; intros v Hv;
    destruct (has_shape_cls sh v k (Hall v Hv) Hk) as (c & Hc & ? & ? & ? & ?);
    unfold sv_cls_tp, sv_cls_fp, sv_cls_fn; by rewrite Hc.
Qed.

Section EpochEndLocal.
Context {Params : Type} (self : Trainer Params) (sh : Shape) (vs : list StepView).
Context (Hne : vs ≠ []) (Hall : Forall (has_shape sh) vs).
Context (Hddp : is_ddp self = false).

Lemma reduce_segmentation_local (tp fp fn : list N) :
  reduce_segmentation self (collated_of sh vs) tp fp fn =
  Ret {| r_tp := tp; r_fp := fp; r_fn := fn;
         r_total_loss := loss_mean v_loss vs;
         r_seg_loss := loss_mean v_seg_loss vs;
         r_cls_loss := loss_mean v_cls_loss vs |}.
Proof.
  unfold reduce_segmentation. rewrite Hddp.
  rewrite get_loss, get_seg_loss, get_cls_loss, !bind_ret.
  by rewrite !np_mean_loss_column, !bind_ret.
Qed.

Lemma classification_summary_local :
  classification_summary self (collated_of sh vs) =
  Ret match n_cls sh with
      | Some _ =>
          if (0 <? length (concat (map sv_cls_tp vs)))%nat then
            cls_part (col_sums (map sv_cls_tp vs)) (col_sums (map sv_cls_fp vs))
                     (col_sums (map sv_cls_fn vs))
                     (N_sum (map sv_cls_correct vs)) (N_sum (map sv_cls_total vs))
          else []
      | None => []
      end.
Proof.
  unfold classification_summary. destruct (n_cls sh) as [k|] eqn:Hk.
  - rewrite (get_cls_tp sh vs k Hk). cbn [coll_size]. rewrite bind_ret.
    destruct (0 <? length (concat (map sv_cls_tp vs)))%nat; [|done].
    rewrite (get_cls_fp sh vs k Hk), (get_cls_fn sh vs k Hk), (get_cls_tn sh vs k Hk),
      (get_cls_correct sh vs k Hk), (get_cls_total sh vs k Hk).
    cbn [np_sum0].
    repeat first [rewrite bind_ret | rewrite np_sum_all_counts
                 | rewrite np_sum_all_ints | rewrite Hddp].
    destruct (has_shape_cls_lengths sh vs k Hne Hall Hk) as (Htp & Hfp & Hfn).
    by apply (classification_metrics_part _ _ _ _ _ k).
  - by rewrite get_no_cls.
Qed.
End EpochEndLocal.

Lemma log_metrics_returns {Params} (self : Trainer Params) (e : nat)
    (mean_fg_dice : fval) (dc : list fval) (tl sl cl : fval) (cm : pydict sval) :
  current_epoch self = Some e → cls_part_or_none cm →
  result_of (log_metrics self mean_fg_dice dc tl sl cl cm) = inr tt.
Proof.
  intros He [->|(tp & fp & fn & correct & total & ->)];
    unfold log_metrics; by rewrite He.
Qed.

Lemma print_summary_returns {Params} (self : Trainer Params) (e : nat)
    (mean_fg_dice : fval) (dc : list fval) (tl sl cl : fval) (cm : pydict sval) :
  current_epoch self = Some e → cls_part_or_none cm →
  result_of (print_summary self mean_fg_dice dc tl sl cl cm) = inr tt.
Proof.
  intros He [->|(tp & fp & fn & correct & total & ->)];
    unfold print_summary; rewrite He; by destruct dc as [|? [|? ?]].
Qed.

Lemma cls_part_or_none_summary (sh : Shape) (vs : list StepView) :
  cls_part_or_none
    match n_cls sh with
    | Some _ =>
        if (0 <? length (concat (map sv_cls_tp vs)))%nat then
          cls_part (col_sums (map sv_cls_tp vs)) (col_sums (map sv_cls_fp vs))
                   (col_sums (map sv_cls_fn vs))
                   (N_sum (map sv_cls_correct vs)) (N_sum (map sv_cls_total vs))
        else []
    | None => []
    end.
Proof.
  destruct (n_cls sh); [|by left].
  destruct (0 <? _)%nat; [|by left]. right. by eexists _, _, _, _, _.
Qed.

(** A single process, not distributed, on well-shaped per-step results:
    the reduction returns the epoch summary. *)
Lemma on_validation_epoch_end_local {Params} (self : Trainer Params) (sh : Shape)
    (vs : list StepView) (e : nat) :
  vs ≠ [] → Forall (has_shape sh) vs →
  is_ddp self = false → current_epoch self = Some e →
  result_of (on_validation_epoch_end self (map step_dict vs)) = inr (epoch_summary sh vs).
Proof.
  intros Hne Hall Hddp He. unfold on_validation_epoch_end.
  rewrite (collate_outputs_views sh) by done. rewrite bind_ret.
  rewrite result_of_bind. cbn [set_trace result_of run_local snd].
  rewrite get_tp_hard, get_fp_hard, get_fn_hard.
  repeat first [rewrite bind_ret | progress cbn [np_sum0]].
  rewrite reduce_segmentation_local by done. rewrite bind_ret.
  rewrite classification_summary_local by done. rewrite bind_ret.
  cbn [r_tp r_fp r_fn r_total_loss r_seg_loss r_cls_loss].
  rewrite result_of_bind, (log_metrics_returns self e)
    by (done || apply cls_part_or_none_summary).
  rewrite result_of_bind, (print_summary_returns self e)
    by (done || apply cls_part_or_none_summary).
  done.
Qed.

(** ** Dice *)

Lemma Qc_of_N_add (a b : N) : Qc_of_N (a + b) = Qc_of_N a + Qc_of_N b.
Proof. unfold Qc_of_N. by rewrite N2Z.inj_add, Z2Qc_inj_add. Qed.

Lemma Qc_of_N_mul (a b : N) : Qc_of_N (a * b) = Qc_of_N a * Qc_of_N b.
Proof. unfold Qc_of_N. by rewrite N2Z.inj_mul, Z2Qc_inj_mul. Qed.

Lemma Qc_of_N_zero (a : N) : Qc_of_N a = 0 ↔ a = 0%N.
Proof.
  unfold Qc_of_N. rewrite <-Z2Qc_inj_0, Z2Qc_inj_iff. lia.
Qed.

Lemma np_true_divide_dice (i j k : N) :
  np_true_divide (2 * i) (2 * i + j + k) = dice_formula i j k.
Proof.
  unfold np_true_divide, dice_formula.
  assert (Hden : Qc_of_Z 2 * Qc_of_N i + Qc_of_N j + Qc_of_N k
                 = Qc_of_N (2 * i + j + k)).
  { by rewrite !Qc_of_N_add, Qc_of_N_mul. }
  rewrite Hden. destruct (N.eqb_spec (2 * i + j + k) 0) as [Hz|Hnz].
  - rewrite bool_decide_eq_true_2 by (by apply Qc_of_N_zero).
    by rewrite (proj2 (N.eqb_eq (2 * i) 0)) by lia.
  - rewrite bool_decide_eq_false_2 by (by rewrite Qc_of_N_zero).
    by rewrite Qc_of_N_mul.
Qed.

Lemma dice_per_class_lookup (tp fp fn : list N) (c : nat) (i j k : N) :
  tp !! c = Some i → fp !! c = Some j → fn !! c = Some k →
  dice_per_class tp fp fn !! c = Some (dice_formula i j k).
Proof.
  unfold dice_per_class. revert fp fn c.
  induction tp as [|x tp IH]; intros [|y fp] [|z fn] [|c]; simpl; try done.
  - intros [= ->] [= ->] [= ->]. by rewrite np_true_divide_dice.
  - apply IH.
Qed.

Lemma length_dice_per_class (tp fp fn : list N) (n : nat) :
  length tp = n → length fp = n → length fn = n →
  length (dice_per_class tp fp fn) = n.
Proof.
  unfold dice_per_class. rewrite length_map. revert fp fn n.
  induction tp as [|x tp IH]; intros [|y fp] [|z fn] n; simpl; try (intros; congruence).
  intros <- [= Hfp] [= Hfn]. f_equal. by apply IH.
Qed.

Lemma dice_per_class_finite (tp fp fn : list N) :
  Forall (λ v, v ≠ Inf) (dice_per_class tp fp fn).
Proof.
  unfold dice_per_class. revert fp fn.
  induction tp as [|x tp IH]; intros [|y fp] [|z fn]; simpl; try by constructor.
  constructor; [|apply IH].
  rewrite np_true_divide_dice. unfold dice_formula. by case_bool_decide.
Qed.

Lemma fsum_numbers (l : list fval) :
  Forall (λ v, v ≠ Inf) l →
  fsum (filter (λ v, is_nan v = false) l) = Num (Qc_sum (numbers l)) ∧
  length (filter (λ v, is_nan v = false) l) = length (numbers l).
Proof.
  induction 1 as [|v l Hv Hl [IHs IHl]]; [done|].
  destruct v as [q| |]; [| |done].
  - rewrite filter_cons_True by done. simpl. rewrite IHs, IHl. done.
  - rewrite filter_cons_False by (simpl; congruence). done.
Qed.

(** On entries that are numbers or not-a-number, [np.nanmean] is the mean
    that ignores the not-a-number entries. *)
Lemma np_nanmean_spec (l : list fval) :
  Forall (λ v, v ≠ Inf) l → np_nanmean l = mean_ignoring_nan l.
Proof.
  intros Hl. destruct (fsum_numbers l Hl) as [Hs Hlen].
  unfold np_nanmean, mean_ignoring_nan.
  destruct (filter _ l) as [|v kept] eqn:Hk.
  - by destruct (numbers l).
  - destruct (numbers l) as [|q qs]; [done|].
    rewrite Hs, Hlen. done.
Qed.

Lemma has_shape_seg_lengths (sh : Shape) (vs : list StepView) :
  vs ≠ [] → Forall (has_shape sh) vs →
  length (col_sums (map v_tp vs)) = n_fg sh ∧
  length (col_sums (map v_fp vs)) = n_fg sh ∧
  length (col_sums (map v_fn vs)) = n_fg sh.
Proof.
  intros Hne Hall. rewrite Forall_forall in Hall.
  repeat split; apply (length_col_sums_views sh); try done; intros v Hv;
    by destruct (Hall v Hv) as (? & ? & ? & _).
Qed.

Lemma sample_steps_shape : Forall (has_shape (sample_shape None)) sample_steps.
Proof. repeat constructor. Qed.

(** ** Classification metrics *)

Lemma guarded_ratio_spec (x a b : N) :
  guarded_ratio x (a + b) = ratio_or_zero (Qc_of_N x) (Qc_of_N a + Qc_of_N b).
Proof.
  unfold guarded_ratio, ratio_or_zero. rewrite <-Qc_of_N_add.
  destruct (N.eqb_spec (a + b) 0) as [Hz|Hnz].
  - by rewrite bool_decide_eq_true_2 by (by apply Qc_of_N_zero).
  - by rewrite bool_decide_eq_false_2 by (by rewrite Qc_of_N_zero).
Qed.


Lemma accuracy_spec (correct total : N) :
  (if (0 <? total)%N then Qc_of_N correct / Qc_of_N total else 0)
  = ratio_or_zero (Qc_of_N correct) (Qc_of_N total).
Proof.
  unfold ratio_or_zero. destruct (N.ltb_spec 0 total) as [Hpos|Hz].
  - rewrite bool_decide_eq_false_2; [done|]. rewrite Qc_of_N_zero. lia.
  - rewrite bool_decide_eq_true_2; [done|]. apply Qc_of_N_zero. lia.
Qed.

Lemma numbers_Num (l : list Qc) : numbers (map Num l) = l.
Proof. induction l as [|q l IH]; simpl; [done|]. unfold numbers in *. simpl. by rewrite IH. Qed.

(** Over finite entries the macro average is the plain mean over the
    classes. *)
Lemma macro_average_spec (l : list Qc) :
  np_nanmean (map Num l) = mean_ignoring_nan (map Num l) ∧
  (l ≠ [] → np_nanmean (map Num l) = Num (Qc_sum l / Qc_of_Z (Z.of_nat (length l)))).
Proof.
  assert (Hfin : Forall (λ v, v ≠ Inf) (map Num l)).
  { apply Forall_fmap, Forall_forall. by intros. }
  split; [by apply np_nanmean_spec|]. intros Hne.
  rewrite np_nanmean_spec by done. unfold mean_ignoring_nan. rewrite numbers_Num.
  by destruct l.
Qed.

(** ** Lengths of the collated counts *)

Lemma length_concat_views (sh : Shape) (vs : list StepView) (f : StepView → list N)
    (k : nat) :
  (∀ v, v ∈ vs → length (f v) = k) →
  length (concat (map f vs)) = (length vs * k)%nat.
Proof.
  induction vs as [|v vs IH]; intros Hf; simpl; [done|].
  rewrite length_app, IH, Hf; [done|apply elem_of_cons; by left|].
  intros v' Hv'. apply Hf, elem_of_cons. by right.
Qed.

(** ** Processes in lockstep *)

Lemma run_with_bind {A B} (m : Prog A) (f : A → Prog B) (ans : list (list payload)) :
  run_with (m ≫= f) ans =
  match run_with m ans with
  | (c, Some (inr a), rem) =>
      ((c ++ (run_with (f a) rem).1.1), (run_with (f a) rem).1.2, (run_with (f a) rem).2)
  | (c, Some (inl e), rem) => (c, Some (inl e), rem)
  | (c, None, rem) => (c, None, rem)
  end.
Proof.
  unfold mbind, Prog_bind. revert ans.
  induction m as [a|e|k IH|name v k IH|ev k IH]; intros ans; simpl; try done.
  - by destruct (run_with (f a) ans) as [[c r] rem].
  - destruct ans as [|a rest]; [done|]. rewrite IH.
    by destruct (run_with (k a) rest) as [[c [[e|x]|]] rem].
Qed.

Lemma run_world_done {A} (p0 : Prog A) (ps : list (Prog A)) r0 rs :
  advance p0 = Done r0 →
  mapM (λ p, stop_done (advance p)) ps = Some rs →
  run_world p0 ps = Finished (r0 :: rs) [].
Proof.
  intros H0 Hps.
  induction p0 as [a|e|k IH|name v k IH|ev k IH]; simpl in *; simplify_eq; auto;
    by rewrite Hps.
Qed.

Lemma run_world_waiting {A} (p0 : Prog A) (ps : list (Prog A)) name v k others :
  advance p0 = Waiting name v k →
  mapM (λ p, stop_waiting (advance p)) ps = Some others →
  run_world p0 ps =
  match run_world (k (v :: map (λ o, o.1.2) others))
                  (map (λ o, o.2 (v :: map (λ o, o.1.2) others)) others) with
  | Finished rs rounds => Finished rs ((name :: map (λ o, o.1.1) others) :: rounds)
  | Hang => Hang
  end.
Proof.
  intros H0 Hps.
  induction p0 as [a|e|k' IH|name' v' k' IH|ev k' IH]; simpl in *; simplify_eq; auto.
  by rewrite Hps.
Qed.

Lemma run_with_nil {A} (p : Prog A) c r rem :
  run_with p [] = (c, Some r, rem) → advance p = Done r ∧ c = [].
Proof.
  induction p as [a|e|k IH|name v k IH|ev k IH]; simpl; intros Hrun;
    simplify_eq; auto.
Qed.

Lemma run_with_cons {A} (p : Prog A) a rest c r :
  run_with p (a :: rest) = (c, Some r, []) →
  ∃ name v k c', advance p = Waiting name v k ∧ c = (name, v) :: c' ∧
                 run_with (k a) rest = (c', Some r, []).
Proof.
  induction p as [x|e|k IH|name v k IH|ev k IH]; simpl; intros Hrun;
    simplify_eq; auto.
  destruct (run_with (k a) rest) as [[c' r'] rem'] eqn:Hk. simplify_eq.
  by exists name, v, k, c'.
Qed.

Lemma waiting_others {A} (a : list payload) (rest : list (list payload))
    (ps : list (Prog A)) (outs : list (list (string * payload) * (exn + A))) :
  Forall2 (λ p o, run_with p (a :: rest) = (o.1, Some o.2, [])) ps outs →
  ∃ others,
    mapM (λ p, stop_waiting (advance p)) ps = Some others ∧
    map (λ o, o.1.2) others
      = map (λ c, match c with (_, v) :: _ => v | [] => GNum 0 end) (map fst outs) ∧
    map (λ o, o.1.1) others
      = map (λ c, match c with (name, _) :: _ => name | [] => "" end) (map fst outs) ∧
    Forall2 (λ p o, run_with p rest = (o.1, Some o.2, []))
            (map (λ o, o.2 a) others) (map (λ o, (tail o.1, o.2)) outs).
Proof.
  induction 1 as [|p [c r] ps outs Hp Hps (others & Hm & Hv & Hn & Hk)].
  - by exists [].
  - destruct (run_with_cons p a rest c r Hp) as (name & v & k & c' & Hadv & -> & Hrun).
    exists ((name, v, k) :: others). repeat split.
    + cbn [mapM]. rewrite Hadv. cbn. rewrite Hm. done.
    + cbn. by rewrite Hv.
    + cbn. by rewrite Hn.
    + cbn. by constructor.
Qed.

(** When the answers are what the processes contribute and each process,
    run against them, finishes after using them all, the group finishes
    with these results after these rounds. *)
Lemma run_world_answers {A} (ans : list (list payload)) :
  ∀ (p0 : Prog A) (ps : list (Prog A)) (outs : list (list (string * payload) * (exn + A))),
    Forall2 (λ p o, run_with p ans = (o.1, Some o.2, [])) (p0 :: ps) outs →
    consistent ans (map fst outs) →
    run_world p0 ps = Finished (map snd outs) (rounds_of ans (map fst outs)).
Proof.
  induction ans as [|a rest IH]; intros p0 ps outs Hruns Hcons.
  - apply Forall2_cons_inv_l in Hruns as ([c0 r0] & outs' & H0 & Hps & ->).
    apply run_with_nil in H0 as [H0 _]. cbn.
    apply run_world_done; [done|]. apply mapM_Some.
    apply Forall2_fmap_r. eapply Forall2_impl; [exact Hps|].
    intros p [c r] Hp. apply run_with_nil in Hp as [Hp _]. cbn. by rewrite Hp.
  - apply Forall2_cons_inv_l in Hruns as ([c0 r0] & outs' & H0 & Hps & ->).
    destruct (run_with_cons p0 a rest c0 r0 H0)
      as (name & v & k & c0' & Hadv & -> & Hrun).
    destruct (waiting_others a rest ps outs' Hps) as (others & Hm & Hv & Hn & Hk).
    destruct Hcons as [Ha Hcons]. cbn in Ha.
    rewrite (run_world_waiting p0 ps name v k others Hadv Hm).
    rewrite Hv, <-Ha.
    rewrite (IH (k a) (map (λ o, o.2 a) others)
                ((c0', r0) :: map (λ o, (tail o.1, o.2)) outs')).
    + cbn. rewrite Hn. f_equal.
      * f_equal. rewrite <-list_fmap_compose. by apply list_fmap_ext.
      * f_equal. f_equal. f_equal. rewrite <-!list_fmap_compose. by apply list_fmap_ext.
    + by constructor.
    + cbn in Hcons. cbn. rewrite <-!list_fmap_compose in *. exact Hcons.
Qed.

(** ** The reduction across workers *)

Lemma run_with_gather {A} (name : string) (v : payload) (f : list payload → Prog A)
    (a : list payload) (rest : list (list payload)) :
  run_with (all_gather_object name v ≫= f) (a :: rest) =
  (((name, v) :: (run_with (f a) rest).1.1), (run_with (f a) rest).1.2,
   (run_with (f a) rest).2).
Proof.
  unfold all_gather_object, mbind, Prog_bind. simpl.
  by destruct (run_with (f a) rest) as [[c r] rem].
Qed.

Lemma vstack_sum0_world (g : list StepView → list N) (vss : list (list StepView))
    (n : nat) :
  vss ≠ [] → Forall (λ vs, length (g vs) = n) vss →
  vstack_sum0 (map (λ vs, GVec (g vs)) vss) = Ret (col_sums (map g vss)).
Proof.
  intros Hne Hlen. unfold vstack_sum0.
  rewrite mapP_map, (mapP_ret _ (λ vs, RowI (g vs))), bind_ret by done.
  rewrite (list_fmap_compose g RowI).
  rewrite (np_vstack_ints _ n), bind_ret; [done|by destruct vss|by apply Forall_fmap].
Qed.

Lemma sum_gathered_world (g : list StepView → N) (vss : list (list StepView)) :
  sum_gathered (map (λ vs, GNum (g vs)) vss) = Ret (N_sum (map g vss)).
Proof.
  unfold sum_gathered. by rewrite mapP_map, (mapP_ret _ g), bind_ret.
Qed.

Lemma coll_rows_loss_column (b : bool) (f : StepView → lval) (vs : list StepView) :
  coll_rows (loss_column b f vs) = Ret (map RowF (loss_rows b f vs)).
Proof.
  unfold loss_column, loss_rows. destruct b; simpl; [done|].
  by rewrite mapP_map, (mapP_ret _ (λ v, lval_num (f v))), bind_ret.
Qed.

Lemma concat_loss_rows (b : bool) (f : StepView → lval) (vss : list (list StepView)) :
  concat (concat (map (loss_rows b f) vss)) = map (λ v, lval_num (f v)) (concat vss).
Proof.
  induction vss as [|vs vss IH]; simpl; [done|].
  rewrite concat_app, IH, map_app. f_equal.
  unfold loss_rows. destruct b; simpl.
  - apply concat_singletons.
  - by rewrite app_nil_r.
Qed.

Lemma vstack_mean_world (b : bool) (f : StepView → lval) (vss : list (list StepView)) :
  vss ≠ [] → Forall (λ vs, vs ≠ []) vss →
  (b = true ∨ ∃ m, Forall (λ vs, length vs = m) vss) →
  vstack_mean (map (λ vs, GColl (loss_column b f vs)) vss)
  = Ret (loss_mean f (concat vss)).
Proof.
  intros Hne Hall Hkind. unfold vstack_mean.
  rewrite mapP_map.
  rewrite (mapP_ret _ (λ vs, map RowF (loss_rows b f vs)))
    by (intros; apply coll_rows_loss_column).
  rewrite bind_ret.
  assert (Hrows : concat (map (λ vs, map RowF (loss_rows b f vs)) vss)
                  = map RowF (concat (map (loss_rows b f) vss))).
  { clear. induction vss as [|vs vss IH]; simpl; [done|]. by rewrite IH, map_app. }
  rewrite Hrows.
  assert (Hlen : ∃ n, Forall (λ r, length r = n) (concat (map (loss_rows b f) vss))).
  { destruct Hkind as [->|[m Hm]].
    - exists 1%nat. apply Forall_concat, Forall_fmap, Forall_forall. intros vs _.
      apply Forall_fmap, Forall_forall. by intros.
    - destruct b.
      + exists 1%nat. apply Forall_concat, Forall_fmap, Forall_forall. intros vs _.
        apply Forall_fmap, Forall_forall. by intros.
      + exists m. apply Forall_concat, Forall_fmap.
        eapply Forall_impl; [exact Hm|]. intros vs Hvs. simpl.
        constructor; [|done]. by rewrite length_map. }
  destruct Hlen as [n Hlen].
  rewrite (np_vstack_floats _ n), bind_ret; [|
    |done].
  - unfold np_mean_coll. cbn [coll_floats]. rewrite bind_ret.
    by rewrite concat_loss_rows.
  - destruct vss as [|vs vss']; [done|]. apply Forall_cons in Hall as [Hvs _].
    simpl. unfold loss_rows at 1. destruct b; [by destruct vs|done].
Qed.

Lemma world_ok_kind (sh : Shape) (vss : list (list StepView)) (b : bool) :
  world_ok sh vss →
  b = loss_is_tensor sh ∨ b = seg_loss_is_tensor sh ∨ b = cls_loss_is_tensor sh →
  b = true ∨ ∃ m, Forall (λ vs, length vs = m) vss.
Proof.
  intros (_ & _ & [Hk|Hm]) Hb; [|by right]. left.
  apply andb_prop in Hk as [Hk H3]. apply andb_prop in Hk as [H1 H2].
  destruct Hb as [->|[->| ->]]; done.
Qed.

Lemma world_ok_nonempty (sh : Shape) (vss : list (list StepView)) :
  world_ok sh vss → Forall (λ vs, vs ≠ []) vss.
Proof.
  intros (_ & Hall & _). eapply Forall_impl; [exact Hall|]. by intros vs [? _].
Qed.

Lemma world_ok_seg_lengths (sh : Shape) (vss : list (list StepView)) :
  world_ok sh vss →
  Forall (λ vs, length (col_sums (map v_tp vs)) = n_fg sh) vss ∧
  Forall (λ vs, length (col_sums (map v_fp vs)) = n_fg sh) vss ∧
  Forall (λ vs, length (col_sums (map v_fn vs)) = n_fg sh) vss.
Proof.
  intros (_ & Hall & _).
  repeat split; (eapply Forall_impl; [exact Hall|]); intros vs [Hne Hvs];
    by destruct (has_shape_seg_lengths sh vs Hne Hvs) as (? & ? & ?).
Qed.

Lemma world_ok_cls_lengths (sh : Shape) (vss : list (list StepView)) (k : nat) :
  world_ok sh vss → n_cls sh = Some k →
  Forall (λ vs, length (col_sums (map sv_cls_tp vs)) = k) vss ∧
  Forall (λ vs, length (col_sums (map sv_cls_fp vs)) = k) vss ∧
  Forall (λ vs, length (col_sums (map sv_cls_fn vs)) = k) vss.
Proof.
  intros (_ & Hall & _) Hk.
  repeat split; (eapply Forall_impl; [exact Hall|]); intros vs [Hne Hvs];
    by destruct (has_shape_cls_lengths sh vs k Hne Hvs Hk) as (? & ? & ?).
Qed.

Section WorkerRun.
Context {Params : Type} (self : Trainer Params) (sh : Shape).
Context (vss : list (list StepView)) (vs : list StepView).
Context (Hddp : is_ddp self = true) (Hok : world_ok sh vss).

(** The six collectives of the segmentation counts and the losses. *)
Lemma reduce_segmentation_world (rest : list (list payload)) :
  run_with (reduce_segmentation self (collated_of sh vs) (col_sums (map v_tp vs))
              (col_sums (map v_fp vs)) (col_sums (map v_fn vs)))
           (map (λ ng, map ng.2 vss) (seg_plan sh) ++ rest) =
  (map (λ ng, (ng.1, ng.2 vs)) (seg_plan sh),
   Some (inr {| r_tp := world_sum v_tp vss; r_fp := world_sum v_fp vss;
                r_fn := world_sum v_fn vss;
                r_total_loss := loss_mean v_loss (concat vss);
                r_seg_loss := loss_mean v_seg_loss (concat vss);
                r_cls_loss := loss_mean v_cls_loss (concat vss) |}),
   rest).
Proof.
  destruct (world_ok_seg_lengths sh vss Hok) as (Htp & Hfp & Hfn).
  pose proof (world_ok_nonempty sh vss Hok) as Hne.
  destruct Hok as (Hvss & _).
  unfold reduce_segmentation. rewrite Hddp. cbn [seg_plan map app fst snd].
  rewrite run_with_gather, (vstack_sum0_world _ vss (n_fg sh)), bind_ret by done.
  rewrite run_with_gather, (vstack_sum0_world _ vss (n_fg sh)), bind_ret by done.
  rewrite run_with_gather, (vstack_sum0_world _ vss (n_fg sh)), bind_ret by done.
  rewrite get_loss, bind_ret, run_with_gather, vstack_mean_world, bind_ret;
    [|done|done|apply (world_ok_kind sh vss); auto].
  rewrite get_seg_loss, bind_ret, run_with_gather, vstack_mean_world, bind_ret;
    [|done|done|apply (world_ok_kind sh vss); auto].
  rewrite get_cls_loss, bind_ret, run_with_gather, vstack_mean_world, bind_ret;
    [|done|done|apply (world_ok_kind sh vss); auto].
  reflexivity.
Qed.
End WorkerRun.

Lemma length_world_sum (f : StepView → list N) (vss : list (list StepView)) (k : nat) :
  vss ≠ [] → Forall (λ vs, length (col_sums (map f vs)) = k) vss →
  length (world_sum f vss) = k.
Proof.
  intros Hne Hall. unfold world_sum. apply length_col_sums; [by destruct vss|].
  by apply Forall_fmap.
Qed.

Section WorkerCls.
Context {Params : Type} (self : Trainer Params) (sh : Shape).
Context (vss : list (list StepView)) (vs : list StepView).
Context (Hddp : is_ddp self = true) (Hok : world_ok sh vss).
Context (Hne : vs ≠ []) (Hall : Forall (has_shape sh) vs).

(** The five collectives of the classification counts, entered when counts
    for at least one class were collected. *)
Lemma classification_summary_world :
  run_with (classification_summary self (collated_of sh vs))
           (map (λ ng, map ng.2 vss) (if cls_active sh then cls_plan else [])) =
  (map (λ ng, (ng.1, ng.2 vs)) (if cls_active sh then cls_plan else []),
   Some (inr (if cls_active sh then
                cls_part (world_sum sv_cls_tp vss) (world_sum sv_cls_fp vss)
                         (world_sum sv_cls_fn vss)
                         (world_count sv_cls_correct vss) (world_count sv_cls_total vss)
              else [])),
   []).
Proof.
  unfold classification_summary, cls_active.
  destruct (n_cls sh) as [k|] eqn:Hk; [|by rewrite get_no_cls].
  rewrite (get_cls_tp sh vs k Hk). cbn [coll_size]. rewrite bind_ret.
  rewrite (length_concat_views sh vs sv_cls_tp k).
  2:{ intros v Hv. rewrite Forall_forall in Hall.
      destruct (has_shape_cls sh v k (Hall v Hv) Hk) as (c & Hc & ? & _).
      unfold sv_cls_tp. by rewrite Hc. }
  destruct k as [|k'].
  { rewrite Nat.mul_0_r. reflexivity. }
  assert (Hpos : (0 <? length vs * S k')%nat = true).
  { apply Nat.ltb_lt. destruct vs; [done|]. simpl. lia. }
  rewrite Hpos. change (0 <? S k')%nat with true. cbv iota.
  rewrite (get_cls_fp sh vs _ Hk), (get_cls_fn sh vs _ Hk), (get_cls_tn sh vs _ Hk),
    (get_cls_correct sh vs _ Hk), (get_cls_total sh vs _ Hk).
  repeat first [rewrite bind_ret | progress cbn [np_sum0] | rewrite np_sum_all_counts
               | rewrite np_sum_all_ints | rewrite Hddp].
  destruct (world_ok_cls_lengths sh vss _ Hok Hk) as (Htp & Hfp & Hfn).
  pose proof Hok as (Hvss & _).
  cbn [cls_plan map fst snd]. rewrite run_with_bind.
  rewrite run_with_gather, (vstack_sum0_world _ vss (S k')), bind_ret by done.
  rewrite run_with_gather, (vstack_sum0_world _ vss (S k')), bind_ret by done.
  rewrite run_with_gather, (vstack_sum0_world _ vss (S k')), bind_ret by done.
  rewrite run_with_gather, sum_gathered_world, bind_ret.
  rewrite run_with_gather, sum_gathered_world, bind_ret.
  cbn [run_with fst snd app].
  fold (world_sum sv_cls_tp vss) (world_sum sv_cls_fp vss) (world_sum sv_cls_fn vss)
    (world_count sv_cls_correct vss) (world_count sv_cls_total vss).
  rewrite (classification_metrics_part _ _ _ _ _ (S k'));
    [reflexivity|by apply length_world_sum..].
Qed.
End WorkerCls.

Lemma log_metrics_run_with {Params} (self : Trainer Params) (e : nat)
    (mean_fg_dice : fval) (dc : list fval) (tl sl cl : fval) (cm : pydict sval)
    (ans : list (list payload)) :
  current_epoch self = Some e → cls_part_or_none cm →
  run_with (log_metrics self mean_fg_dice dc tl sl cl cm) ans = ([], Some (inr tt), ans).
Proof.
  intros He [->|(tp & fp & fn & correct & total & ->)];
    unfold log_metrics; by rewrite He.
Qed.

Lemma print_summary_run_with {Params} (self : Trainer Params) (e : nat)
    (mean_fg_dice : fval) (dc : list fval) (tl sl cl : fval) (cm : pydict sval)
    (ans : list (list payload)) :
  current_epoch self = Some e → cls_part_or_none cm →
  run_with (print_summary self mean_fg_dice dc tl sl cl cm) ans = ([], Some (inr tt), ans).
Proof.
  intros He [->|(tp & fp & fn & correct & total & ->)];
    unfold print_summary; rewrite He; by destruct dc as [|? [|? ?]].
Qed.

(** One worker of the group, run against what the group gathers: it enters
    the collectives of the plan, in order, and returns the summary of the
    group. *)
Lemma on_validation_epoch_end_worker {Params} (self : Trainer Params) (sh : Shape)
    (vss : list (list StepView)) (vs : list StepView) (e : nat) :
  is_ddp self = true → current_epoch self = Some e →
  world_ok sh vss → vs ∈ vss →
  run_with (on_validation_epoch_end self (map step_dict vs)) (world_answers sh vss)
  = (worker_calls sh vs, Some (inr (world_summary sh vss)), []).
Proof.
  intros Hddp He Hok Hvs.
  assert (Hne : vs ≠ [] ∧ Forall (has_shape sh) vs).
  { destruct Hok as (_ & Hall & _). rewrite Forall_forall in Hall. by apply Hall. }
  destruct Hne as [Hne Hall].
  unfold on_validation_epoch_end.
  rewrite (collate_outputs_views sh) by done. rewrite bind_ret.
  rewrite run_with_bind. cbn [set_trace run_with].
  rewrite get_tp_hard, get_fp_hard, get_fn_hard.
  repeat first [rewrite bind_ret | progress cbn [np_sum0]].
  unfold world_answers, worker_calls, gather_plan. rewrite !map_app.
  rewrite run_with_bind, (reduce_segmentation_world self sh vss vs) by done.
  cbn [r_tp r_fp r_fn r_total_loss r_seg_loss r_cls_loss fst snd].
  rewrite run_with_bind, (classification_summary_world self sh vss vs) by done.
  cbn [fst snd].
  assert (Hcm : cls_part_or_none
    (if cls_active sh then
       cls_part (world_sum sv_cls_tp vss) (world_sum sv_cls_fp vss)
                (world_sum sv_cls_fn vss)
                (world_count sv_cls_correct vss) (world_count sv_cls_total vss)
     else [])).
  { destruct (cls_active sh); [right; by eexists _, _, _, _, _|by left]. }
  rewrite run_with_bind, (log_metrics_run_with self e) by done.
  rewrite run_with_bind, (print_summary_run_with self e) by done.
  cbn [run_with fst snd]. by rewrite !app_nil_r.
Qed.

Lemma plan_consistent {W} (plan : list (string * (W → payload))) (ws : list W) :
  consistent (map (λ ng, map ng.2 ws) plan)
             (map (λ w, map (λ ng, (ng.1, ng.2 w)) plan) ws).
Proof.
  induction plan as [|[name g] plan IH]; [done|]. cbn [map consistent]. split.
  - rewrite <-list_fmap_compose. by apply list_fmap_ext.
  - rewrite <-list_fmap_compose. exact IH.
Qed.

Lemma plan_rounds {W} (plan : list (string * (W → payload))) (ws : list W) :
  rounds_of (map (λ ng, map ng.2 ws) plan)
            (map (λ w, map (λ ng, (ng.1, ng.2 w)) plan) ws)
  = map (λ ng, map (λ _, ng.1) ws) plan.
Proof.
  induction plan as [|[name g] plan IH]; [done|]. cbn [map rounds_of]. f_equal.
  - rewrite <-list_fmap_compose. by apply list_fmap_ext.
  - rewrite <-list_fmap_compose. exact IH.
Qed.

(** The group of workers: every worker returns the summary of the group,
    after the rounds of the plan, each entered by all workers under one
    name. *)
Lemma on_validation_epoch_end_world {Params} (self : Trainer Params) (sh : Shape)
    (vs0 : list StepView) (vss : list (list StepView)) (e : nat) :
  is_ddp self = true → current_epoch self = Some e →
  world_ok sh (vs0 :: vss) →
  run_world (on_validation_epoch_end self (map step_dict vs0))
            (map (λ vs, on_validation_epoch_end self (map step_dict vs)) vss)
  = Finished (map (λ _, inr (world_summary sh (vs0 :: vss))) (vs0 :: vss))
             (map (λ ng, map (λ _, ng.1) (vs0 :: vss)) (gather_plan sh)).
Proof.
  intros Hddp He Hok.
  pose (outs := map (λ vs, (worker_calls sh vs,
                             inr (A := exn) (world_summary sh (vs0 :: vss))))
                    (vs0 :: vss)).
  rewrite (run_world_answers (world_answers sh (vs0 :: vss)) _ _ outs).
  - f_equal.
    + unfold outs. rewrite <-list_fmap_compose. by apply list_fmap_ext.
    + unfold outs, world_answers, worker_calls.
      rewrite <-list_fmap_compose.
      rewrite <-(plan_rounds (gather_plan sh) (vs0 :: vss)). f_equal.
  - change (on_validation_epoch_end self (map step_dict vs0)
            :: map (λ vs, on_validation_epoch_end self (map step_dict vs)) vss)
      with (map (λ vs, on_validation_epoch_end self (map step_dict vs)) (vs0 :: vss)).
    unfold outs. apply Forall2_fmap, Forall_Forall2_diag, Forall_forall.
    intros vs Hvs. cbn [fst snd].
    by apply (on_validation_epoch_end_worker self sh (vs0 :: vss) vs e).
  - unfold outs, world_answers, worker_calls. rewrite <-list_fmap_compose.
    apply (plan_consistent (gather_plan sh) (vs0 :: vss)).
Qed.

(** ** Sums over shards and over permutations *)

Lemma vadd_assoc (a b c : list N) :
  zip_with N.add (zip_with N.add a b) c = zip_with N.add a (zip_with N.add b c).
Proof.
  revert b c. induction a as [|x a IH]; intros [|y b] [|z c]; simpl; try done.
  f_equal; [lia|apply IH].
Qed.

Lemma vadd_comm (a b : list N) : zip_with N.add a b = zip_with N.add b a.
Proof.
  revert b. induction a as [|x a IH]; intros [|y b]; simpl; try done.
  f_equal; [lia|apply IH].
Qed.

Lemma vadd_zero_r (a : list N) (k : nat) :
  length a = k → zip_with N.add a (replicate k 0%N) = a.
Proof.
  intros <-. induction a as [|x a IH]; simpl; [done|]. rewrite IH. f_equal. lia.
Qed.

Lemma length_foldr_vadd (m : list (list N)) (k : nat) :
  Forall (λ r, length r = k) m →
  length (foldr (zip_with N.add) (replicate k 0%N) m) = k.
Proof.
  induction 1 as [|r m Hr Hm IH]; simpl; [by rewrite length_replicate|].
  rewrite length_zip_with. lia.
Qed.

Lemma col_sums_foldr (m : list (list N)) (k : nat) :
  m ≠ [] → Forall (λ r, length r = k) m →
  col_sums m = foldr (zip_with N.add) (replicate k 0%N) m.
Proof.
  intros Hne Hall. destruct m as [|r rs]; [done|]. clear Hne.
  apply Forall_cons in Hall as [Hr Hrs]. simpl. revert r Hr.
  induction Hrs as [|r1 rs Hr1 Hrs IH]; intros r Hr; simpl.
  - by rewrite vadd_zero_r.
  - rewrite IH by (rewrite length_zip_with; lia). by rewrite vadd_assoc.
Qed.

Lemma foldr_vadd_app (l1 l2 : list (list N)) (k : nat) :
  Forall (λ r, length r = k) l2 →
  foldr (zip_with N.add) (replicate k 0%N) (l1 ++ l2)
  = zip_with N.add (foldr (zip_with N.add) (replicate k 0%N) l1)
                   (foldr (zip_with N.add) (replicate k 0%N) l2).
Proof.
  intros Hl2. induction l1 as [|r l1 IH]; simpl.
  - rewrite vadd_comm, vadd_zero_r; [done|]. by apply length_foldr_vadd.
  - by rewrite IH, vadd_assoc.
Qed.

(** Summing the local sums of the shards is summing over all steps. *)
Lemma world_sum_concat (f : StepView → list N) (vss : list (list StepView)) (k : nat) :
  vss ≠ [] → Forall (λ vs, vs ≠ [] ∧ Forall (λ v, length (f v) = k) vs) vss →
  world_sum f vss = col_sums (map f (concat vss)).
Proof.
  intros Hne Hall. unfold world_sum.
  assert (Hlocal : ∀ vs, vs ∈ vss →
    col_sums (map f vs) = foldr (zip_with N.add) (replicate k 0%N) (map f vs)).
  { intros vs Hvs. rewrite Forall_forall in Hall. destruct (Hall vs Hvs) as [Hv Hk].
    apply col_sums_foldr; [by destruct vs|by apply Forall_fmap]. }
  rewrite (col_sums_foldr _ k).
  - rewrite (col_sums_foldr (map f (concat vss)) k).
    + clear Hne. induction vss as [|vs vss IH]; [done|].
      apply Forall_cons in Hall as [[Hvs Hk] Hall]. cbn [map concat foldr].
      rewrite map_app, foldr_vadd_app.
      * rewrite (Hlocal vs) by (apply elem_of_cons; by left). f_equal. apply IH; [done|].
        intros vs' Hvs'. apply Hlocal, elem_of_cons. by right.
      * apply Forall_fmap, Forall_concat.
        eapply Forall_impl; [exact Hall|]. by intros ? [_ ?].
    + destruct vss as [|vs vss']; [done|]. apply Forall_cons in Hall as [[Hvs _] _].
      by destruct vs.
    + apply Forall_fmap, Forall_concat.
      eapply Forall_impl; [exact Hall|]. by intros ? [_ ?].
  - by destruct vss.
  - apply Forall_fmap, Forall_forall. intros vs Hvs. cbv beta delta [compose].
    rewrite (Hlocal vs Hvs). apply length_foldr_vadd, Forall_fmap.
    rewrite Forall_forall in Hall. by destruct (Hall vs Hvs).
Qed.

Lemma world_count_concat (f : StepView → N) (vss : list (list StepView)) :
  world_count f vss = N_sum (map f (concat vss)).
Proof.
  unfold world_count. induction vss as [|vs vss IH]; simpl; [done|].
  by rewrite map_app, N_sum_app, IH.
Qed.

Lemma col_sums_permutation (f : StepView → list N) (vs vs' : list StepView) (k : nat) :
  vs ≠ [] → Forall (λ v, length (f v) = k) vs → vs ≡ₚ vs' →
  col_sums (map f vs) = col_sums (map f vs').
Proof.
  intros Hne Hall Hperm.
  assert (Hne' : vs' ≠ []).
  { intros ->. by apply Permutation_nil_r in Hperm. }
  rewrite (col_sums_foldr (map f vs) k), (col_sums_foldr (map f vs') k).
  - apply (foldr_permutation eq (zip_with N.add));
      [solve_proper| |by apply Permutation_map].
    intros j1 a1 j2 a2 b _ _ _.
    by rewrite <-!vadd_assoc, (vadd_comm a1 a2).
  - by destruct vs'.
  - apply Forall_fmap. by rewrite <-Hperm.
  - by destruct vs.
  - by apply Forall_fmap.
Qed.

Lemma N_sum_permutation (l l' : list N) : l ≡ₚ l' → N_sum l = N_sum l'.
Proof.
  intros Hperm. unfold N_sum.
  apply (foldr_permutation eq N.add); [solve_proper| |done]. intros. lia.
Qed.

Lemma Qc_sum_permutation (l l' : list Qc) : l ≡ₚ l' → Qc_sum l = Qc_sum l'.
Proof.
  intros Hperm. unfold Qc_sum.
  apply (foldr_permutation eq Qcplus); [solve_proper| |done]. intros. ring.
Qed.

Lemma loss_mean_permutation (f : StepView → lval) (vs vs' : list StepView) :
  vs ≡ₚ vs' → loss_mean f vs = loss_mean f vs'.
Proof.
  intros Hperm. unfold loss_mean, np_mean.
  pose proof (Permutation_map (λ v, lval_num (f v)) Hperm) as Hp.
  rewrite (Qc_sum_permutation _ _ Hp), (Permutation_length Hp).
  destruct (map _ vs) eqn:E1, (map _ vs') eqn:E2; try done.
  - by apply Permutation_nil_l in Hp.
  - by apply Permutation_nil_r in Hp.
Qed.

Lemma has_shape_sv_cls (sh : Shape) (vs : list StepView) (k : nat) :
  Forall (has_shape sh) vs → n_cls sh = Some k →
  Forall (λ v, length (sv_cls_tp v) = k) vs ∧
  Forall (λ v, length (sv_cls_fp v) = k) vs ∧
  Forall (λ v, length (sv_cls_fn v) = k) vs.
Proof.
  intros Hall Hk.
  repeat split; (eapply Forall_impl; [exact Hall|]); intros v Hv;
    destruct (has_shape_cls sh v k Hv Hk) as (c & Hc & ? & ? & ? & ?);
    unfold sv_cls_tp, sv_cls_fp, sv_cls_fn; by rewrite Hc.
Qed.

Lemma cls_active_size (sh : Shape) (vs : list StepView) (k : nat) :
  vs ≠ [] → Forall (has_shape sh) vs → n_cls sh = Some k →
  (0 <? length (concat (map sv_cls_tp vs)))%nat = cls_active sh.
Proof.
  intros Hne Hall Hk. unfold cls_active. rewrite Hk.
  destruct (has_shape_sv_cls sh vs k Hall Hk) as (Htp & _).
  rewrite (length_concat_views sh vs sv_cls_tp k)
    by (intros v Hv; rewrite Forall_forall in Htp; by apply Htp).
  destruct vs as [|v vs']; [done|]. cbn [length].
  destruct k; [by rewrite Nat.mul_0_r|]. apply Nat.ltb_lt. lia.
Qed.

(** The summary of the group is the summary of all per-step results
    together. *)
Lemma world_summary_concat (sh : Shape) (vss : list (list StepView)) :
  world_ok sh vss → world_summary sh vss = epoch_summary sh (concat vss).
Proof.
  intros Hok. pose proof Hok as (Hne & Hall & _).
  assert (Hcne : concat vss ≠ []).
  { destruct vss as [|vs vss']; [done|]. apply Forall_cons in Hall as [[Hvs _] _].
    by destruct vs. }
  assert (Hcall : Forall (has_shape sh) (concat vss)).
  { apply Forall_concat. eapply Forall_impl; [exact Hall|]. by intros ? [_ ?]. }
  assert (Hseg : ∀ f, (∀ v, has_shape sh v → length (f v) = n_fg sh) →
    world_sum f vss = col_sums (map f (concat vss))).
  { intros f Hf. apply (world_sum_concat f vss (n_fg sh)); [done|].
    eapply Forall_impl; [exact Hall|]. intros vs [Hvs Hsh]. split; [done|].
    eapply Forall_impl; [exact Hsh|]. done. }
  unfold world_summary, epoch_summary.
  rewrite (Hseg v_tp), (Hseg v_fp), (Hseg v_fn);
    [|by intros v (? & ? & ? & _)..].
  f_equal. destruct (n_cls sh) as [k|] eqn:Hk.
  - rewrite (cls_active_size sh (concat vss) k) by done.
    destruct (cls_active sh); [|done].
    assert (Hcls : ∀ f, (∀ v, has_shape sh v → length (f v) = k) →
      world_sum f vss = col_sums (map f (concat vss))).
    { intros f Hf. apply (world_sum_concat f vss k); [done|].
      eapply Forall_impl; [exact Hall|]. intros vs [Hvs Hsh]. split; [done|].
      eapply Forall_impl; [exact Hsh|]. done. }
    assert (Hone : ∀ v, has_shape sh v →
      length (sv_cls_tp v) = k ∧ length (sv_cls_fp v) = k ∧ length (sv_cls_fn v) = k).
    { intros v Hv. destruct (has_shape_cls sh v k Hv Hk) as (c & Hc & ? & ? & ? & ?).
      unfold sv_cls_tp, sv_cls_fp, sv_cls_fn. by rewrite Hc. }
    rewrite (Hcls sv_cls_tp), (Hcls sv_cls_fp), (Hcls sv_cls_fn);
      [|intros v Hv; by destruct (Hone v Hv) as (? & ? & ?)..].
    by rewrite !world_count_concat.
  - unfold cls_active. by rewrite Hk.
Qed.

(** The summary does not depend on the order of the per-step results. *)
Lemma epoch_summary_permutation (sh : Shape) (vs vs' : list StepView) :
  vs ≠ [] → Forall (has_shape sh) vs → vs ≡ₚ vs' →
  epoch_summary sh vs = epoch_summary sh vs'.
Proof.
  intros Hne Hall Hperm.
  assert (Hne' : vs' ≠ []).
  { intros ->. by apply Permutation_nil_r in Hperm. }
  assert (Hall' : Forall (has_shape sh) vs') by (by rewrite <-Hperm).
  unfold epoch_summary.
  assert (Hseg : Forall (λ v, length (v_tp v) = n_fg sh) vs ∧
                 Forall (λ v, length (v_fp v) = n_fg sh) vs ∧
                 Forall (λ v, length (v_fn v) = n_fg sh) vs).
  { repeat split; (eapply Forall_impl; [exact Hall|]); by intros v (? & ? & ? & _). }
  destruct Hseg as (Hstp & Hsfp & Hsfn).
  rewrite (col_sums_permutation v_tp vs vs' (n_fg sh)),
    (col_sums_permutation v_fp vs vs' (n_fg sh)),
    (col_sums_permutation v_fn vs vs' (n_fg sh)) by done.
  rewrite (loss_mean_permutation v_loss vs vs'), (loss_mean_permutation v_seg_loss vs vs'),
    (loss_mean_permutation v_cls_loss vs vs') by done.
  f_equal. destruct (n_cls sh) as [k|] eqn:Hk; [|done].
  rewrite (cls_active_size sh vs k), (cls_active_size sh vs' k) by done.
  destruct (cls_active sh); [|done].
  destruct (has_shape_sv_cls sh vs k Hall Hk) as (Htp & Hfp & Hfn).
  rewrite (col_sums_permutation sv_cls_tp vs vs' k),
    (col_sums_permutation sv_cls_fp vs vs' k),
    (col_sums_permutation sv_cls_fn vs vs' k) by done.
  rewrite (N_sum_permutation (map sv_cls_correct vs) (map sv_cls_correct vs')),
    (N_sum_permutation (map sv_cls_total vs) (map sv_cls_total vs'));
    [done|by apply Permutation_map..].
Qed.

(** C2, amended.  In a distributed group whose workers all hold non-empty
    per-step results of one shape (with equal numbers of steps where a loss
    component is a Python float), every worker enters the same collectives in
    the same order: tp, fp, fn, then the collated lists of loss, seg_loss and
    cls_loss, and then, when classification counts for at least one class
    were collected, cls_tp, cls_fp, cls_fn, cls_correct and cls_total.  The
    gathered count arrays and counts are summed across the workers, the
    gathered loss lists are put together and averaged, and every worker
    returns the summary computed from these.  cls_tn is summed over the local
    steps only: it is not among the collectives. *)
Theorem reduction_collectives {Params} (self : Trainer Params) (sh : Shape)
    (vs0 : list StepView) (vss : list (list StepView)) (e : nat) :
  is_ddp self = true → current_epoch self = Some e →
  world_ok sh (vs0 :: vss) →
  let world := vs0 :: vss in
  let names :=
    ["tp"; "fp"; "fn"; "loss"; "seg_loss"; "cls_loss"]
    ++ (if cls_active sh
        then ["cls_tp"; "cls_fp"; "cls_fn"; "cls_correct"; "cls_total"] else []) in
  run_world (on_validation_epoch_end self (map step_dict vs0))
            (map (λ vs, on_validation_epoch_end self (map step_dict vs)) vss)
  = Finished (map (λ _, inr (world_summary sh world)) world)
             (map (λ name, map (λ _, name) world) names) ∧
  ("cls_tn" ∉ names) ∧
  world_summary sh world =
    seg_part (world_sum v_tp world) (world_sum v_fp world) (world_sum v_fn world)
             (loss_mean v_loss (concat world)) (loss_mean v_seg_loss (concat world))
             (loss_mean v_cls_loss (concat world))
    ++ (if cls_active sh then
          cls_part (world_sum sv_cls_tp world) (world_sum sv_cls_fp world)
                   (world_sum sv_cls_fn world)
                   (world_count sv_cls_correct world) (world_count sv_cls_total world)
        else []).
Proof.
  intros Hddp He Hok world names. split; [|split].
  - rewrite (on_validation_epoch_end_world self sh vs0 vss e) by done.
    f_equal. unfold gather_plan, names. rewrite !map_app.
    f_equal. by destruct (cls_active sh).
  - unfold names. destruct (cls_active sh); compute_done.
  - done.
Qed.

Lemma reduction_collectives_witness :
  let self := sample_trainer (λ _, two_heads) true in
  ∃ rs, run_world (on_validation_epoch_end self (map step_dict sample_steps))
                  [on_validation_epoch_end self (map step_dict sample_steps)]
        = Finished rs (map (λ name, [name; name])
                           ["tp"; "fp"; "fn"; "loss"; "seg_loss"; "cls_loss"]).
Proof.
  intros self.
  destruct (reduction_collectives self (sample_shape None) sample_steps [sample_steps] 0)
    as (Hrun & _); [done|done| |].
  - split; [done|]. split; [|left; done].
    repeat constructor; done.
  - eexists. exact Hrun.
Defined.

(** C2, as stated, fails: the classification true-negative counts are
    collected by every step and aggregated, yet the two workers of this group
    enter eleven collectives and cls_tn is in none of them. *)
Lemma cls_tn_is_not_gathered :
  let self := sample_trainer (λ _, two_heads) true in
  let s1 := sample_step 3 [4; 0]%N [1; 0]%N [2; 0]%N (Some (sample_cls 7 10)) in
  let s2 := sample_step 5 [1; 0]%N [0; 0]%N [3; 0]%N (Some (sample_cls 2 5)) in
  dict_get (step_dict s1) "cls_tn" = Some (PArr1 [3; 3]%N) ∧
  ∃ rs, run_world (on_validation_epoch_end self [step_dict s1])
                  [on_validation_epoch_end self [step_dict s2]]
        = Finished rs (map (λ name, [name; name])
                           ["tp"; "fp"; "fn"; "loss"; "seg_loss"; "cls_loss";
                            "cls_tp"; "cls_fp"; "cls_fn"; "cls_correct"; "cls_total"]) ∧
        ¬ ∃ round, round ∈ map (λ name, [name; name])
                              ["tp"; "fp"; "fn"; "loss"; "seg_loss"; "cls_loss";
                               "cls_tp"; "cls_fp"; "cls_fn"; "cls_correct"; "cls_total"]
                   ∧ "cls_tn" ∈ round.
Proof.
  intros self s1 s2. split; [done|].
  eexists. split; [vm_compute; reflexivity|].
  intros (round & Hround & Htn).
  repeat (apply elem_of_cons in Hround as [->|Hround];
          [by repeat (apply elem_of_cons in Htn as [Htn|Htn]; [done|]);
              apply elem_of_nil in Htn|]).
  by apply elem_of_nil in Hround.
Qed.

(** ** The results of the validation step are step views *)

Lemma classification_metrics_form {Tensor Params} {torch : Torch Tensor Params}
    (cls_output : option (netval Tensor)) (target_cls : list Z) (cm : pydict pyobj) :
  result_of (classification_metrics cls_output target_cls) = inr cm →
  cm = [] ∨ ∃ c, cm = cls_dict c.
Proof.
  unfold classification_metrics.
  destruct cls_output as [[t|l]|]; [|done|intros [= <-]; by left].
  rewrite result_of_bind.
  destruct (result_of (torch_argmax_dim1 _)) as [e|cls_pred]; [done|].
  rewrite result_of_bind.
  destruct (result_of (foldP _ _ _)) as [e|arrays]; [done|].
  rewrite result_of_bind.
  destruct (result_of (broadcast _ _ _)) as [e|correct]; [done|].
  intros [= <-]. right.
  by exists {| v_cls_tp := a_tp arrays; v_cls_fp := a_fp arrays;
               v_cls_fn := a_fn arrays; v_cls_tn := a_tn arrays;
               v_cls_correct := count_true correct;
               v_cls_total := N.of_nat (length target_cls) |}.
Qed.

Lemma loss_entry_lval (ld : gmap string lval) (k : string) :
  loss_entry ld k = lval_obj (default (LFloat 0) (ld !! k)).
Proof. unfold loss_entry, lval_obj. by destruct (default _ _). Qed.

(** Whatever [validation_step] returns is the dictionary of a view. *)
Lemma validation_step_view {Tensor Params} {torch : Torch Tensor Params}
    (self : Trainer Params) (batch : Batch Tensor) (r : pydict pyobj) :
  result_of (validation_step self batch) = inr r → ∃ v, r = step_dict v.
Proof.
  intros Hr.
  destruct (result_of (split_output (network (params self) (data batch))))
    as [e|[seg cls]] eqn:Hsplit.
  { unfold validation_step in Hr. rewrite result_of_bind, Hsplit in Hr. done. }
  assert (Hs : split_output (network (params self) (data batch)) = Ret (seg, cls)).
  { revert Hsplit. unfold split_output, getitem.
    destruct (network _ _) as [v|d]; [by intros [= <- <-]|].
    destruct (size d =? 2)%nat; [|by intros [= <- <-]].
    destruct (d !! "segmentation") as [s|]; [|done].
    destruct (d !! "classification") as [c|]; [|done].
    by intros [= <- <-]. }
  destruct (validation_step_after_split self batch seg cls r Hs Hr)
    as (tp & fp & fn & cm & _ & Hcm & ->).
  set (ld := loss_call _ _ _ _ _).
  apply classification_metrics_form in Hcm as [->|[c ->]].
  - exists {| v_loss := default (LFloat 0) (ld !! "total_loss");
             v_seg_loss := default (LFloat 0) (ld !! "seg_loss");
             v_cls_loss := default (LFloat 0) (ld !! "cls_loss");
             v_tp := tp; v_fp := fp; v_fn := fn; v_cls := None |}.
    unfold step_dict. cbn. by rewrite !loss_entry_lval.
  - exists {| v_loss := default (LFloat 0) (ld !! "total_loss");
             v_seg_loss := default (LFloat 0) (ld !! "seg_loss");
             v_cls_loss := default (LFloat 0) (ld !! "cls_loss");
             v_tp := tp; v_fp := fp; v_fn := fn; v_cls := Some c |}.
    unfold step_dict. cbn. by rewrite !loss_entry_lval.
Qed.

(** ** The entries of the summary, in a single process and in a group *)

Lemma epoch_summary_dice (sh : Shape) (vs : list StepView) :
  vs ≠ [] → Forall (has_shape sh) vs →
  dice_entries (col_sums (map v_tp vs)) (col_sums (map v_fp vs)) (col_sums (map v_fn vs))
               (epoch_summary sh vs).
Proof.
  intros Hne Hall.
  set (tp := col_sums (map v_tp vs)). set (fp := col_sums (map v_fp vs)).
  set (fn := col_sums (map v_fn vs)).
  destruct (has_shape_seg_lengths sh vs Hne Hall) as (Htp & Hfp & Hfn).
  fold tp fp fn in Htp, Hfp, Hfn.
  exists (dice_per_class tp fp fn). split; [done|].
  split; [apply length_dice_per_class; congruence|]. split.
  - intros c i j k Hi Hj Hk.
    pose proof (dice_per_class_lookup tp fp fn c i j k Hi Hj Hk) as Hd.
    split; [done|]. rewrite Hd. unfold dice_formula.
    assert (Hden : Qc_of_Z 2 * Qc_of_N i + Qc_of_N j + Qc_of_N k
                   = Qc_of_N (2 * i + j + k)).
    { by rewrite !Qc_of_N_add, Qc_of_N_mul. }
    rewrite Hden. split; intros Hz.
    + by rewrite bool_decide_eq_false_2 by (by rewrite Qc_of_N_zero).
    + by rewrite bool_decide_eq_true_2 by (by apply Qc_of_N_zero).
  - cbn [epoch_summary seg_part app dict_get String.eqb Ascii.eqb Bool.eqb].
    fold tp fp fn. do 2 f_equal. apply np_nanmean_spec, dice_per_class_finite.
Qed.

Lemma epoch_summary_classification (sh : Shape) (vs : list StepView) (k : nat) :
  vs ≠ [] → Forall (has_shape sh) vs → n_cls sh = Some k → (0 < k)%nat →
  classification_entries k
    (col_sums (map sv_cls_tp vs)) (col_sums (map sv_cls_fp vs))
    (col_sums (map sv_cls_fn vs))
    (N_sum (map sv_cls_correct vs)) (N_sum (map sv_cls_total vs))
    (epoch_summary sh vs).
Proof.
  intros Hne Hall Hk Hpos.
  set (tp := col_sums (map sv_cls_tp vs)). set (fp := col_sums (map sv_cls_fp vs)).
  set (fn := col_sums (map sv_cls_fn vs)).
  set (correct := N_sum (map sv_cls_correct vs)).
  set (total := N_sum (map sv_cls_total vs)).
  destruct (has_shape_cls_lengths sh vs k Hne Hall Hk) as (Htp & Hfp & Hfn).
  fold tp fp fn in Htp, Hfp, Hfn.
  set (precision := zip_with guarded_ratio tp (zip_with N.add tp fp)).
  set (recall := zip_with guarded_ratio tp (zip_with N.add tp fn)).
  set (f1 := zip_with f1_score precision recall).
  assert (Hlp : length precision = k).
  { unfold precision. rewrite !length_zip_with. lia. }
  assert (Hlr : length recall = k).
  { unfold recall. rewrite !length_zip_with. lia. }
  assert (Hlf : length f1 = k).
  { unfold f1. rewrite !length_zip_with. lia. }
  assert (Hsum : epoch_summary sh vs =
    seg_part (col_sums (map v_tp vs)) (col_sums (map v_fp vs)) (col_sums (map v_fn vs))
             (loss_mean v_loss vs) (loss_mean v_seg_loss vs) (loss_mean v_cls_loss vs)
    ++ cls_part tp fp fn correct total).
  { unfold epoch_summary. rewrite Hk, (cls_active_size sh vs k) by done.
    unfold cls_active. rewrite Hk. by rewrite (proj2 (Nat.ltb_lt 0 k)). }
  assert (Hmean : ∀ l, length l = k →
    np_nanmean (map Num l) = Num (Qc_sum l / Qc_of_Z (Z.of_nat k)) ∧
    mean_ignoring_nan (map Num l) = Num (Qc_sum l / Qc_of_Z (Z.of_nat k))).
  { intros l Hl. destruct (macro_average_spec l) as [Hspec Hm].
    rewrite <-Hspec, Hm, Hl; [done|]. destruct l; simpl in *; [lia|done]. }
  exists precision, recall, f1. rewrite Hsum.
  split; [by rewrite <-accuracy_spec|]. do 3 (split; [done|]).
  do 3 (split; [done|]). split.
  - intros c a b x Ha Hb Hx. eexists _, _. split; [done|]. split; [done|].
    assert (Hp : precision !! c
                 = Some (ratio_or_zero (Qc_of_N a) (Qc_of_N a + Qc_of_N b))).
    { unfold precision. rewrite !lookup_zip_with, Ha, Hb. simpl.
      by rewrite guarded_ratio_spec. }
    assert (Hq : recall !! c
                 = Some (ratio_or_zero (Qc_of_N a) (Qc_of_N a + Qc_of_N x))).
    { unfold recall. rewrite !lookup_zip_with, Ha, Hx. simpl.
      by rewrite guarded_ratio_spec. }
    split; [done|]. split; [done|].
    unfold f1. by rewrite lookup_zip_with, Hp, Hq.
  - cbn [seg_part cls_part app dict_get String.eqb Ascii.eqb Bool.eqb].
    fold precision recall f1.
    destruct (Hmean precision Hlp) as [-> ->].
    destruct (Hmean recall Hlr) as [-> ->].
    destruct (Hmean f1 Hlf) as [-> ->]. done.
Qed.

Lemma world_ok_concat (sh : Shape) (vss : list (list StepView)) :
  world_ok sh vss → concat vss ≠ [] ∧ Forall (has_shape sh) (concat vss).
Proof.
  intros (Hne & Hall & _). split.
  - destruct vss as [|vs vss']; [done|]. apply Forall_cons in Hall as [[Hvs _] _].
    by destruct vs.
  - apply Forall_concat. eapply Forall_impl; [exact Hall|]. by intros ? [_ ?].
Qed.

(** C4.  Let tp, fp, fn be the per-class count arrays summed over all
    per-step results: those of the process when it is not distributed, those
    of all workers when it is.  The epoch-end reduction on well-shaped
    results returns a summary with one Dice value per class, equal to
    2*tp/(2*tp+fp+fn) for a class whose denominator is not zero and
    not-a-number for a class whose denominator is zero, and with the mean
    foreground Dice the mean of the entries that are not not-a-number. *)
Theorem dice_of_reduction {Params} (self : Trainer Params) (sh : Shape) (e : nat) :
  current_epoch self = Some e →
  (∀ vs, vs ≠ [] → Forall (has_shape sh) vs → is_ddp self = false →
     ∃ r, result_of (on_validation_epoch_end self (map step_dict vs)) = inr r ∧
          dice_entries (col_sums (map v_tp vs)) (col_sums (map v_fp vs))
                       (col_sums (map v_fn vs)) r) ∧
  (∀ vs0 vss, world_ok sh (vs0 :: vss) → is_ddp self = true →
     let all_steps := concat (vs0 :: vss) in
     ∃ r rounds,
       run_world (on_validation_epoch_end self (map step_dict vs0))
                 (map (λ vs, on_validation_epoch_end self (map step_dict vs)) vss)
       = Finished (map (λ _, inr r) (vs0 :: vss)) rounds ∧
       dice_entries (col_sums (map v_tp all_steps)) (col_sums (map v_fp all_steps))
                    (col_sums (map v_fn all_steps)) r).
Proof.
  intros He. split.
  - intros vs Hne Hall Hddp. exists (epoch_summary sh vs).
    split; [by apply (on_validation_epoch_end_local self sh vs e)|].
    by apply epoch_summary_dice.
  - intros vs0 vss Hok Hddp all_steps.
    exists (epoch_summary sh all_steps). eexists. split.
    + rewrite (on_validation_epoch_end_world self sh vs0 vss e) by done.
      by rewrite (world_summary_concat sh (vs0 :: vss)).
    + destruct (world_ok_concat sh _ Hok). by apply epoch_summary_dice.
Qed.

Lemma dice_of_reduction_witness :
  (∃ r dice,
     result_of (on_validation_epoch_end (sample_trainer (λ _, two_heads) false)
                  (map step_dict sample_steps)) = inr r ∧
     dict_get r "dice_per_class" = Some (SList dice) ∧
     dice !! 0%nat = Some (Num (Qc_of_Z 10 / Qc_of_Z 16)) ∧
     dice !! 1%nat = Some NaN) ∧
  (∃ r rounds dice,
     run_world (on_validation_epoch_end (sample_trainer (λ _, two_heads) true)
                  (map step_dict (take 1 sample_steps)))
               [on_validation_epoch_end (sample_trainer (λ _, two_heads) true)
                  (map step_dict (drop 1 sample_steps))]
     = Finished [inr r; inr r] rounds ∧
     dict_get r "dice_per_class" = Some (SList dice) ∧
     dice !! 0%nat = Some (Num (Qc_of_Z 10 / Qc_of_Z 16)) ∧
     dice !! 1%nat = Some NaN).
Proof.
  split.
  - destruct (dice_of_reduction (sample_trainer (λ _, two_heads) false)
                (sample_shape None) 0 eq_refl) as [Hlocal _].
    destruct (Hlocal sample_steps) as (r & Hr & dice & Hd & _ & Hcls & _);
      [done|apply sample_steps_shape|done|].
    exists r, dice. split; [done|]. split; [done|]. split.
    + destruct (Hcls 0%nat 5%N 1%N 5%N) as (_ & Hnum & _); [done..|].
      rewrite Hnum by done. by do 2 f_equal.
    + by destruct (Hcls 1%nat 0%N 0%N 0%N) as (_ & _ & ->).
  - destruct (dice_of_reduction (sample_trainer (λ _, two_heads) true)
                (sample_shape None) 0 eq_refl) as [_ Hworld].
    destruct (Hworld (take 1 sample_steps) [drop 1 sample_steps])
      as (r & rounds & Hr & dice & Hd & _ & Hcls & _);
      [split; [done|]; split; [|by left]; repeat constructor; done|done|].
    exists r, rounds, dice. split; [done|]. split; [done|]. split.
    + destruct (Hcls 0%nat 5%N 1%N 5%N) as (_ & Hnum & _); [done..|].
      rewrite Hnum by done. by do 2 f_equal.
    + by destruct (Hcls 1%nat 0%N 0%N 0%N) as (_ & _ & ->).
Defined.

(** C5.  Let tp, fp, fn, correct, total be the classification counts, for
    [k] > 0 classes, summed over all per-step results: those of the process
    when it is not distributed, those of all workers when it is.  The
    epoch-end reduction on well-shaped results returns a summary with
    accuracy = correct/total (0 when total is 0); per class precision =
    tp/(tp+fp), recall = tp/(tp+fn) and F1 = 2*precision*recall /
    (precision+recall), each 0 when its denominator is 0; and the macro
    averages, the means over the classes (no entry is not-a-number).  For
    tp=[2,0], fp=[1,0], fn=[0,3] with 7 correct of 10 this gives precision
    [2/3,0], recall [1,0], F1 [4/5,0], macro-F1 2/5 and accuracy 7/10. *)
Theorem classification_of_reduction {Params} (self : Trainer Params) (sh : Shape)
    (e k : nat) :
  current_epoch self = Some e → n_cls sh = Some k → (0 < k)%nat →
  (∀ vs, vs ≠ [] → Forall (has_shape sh) vs → is_ddp self = false →
     ∃ r, result_of (on_validation_epoch_end self (map step_dict vs)) = inr r ∧
          classification_entries k
            (col_sums (map sv_cls_tp vs)) (col_sums (map sv_cls_fp vs))
            (col_sums (map sv_cls_fn vs))
            (N_sum (map sv_cls_correct vs)) (N_sum (map sv_cls_total vs)) r) ∧
  (∀ vs0 vss, world_ok sh (vs0 :: vss) → is_ddp self = true →
     let all_steps := concat (vs0 :: vss) in
     ∃ r rounds,
       run_world (on_validation_epoch_end self (map step_dict vs0))
                 (map (λ vs, on_validation_epoch_end self (map step_dict vs)) vss)
       = Finished (map (λ _, inr r) (vs0 :: vss)) rounds ∧
       classification_entries k
         (col_sums (map sv_cls_tp all_steps)) (col_sums (map sv_cls_fp all_steps))
         (col_sums (map sv_cls_fn all_steps))
         (N_sum (map sv_cls_correct all_steps)) (N_sum (map sv_cls_total all_steps)) r) ∧
  (let r := result_of (on_validation_epoch_end (sample_trainer (λ _, two_heads) false)
                         [step_dict (sample_step 3 [4; 0]%N [1; 0]%N [2; 0]%N
                                                 (Some (sample_cls 7 10)))]) in
   ∃ s, r = inr s ∧
     dict_get s "cls_precision_per_class" = Some (SArr [Qc_of_Z 2 / Qc_of_Z 3; 0]) ∧
     dict_get s "cls_recall_per_class" = Some (SArr [1; 0]) ∧
     dict_get s "cls_f1_per_class" = Some (SArr [Qc_of_Z 4 / Qc_of_Z 5; 0]) ∧
     dict_get s "cls_macro_f1" = Some (SFloat (Num (Qc_of_Z 2 / Qc_of_Z 5))) ∧
     dict_get s "cls_accuracy" = Some (SFloat (Num (Qc_of_Z 7 / Qc_of_Z 10)))).
Proof.
  intros He Hk Hpos. split; [|split].
  - intros vs Hne Hall Hddp. exists (epoch_summary sh vs).
    split; [by apply (on_validation_epoch_end_local self sh vs e)|].
    by apply epoch_summary_classification.
  - intros vs0 vss Hok Hddp all_steps.
    exists (epoch_summary sh all_steps). eexists. split.
    + rewrite (on_validation_epoch_end_world self sh vs0 vss e) by done.
      by rewrite (world_summary_concat sh (vs0 :: vss)).
    + destruct (world_ok_concat sh _ Hok). by apply epoch_summary_classification.
  - eexists. split; [vm_compute; reflexivity|].
    repeat split; compute_done.
Qed.

Lemma classification_of_reduction_witness :
  (∃ r precision,
     result_of (on_validation_epoch_end (sample_trainer (λ _, two_heads) false)
                  (map step_dict [sample_step 3 [4; 0]%N [1; 0]%N [2; 0]%N
                                              (Some (sample_cls 7 10))])) = inr r ∧
     dict_get r "cls_precision_per_class" = Some (SArr precision) ∧
     precision !! 0%nat = Some (Qc_of_Z 2 / Qc_of_Z 3)) ∧
  (∃ r rounds recall,
     run_world (on_validation_epoch_end (sample_trainer (λ _, two_heads) true)
                  (map step_dict [sample_step 3 [4; 0]%N [1; 0]%N [2; 0]%N
                                              (Some (sample_cls 7 10))]))
               [on_validation_epoch_end (sample_trainer (λ _, two_heads) true)
                  (map step_dict [sample_step 5 [1; 0]%N [0; 0]%N [3; 0]%N
                                              (Some (sample_cls 7 10))])]
     = Finished [inr r; inr r] rounds ∧
     dict_get r "cls_recall_per_class" = Some (SArr recall) ∧
     recall !! 1%nat = Some 0 ∧
     dict_get r "cls_accuracy" = Some (SFloat (Num (Qc_of_Z 14 / Qc_of_Z 20)))).
Proof.
  split.
  - destruct (classification_of_reduction (sample_trainer (λ _, two_heads) false)
                (sample_shape (Some 2%nat)) 0 2 eq_refl eq_refl) as [Hlocal _]; [lia|].
    destruct (Hlocal [sample_step 3 [4; 0]%N [1; 0]%N [2; 0]%N (Some (sample_cls 7 10))])
      as (r & Hr & precision & recall & f1 & _ & Hp & _ & _ & _ & _ & _ & Hcls & _);
      [done|repeat constructor|done|].
    exists r, precision. split; [done|]. split; [done|].
    destruct (Hcls 0%nat 2%N 1%N 0%N) as (p & q & -> & _ & -> & _); [done..|].
    by f_equal.
  - destruct (classification_of_reduction (sample_trainer (λ _, two_heads) true)
                (sample_shape (Some 2%nat)) 0 2 eq_refl eq_refl) as (_ & Hworld & _); [lia|].
    destruct (Hworld [sample_step 3 [4; 0]%N [1; 0]%N [2; 0]%N (Some (sample_cls 7 10))]
                     [[sample_step 5 [1; 0]%N [0; 0]%N [3; 0]%N (Some (sample_cls 7 10))]])
      as (r & rounds & Hr & precision & recall & f1 & Hacc & _ & Hrec & _ & _ & _ & _
          & Hcls & _);
      [split; [done|]; split; [|by left]; repeat constructor; done|done|].
    exists r, rounds, recall. split; [done|]. split; [done|]. split.
    + destruct (Hcls 1%nat 0%N 0%N 6%N) as (p & q & _ & -> & _ & -> & _); [done..|].
      compute_done.
    + rewrite Hacc. compute_done.
Defined.

(** ** Float32 sums of counts *)

Lemma Qc_of_Z_this (n : Z) : this (Qc_of_Z n) = (n # 1)%Q.
Proof.
  reflexivity.
Qed.

Lemma round_half_even_integer (p : Z) : round_half_even p 1 = p.
Proof.
  unfold round_half_even. rewrite Z.mod_1_r, Z.div_1_r. reflexivity.
Qed.

(** A positive integer below [2 ^ prec] is a number of the format. *)
Lemma round_to_integer (prec n : Z) :
  (0 < n < 2 ^ prec)%Z → round_to prec (Qc_of_Z n) = Qc_of_Z n.
Proof.
  intros [Hpos Hlt]. unfold round_to. rewrite Qc_of_Z_this. cbn [Qnum Qden].
  rewrite (proj2 (Z.eqb_neq n 0)) by lia. rewrite (proj2 (Z.ltb_lt 0 n)) by lia.
  unfold round_pos. change (Z.log2 1) with 0%Z. rewrite Z.sub_0_r.
  assert (Hprec : (0 < prec)%Z).
  { destruct (Z.le_gt_cases prec 0) as [Hle|]; [|done].
    assert (2 ^ prec ≤ 1)%Z; [|lia].
    destruct (Z.eq_dec prec 0%Z) as [->|]; [done|].
    rewrite Z.pow_neg_r by lia. lia. }
  pose proof (Z.log2_nonneg n) as Hd0.
  assert (Hd : (Z.log2 n < prec)%Z) by (apply Z.log2_lt_pow2; lia).
  destruct (Z.log2_spec n Hpos) as [Hlow _].
  rewrite (Z.max_r 0 (Z.log2 n)) by lia. rewrite (Z.max_l 0 (- Z.log2 n)) by lia.
  rewrite Z.pow_0_r, Z.mul_1_l, Z.mul_1_r.
  rewrite (proj2 (Z.leb_le _ _) Hlow).
  set (s := (prec - 1 - Z.log2 n)%Z).
  rewrite (Z.max_r 0 s) by lia. rewrite (Z.max_l 0 (- s)) by lia.
  rewrite Z.pow_0_r, round_half_even_integer, Z.mul_1_r.
  rewrite Z2Qc_inj_mul.
  assert (Hne : Qc_of_Z (2 ^ s) ≠ 0).
  { rewrite <-Z2Qc_inj_0, Z2Qc_inj_iff. apply Z.pow_nonzero; lia. }
  by field.
Qed.

Lemma float32_count (n : N) :
  (n ≤ float32_max_count)%N → float32 (Qc_of_N n) = Qc_of_N n.
Proof.
  intros Hn. unfold float32, Qc_of_N.
  destruct (N.eq_dec n 0%N) as [->|Hz]; [by apply Qc_is_canon|].
  destruct (N.eq_dec n float32_max_count) as [->|Hmax]; [by apply Qc_is_canon|].
  apply round_to_integer. unfold float32_max_count in *. lia.
Qed.

Lemma float32_add_counts (a b : N) :
  (a + b ≤ float32_max_count)%N →
  Float32.add (Qc_of_N a) (Qc_of_N b) = Qc_of_N (a + b).
Proof.
  intros Hab. unfold Float32.add. rewrite <-Qc_of_N_add. by apply float32_count.
Qed.

Lemma float32_array_exact (l : list N) :
  within_float32 l → Float32.array l = map Qc_of_N l.
Proof.
  intros Hl. unfold Float32.array. apply map_ext_Forall.
  eapply Forall_impl; [exact Hl|]. intros n Hn. by apply float32_count.
Qed.

Lemma summed_counts_nil (k : nat) : summed_counts k [] = replicate k 0%N.
Proof.
  unfold summed_counts. cbn [map N_sum foldr].
  apply list_eq. intros c. rewrite list_lookup_fmap.
  destruct (decide (c < k)%nat) as [Hc|Hc].
  - rewrite lookup_seq_lt, lookup_replicate_2 by done. done.
  - rewrite lookup_seq_ge by lia.
    symmetry. apply lookup_replicate_None. lia.
Qed.

Lemma summed_counts_cons (k : nat) (r : list N) (m : list (list N)) :
  length r = k →
  summed_counts k (r :: m) = zip_with N.add r (summed_counts k m).
Proof.
  intros Hr. unfold summed_counts. apply list_eq. intros c.
  rewrite lookup_zip_with, !list_lookup_fmap.
  destruct (decide (c < k)%nat) as [Hc|Hc].
  - rewrite lookup_seq_lt by done. cbn [fmap option_fmap option_map map N_sum foldr].
    destruct (lookup_lt_is_Some_2 r c) as [x Hx]; [lia|]. simpl. by rewrite Hx.
  - rewrite lookup_seq_ge by lia. cbn.
    by destruct (r !! c).
Qed.

(** The sum over axis 0 is the elementwise sum of the rows. *)
Lemma col_sums_summed (k : nat) (m : list (list N)) :
  m ≠ [] → Forall (λ r, length r = k) m → col_sums m = summed_counts k m.
Proof.
  intros Hne Hall. rewrite (col_sums_foldr m k) by done. clear Hne.
  induction Hall as [|r m Hr Hm IH]; cbn [foldr].
  - by rewrite summed_counts_nil.
  - by rewrite IH, summed_counts_cons.
Qed.

Lemma within_float32_add (a b : list N) :
  length a = length b → within_float32 (zip_with N.add a b) →
  within_float32 a ∧ within_float32 b.
Proof.
  revert b. induction a as [|x a IH]; intros [|y b] Hlen Hw; try done.
  cbn in Hlen, Hw. apply Forall_cons in Hw as [Hxy Hw].
  destruct (IH b) as [Ha Hb]; [lia|done|].
  split; constructor; try done; lia.
Qed.

Lemma float32_vadd_counts (a b : list N) :
  within_float32 (zip_with N.add a b) →
  zip_with Float32.add (map Qc_of_N a) (map Qc_of_N b) = map Qc_of_N (zip_with N.add a b).
Proof.
  revert b. induction a as [|x a IH]; intros [|y b] Hw; try done.
  cbn in Hw. apply Forall_cons in Hw as [Hxy Hw]. cbn [map zip_with].
  by rewrite float32_add_counts, IH.
Qed.

Lemma length_foldl_vadd (r : list N) (rs : list (list N)) (k : nat) :
  length r = k → Forall (λ x, length x = k) rs →
  length (foldl (zip_with N.add) r rs) = k.
Proof.
  intros Hr Hrs. revert r Hr. induction Hrs as [|x rs Hx Hrs IH]; intros r Hr; simpl; [done|].
  apply IH. rewrite length_zip_with. lia.
Qed.

(** As long as no sum passes [2 ^ 24], the float32 sum over axis 0 of count
    arrays is the exact sum: every partial sum is an integer the format
    holds. *)
Lemma float32_np_sum0_counts (k : nat) (m : list (list N)) :
  m ≠ [] → Forall (λ r, length r = k) m → within_float32 (col_sums m) →
  Float32.np_sum0 (map Float32.array m) = map Qc_of_N (col_sums m).
Proof.
  intros Hne Hall. destruct m as [|r rs]; [done|]. clear Hne.
  apply Forall_cons in Hall as [Hr Hrs]. cbn [map Float32.np_sum0 col_sums].
  induction rs as [|x rs IH] using rev_ind; intros Hw.
  - cbn. by apply float32_array_exact.
  - apply Forall_app in Hrs as [Hrs Hx]. apply Forall_inv in Hx.
    rewrite map_app, !foldl_app in *. cbn [map foldl] in *.
    apply within_float32_add in Hw as Hparts;
      [|by rewrite (length_foldl_vadd r rs k), Hx].
    destruct Hparts as [Hsum Hwx].
    rewrite IH, (float32_array_exact x) by done.
    by apply float32_vadd_counts.
Qed.

(** ** Summing the steps, then dividing *)

Lemma summed_counts_views (sh : Shape) (vs : list StepView) :
  vs ≠ [] → Forall (has_shape sh) vs →
  col_sums (map v_tp vs) = summed_counts (n_fg sh) (map v_tp vs) ∧
  col_sums (map v_fp vs) = summed_counts (n_fg sh) (map v_fp vs) ∧
  col_sums (map v_fn vs) = summed_counts (n_fg sh) (map v_fn vs).
Proof.
  intros Hne Hall.
  repeat split; (apply col_sums_summed; [by destruct vs|]); apply Forall_fmap;
    (eapply Forall_impl; [exact Hall|]); by intros v (? & ? & ? & _).
Qed.

Lemma summed_counts_single (k : nat) (r : list N) :
  length r = k → summed_counts k [r] = r.
Proof.
  intros Hr. rewrite <-(col_sums_summed k [r]); [done|done|by constructor].
Qed.

(** The float32 sums over the steps of count arrays whose sums stay within
    the integers float32 holds. *)
Lemma float32_sum_views (f : StepView → list N) (k : nat) (vs : list StepView) :
  vs ≠ [] → Forall (λ v, length (f v) = k) vs →
  within_float32 (summed_counts k (map f vs)) →
  Float32.np_sum0 (map (λ v, Float32.array (f v)) vs)
  = Float32.array (summed_counts k (map f vs)).
Proof.
  intros Hne Hall Hw.
  assert (Hrows : Forall (λ r, length r = k) (map f vs)) by (by apply Forall_fmap).
  assert (Hm : map f vs ≠ []) by (by destruct vs).
  rewrite (float32_array_exact _ Hw).
  rewrite <-(col_sums_summed k (map f vs)) in * by done.
  rewrite <-(float32_np_sum0_counts k (map f vs)) by done.
  by rewrite <-list_fmap_compose.
Qed.

(** C8, amended.  Let tp, fp, fn be the elementwise sums of the per-step
    segmentation counts, none of them above 2^24, the range in which a
    float32 holds every integer.  A non-distributed process returns for the
    well-shaped per-step results [vs] and for any single step [whole] whose
    count arrays are tp, fp, fn the same Dice per class, 2*tp/(2*tp+fp+fn)
    of these sums (not-a-number for a zero denominator), and the same mean
    foreground Dice.  In float32 the sum over axis 0 of the per-step arrays
    is exactly tp, fp, fn in this range, so that the Dice computed from the
    summed steps is the Dice computed from the single step. *)
Theorem dice_of_summed_steps {Params} (self : Trainer Params) (sh : Shape)
    (vs : list StepView) (whole : StepView) (e : nat) :
  vs ≠ [] → Forall (has_shape sh) vs →
  is_ddp self = false → current_epoch self = Some e →
  let tp := summed_counts (n_fg sh) (map v_tp vs) in
  let fp := summed_counts (n_fg sh) (map v_fp vs) in
  let fn := summed_counts (n_fg sh) (map v_fn vs) in
  within_float32 tp → within_float32 fp → within_float32 fn →
  has_shape sh whole → v_tp whole = tp → v_fp whole = fp → v_fn whole = fn →
  (∃ r r',
     result_of (on_validation_epoch_end self (map step_dict vs)) = inr r ∧
     result_of (on_validation_epoch_end self [step_dict whole]) = inr r' ∧
     dice_entries tp fp fn r ∧ dice_entries tp fp fn r' ∧
     dict_get r "dice_per_class" = dict_get r' "dice_per_class" ∧
     dict_get r "mean_fg_dice" = dict_get r' "mean_fg_dice") ∧
  let sum f := Float32.np_sum0 (map (λ v, Float32.array (f v)) vs) in
  sum v_tp = Float32.array tp ∧ sum v_fp = Float32.array fp ∧
  sum v_fn = Float32.array fn ∧
  Float32.dice_per_class (sum v_tp) (sum v_fp) (sum v_fn)
  = Float32.dice_per_class (Float32.np_sum0 [Float32.array (v_tp whole)])
                           (Float32.np_sum0 [Float32.array (v_fp whole)])
                           (Float32.np_sum0 [Float32.array (v_fn whole)]).
Proof.
  intros Hne Hall Hddp He tp fp fn Hwtp Hwfp Hwfn Hwhole Htp Hfp Hfn.
  destruct (summed_counts_views sh vs Hne Hall) as (Hctp & Hcfp & Hcfn).
  fold tp fp fn in Hctp, Hcfp, Hcfn.
  assert (Hone : Forall (has_shape sh) [whole]) by (by constructor).
  assert (Hlens : Forall (λ v, length (v_tp v) = n_fg sh) vs ∧
                  Forall (λ v, length (v_fp v) = n_fg sh) vs ∧
                  Forall (λ v, length (v_fn v) = n_fg sh) vs).
  { repeat split; (eapply Forall_impl; [exact Hall|]); by intros v (? & ? & ? & _). }
  destruct Hlens as (Hltp & Hlfp & Hlfn).
  split.
  - exists (epoch_summary sh vs), (epoch_summary sh [whole]).
    split; [by apply (on_validation_epoch_end_local self sh vs e)|].
    split; [by apply (on_validation_epoch_end_local self sh [whole] e)|].
    pose proof (epoch_summary_dice sh vs Hne Hall) as Hd.
    rewrite Hctp, Hcfp, Hcfn in Hd.
    pose proof (epoch_summary_dice sh [whole] ltac:(done) Hone) as Hd'.
    cbn [map col_sums foldl] in Hd'. rewrite Htp, Hfp, Hfn in Hd'.
    split; [done|]. split; [done|].
    cbn [epoch_summary seg_part app dict_get String.eqb Ascii.eqb Bool.eqb
         map col_sums foldl].
    by rewrite Hctp, Hcfp, Hcfn, Htp, Hfp, Hfn.
  - cbv beta zeta.
    rewrite (float32_sum_views v_tp (n_fg sh) vs), (float32_sum_views v_fp (n_fg sh) vs),
      (float32_sum_views v_fn (n_fg sh) vs) by done.
    fold tp fp fn. do 3 (split; [reflexivity|]).
    cbn [Float32.np_sum0 foldl]. by rewrite Htp, Hfp, Hfn.
Qed.

Lemma dice_of_summed_steps_witness :
  ∃ r r',
    result_of (on_validation_epoch_end (sample_trainer (λ _, two_heads) false)
                 (map step_dict sample_steps)) = inr r ∧
    result_of (on_validation_epoch_end (sample_trainer (λ _, two_heads) false)
                 [step_dict sample_whole]) = inr r' ∧
    dice_entries [5; 0]%N [1; 0]%N [5; 0]%N r ∧
    dict_get r "dice_per_class" = dict_get r' "dice_per_class".
Proof.
  destruct (dice_of_summed_steps (sample_trainer (λ _, two_heads) false)
              (sample_shape None) sample_steps sample_whole 0)
    as [(r & r' & Hr & Hr' & Hd & _ & Heq & _) _];
    [done|apply sample_steps_shape|done|done
    |repeat constructor; done|repeat constructor; done|repeat constructor; done
    |repeat split; done|done|done|done|].
  by exists r, r'.
Defined.

(** C8, as stated, fails in float32, the arithmetic of the count arrays of
    a label-based step.  The three steps have the true positives 2^24, 1, 1
    and the false negatives 2^25, 0, 0; every count and every elementwise sum
    is a number float32 holds.  Adding the steps in turn gives 2^24 true
    positives (2^24 + 1 rounds back to 2^24, twice) and the Dice 1/2; the
    single step that holds the sums 2^24 + 2 and 2^25 gives the Dice
    1/2 + 2^-24. *)
Lemma summed_steps_round_in_float32 :
  let sum m := Float32.np_sum0 (map Float32.array m) in
  let tp := summed_counts 1 large_tp in
  let fp := summed_counts 1 large_fp in
  let fn := summed_counts 1 large_fn in
  tp = [2 ^ 24 + 2]%N ∧ fp = [0]%N ∧ fn = [2 ^ 25]%N ∧
  Float32.array tp = [Qc_of_Z (2 ^ 24 + 2)] ∧
  sum large_tp = [Qc_of_Z (2 ^ 24)] ∧
  Float32.dice_per_class (sum large_tp) (sum large_fp) (sum large_fn)
  = [Num (Qc_of_Z 1 / Qc_of_Z 2)] ∧
  Float32.dice_per_class (Float32.np_sum0 [Float32.array tp])
                         (Float32.np_sum0 [Float32.array fp])
                         (Float32.np_sum0 [Float32.array fn])
  = [Num (Qc_of_Z 1 / Qc_of_Z 2 + Qc_of_Z 1 / Qc_of_Z (2 ^ 24))] ∧
  Float32.dice_per_class (sum large_tp) (sum large_fp) (sum large_fn)
  ≠ Float32.dice_per_class (Float32.np_sum0 [Float32.array tp])
                           (Float32.np_sum0 [Float32.array fp])
                           (Float32.np_sum0 [Float32.array fn]).
Proof.
  intros sum tp fp fn.
  do 3 (split; [reflexivity|]).
  split; [vm_compute; f_equal; by apply Qc_is_canon|].
  split; [vm_compute; f_equal; by apply Qc_is_canon|].
  assert (H1 : Float32.dice_per_class (sum large_tp) (sum large_fp) (sum large_fn)
               = [Num (Qc_of_Z 1 / Qc_of_Z 2)]).
  { vm_compute. do 2 f_equal. by apply Qc_is_canon. }
  assert (H2 : Float32.dice_per_class (Float32.np_sum0 [Float32.array tp])
                 (Float32.np_sum0 [Float32.array fp]) (Float32.np_sum0 [Float32.array fn])
               = [Num (Qc_of_Z 1 / Qc_of_Z 2 + Qc_of_Z 1 / Qc_of_Z (2 ^ 24))]).
  { vm_compute. do 2 f_equal. by apply Qc_is_canon. }
  split; [done|]. split; [done|].
  rewrite H1, H2. by intros [= H].
Qed.

(** ** One process and two workers *)

Lemma length_summed_counts (k : nat) (m : list (list N)) :
  length (summed_counts k m) = k.
Proof. unfold summed_counts. by rewrite length_map, length_seq. Qed.

Lemma summed_counts_app (k : nat) (l1 l2 : list (list N)) :
  Forall (λ r, length r = k) l1 →
  summed_counts k (l1 ++ l2)
  = zip_with N.add (summed_counts k l1) (summed_counts k l2).
Proof.
  induction 1 as [|r l1 Hr Hl1 IH]; cbn [app].
  - rewrite summed_counts_nil, vadd_comm, vadd_zero_r; [done|].
    apply length_summed_counts.
  - by rewrite !summed_counts_cons, IH, vadd_assoc.
Qed.

Lemma summed_counts_permutation (k : nat) (m m' : list (list N)) :
  m ≡ₚ m' → summed_counts k m = summed_counts k m'.
Proof.
  intros Hperm. unfold summed_counts. apply map_ext. intros c.
  apply N_sum_permutation. by apply Permutation_map.
Qed.

(** The float32 sums of the counts in a single process and across two
    workers, within the integers float32 holds: adding the steps in turn
    and adding the two local sums give the same, exact, sum. *)
Lemma float32_sum_shards (f : StepView → list N) (k : nat) (vs vs1 vs2 : list StepView) :
  vs ≡ₚ vs1 ++ vs2 → vs1 ≠ [] → vs2 ≠ [] →
  Forall (λ v, length (f v) = k) vs →
  within_float32 (summed_counts k (map f vs)) →
  let sum ws := Float32.np_sum0 (map (λ v, Float32.array (f v)) ws) in
  sum vs = Float32.array (summed_counts k (map f vs)) ∧
  Float32.np_sum0 [sum vs1; sum vs2] = Float32.array (summed_counts k (map f vs)).
Proof.
  intros Hperm Hne1 Hne2 Hall Hw sum.
  assert (Hne : vs ≠ []).
  { intros ->. apply Permutation_nil_l in Hperm. by destruct vs1. }
  assert (Hall12 : Forall (λ v, length (f v) = k) (vs1 ++ vs2)) by (by rewrite <-Hperm).
  apply Forall_app in Hall12 as [Hall1 Hall2].
  split; [by apply float32_sum_views|].
  assert (Htotal : summed_counts k (map f vs)
                   = zip_with N.add (summed_counts k (map f vs1))
                                    (summed_counts k (map f vs2))).
  { rewrite (summed_counts_permutation k _ (map f (vs1 ++ vs2)))
      by (by apply Permutation_map).
    rewrite map_app. apply summed_counts_app. by apply Forall_fmap. }
  rewrite Htotal in Hw |- *.
  destruct (within_float32_add _ _ ltac:(by rewrite !length_summed_counts) Hw)
    as [Hw1 Hw2].
  unfold sum. rewrite (float32_sum_views f k vs1), (float32_sum_views f k vs2) by done.
  rewrite (float32_array_exact _ Hw).
  change [Float32.array (summed_counts k (map f vs1));
          Float32.array (summed_counts k (map f vs2))]
    with (map Float32.array [summed_counts k (map f vs1); summed_counts k (map f vs2)]).
  rewrite (float32_np_sum0_counts k); [done|done| |done].
  repeat constructor; apply length_summed_counts.
Qed.

(** C7, amended.  A single non-distributed process reduces the per-step
    results [vs]; two distributed workers hold a partition of [vs] into two
    non-empty shards.  Where a loss component is reported as a Python float
    the shards are of one size, and no summed segmentation count is above
    2^24, the range in which a float32 holds every integer.  Then both runs
    return a summary, the same on both workers.  The entries computed from
    the counts agree: Dice per class, 2*tp/(2*tp+fp+fn) of the summed counts,
    mean foreground Dice, and the classification metrics (accuracy,
    precision, recall, F1 and their macro averages, of the summed
    classification counts).  Every loss mean
    is np.mean of the per-step values, taken in the order of [vs] by the
    single process and shard after shard by the workers: when the shards are
    the first steps and the remaining steps, in this order, the two
    summaries are equal.  In float32 the sums over the steps and the sum of
    the two local sums are the exact sums of the counts, and the Dice
    computed from them is the same. *)
Theorem single_worker_matches_two_workers {Params} (single ddp : Trainer Params)
    (sh : Shape) (vs vs1 vs2 : list StepView) (e e' : nat) :
  is_ddp single = false → current_epoch single = Some e →
  is_ddp ddp = true → current_epoch ddp = Some e' →
  vs ≡ₚ vs1 ++ vs2 → vs1 ≠ [] → vs2 ≠ [] →
  Forall (has_shape sh) vs →
  (loss_is_tensor sh && seg_loss_is_tensor sh && cls_loss_is_tensor sh = true
   ∨ length vs1 = length vs2) →
  let total f := summed_counts (n_fg sh) (map f vs) in
  within_float32 (total v_tp) → within_float32 (total v_fp) →
  within_float32 (total v_fn) →
  (∃ r r' rounds,
     result_of (on_validation_epoch_end single (map step_dict vs)) = inr r ∧
     run_world (on_validation_epoch_end ddp (map step_dict vs1))
               [on_validation_epoch_end ddp (map step_dict vs2)]
     = Finished [inr r'; inr r'] rounds ∧
     dice_entries (total v_tp) (total v_fp) (total v_fn) r ∧
     (∀ k, n_cls sh = Some k → (0 < k)%nat →
        classification_entries k
          (summed_counts k (map sv_cls_tp vs)) (summed_counts k (map sv_cls_fp vs))
          (summed_counts k (map sv_cls_fn vs))
          (N_sum (map sv_cls_correct vs)) (N_sum (map sv_cls_total vs)) r) ∧
     (∀ key, key ∈ count_metrics → dict_get r' key = dict_get r key) ∧
     (∀ key f, (key, f) ∈ loss_means →
        dict_get r key = Some (SFloat (np_mean (map (λ v, lval_num (f v)) vs))) ∧
        dict_get r' key
        = Some (SFloat (np_mean (map (λ v, lval_num (f v)) (vs1 ++ vs2))))) ∧
     (vs = vs1 ++ vs2 → r' = r)) ∧
  (∀ f, f ∈ [v_tp; v_fp; v_fn] →
     let sum ws := Float32.np_sum0 (map (λ v, Float32.array (f v)) ws) in
     sum vs = Float32.array (total f) ∧
     Float32.np_sum0 [sum vs1; sum vs2] = Float32.array (total f)) ∧
  (let sum f ws := Float32.np_sum0 (map (λ v, Float32.array (f v)) ws) in
   Float32.dice_per_class (sum v_tp vs) (sum v_fp vs) (sum v_fn vs)
   = Float32.dice_per_class (Float32.np_sum0 [sum v_tp vs1; sum v_tp vs2])
                            (Float32.np_sum0 [sum v_fp vs1; sum v_fp vs2])
                            (Float32.np_sum0 [sum v_fn vs1; sum v_fn vs2])).
Proof.
  intros Hs He Hd He' Hperm Hne1 Hne2 Hall Hkind total Hwtp Hwfp Hwfn.
  assert (Hne : vs ≠ []).
  { intros ->. apply Permutation_nil_l in Hperm. by destruct vs1. }
  assert (Hall12 : Forall (has_shape sh) (vs1 ++ vs2)) by (by rewrite <-Hperm).
  pose proof Hall12 as Hall12'. apply Forall_app in Hall12' as [Hall1 Hall2].
  assert (Hne12 : vs1 ++ vs2 ≠ []) by (by destruct vs1).
  assert (Hok : world_ok sh [vs1; vs2]).
  { split; [done|]. split; [by repeat constructor|].
    destruct Hkind as [Hk|Hlen]; [by left|]. right. exists (length vs1).
    by repeat constructor. }
  assert (Hworld : world_summary sh [vs1; vs2] = epoch_summary sh (vs1 ++ vs2)).
  { rewrite (world_summary_concat sh [vs1; vs2]) by done.
    cbn [concat]. by rewrite app_nil_r. }
  assert (Hsame : epoch_summary sh (vs1 ++ vs2) = epoch_summary sh vs).
  { symmetry. by apply epoch_summary_permutation. }
  split.
  - exists (epoch_summary sh vs), (epoch_summary sh (vs1 ++ vs2)). eexists.
    split; [by apply (on_validation_epoch_end_local single sh vs e)|].
    split.
    { change [on_validation_epoch_end ddp (map step_dict vs2)]
        with (map (λ vs, on_validation_epoch_end ddp (map step_dict vs)) [vs2]).
      rewrite (on_validation_epoch_end_world ddp sh vs1 [vs2] e') by done.
      rewrite Hworld. reflexivity. }
    split.
    { destruct (summed_counts_views sh vs Hne Hall) as (Htp & Hfp & Hfn).
      unfold total. rewrite <-Htp, <-Hfp, <-Hfn. by apply epoch_summary_dice. }
    split.
    { intros k Hk Hpos.
      destruct (has_shape_sv_cls sh vs k Hall Hk) as (Htp & Hfp & Hfn).
      assert (Hm : ∀ f : StepView → list N, map f vs ≠ []) by (intros f; by destruct vs).
      rewrite <-(col_sums_summed k (map sv_cls_tp vs)),
        <-(col_sums_summed k (map sv_cls_fp vs)),
        <-(col_sums_summed k (map sv_cls_fn vs));
        [|first [apply Hm|by apply Forall_fmap]..].
      by apply epoch_summary_classification. }
    split; [intros key _; by rewrite Hsame|].
    split; [|intros _; exact Hsame].
    intros key f Hin. unfold loss_means in Hin.
    repeat (apply elem_of_cons in Hin as [[= -> ->]|Hin]; [by split|]).
    by apply elem_of_nil in Hin.
  - assert (Hfloat : ∀ f, f ∈ [v_tp; v_fp; v_fn] →
            let sum ws := Float32.np_sum0 (map (λ v, Float32.array (f v)) ws) in
            sum vs = Float32.array (total f) ∧
            Float32.np_sum0 [sum vs1; sum vs2] = Float32.array (total f)).
    { intros f Hf. apply (float32_sum_shards f (n_fg sh)); try done.
      + (eapply Forall_impl; [exact Hall|]). intros v (? & ? & ? & _).
        repeat (apply elem_of_cons in Hf as [->|Hf]; [done|]).
        by apply elem_of_nil in Hf.
      + repeat (apply elem_of_cons in Hf as [->|Hf]; [done|]).
        by apply elem_of_nil in Hf. }
    split; [exact Hfloat|]. cbv beta zeta.
    destruct (Hfloat v_tp ltac:(repeat constructor)) as [-> ->].
    destruct (Hfloat v_fp ltac:(repeat constructor)) as [-> ->].
    by destruct (Hfloat v_fn ltac:(repeat constructor)) as [-> ->].
Qed.

Lemma single_worker_matches_two_workers_witness :
  ∃ r rounds,
    result_of (on_validation_epoch_end (sample_trainer (λ _, two_heads) false)
                 (map step_dict sample_steps)) = inr r ∧
    run_world (on_validation_epoch_end (sample_trainer (λ _, two_heads) true)
                 (map step_dict (take 1 sample_steps)))
              [on_validation_epoch_end (sample_trainer (λ _, two_heads) true)
                 (map step_dict (drop 1 sample_steps))]
    = Finished [inr r; inr r] rounds ∧
    dice_entries [5; 0]%N [1; 0]%N [5; 0]%N r.
Proof.
  destruct (single_worker_matches_two_workers
              (sample_trainer (λ _, two_heads) false) (sample_trainer (λ _, two_heads) true)
              (sample_shape None) sample_steps (take 1 sample_steps) (drop 1 sample_steps)
              0 0) as [(r & r' & rounds & Hr & Hw & Hd & _ & _ & _ & Heq) _];
    [done|done|done|done|done|done|done|apply sample_steps_shape|by left
    |repeat constructor; done|repeat constructor; done|repeat constructor; done|].
  rewrite (Heq eq_refl) in Hw.
  exists r, rounds. split; [exact Hr|]. split; [exact Hw|exact Hd].
Defined.

(** C7, as stated, fails.  The three per-step results report the total loss
    as the Python float 0.0.  A single process returns the epoch summary; of
    two workers holding the first two and the last of these results, each
    raises [ValueError] when it stacks the gathered loss lists, of lengths 2
    and 1.  And in float32 the counts themselves differ past 2^24: the true
    positives 2^24, 1, 1 added in turn by one process give 2^24, the local
    sums 2^24 and 2 of two workers give 2^24 + 2. *)
Lemma two_workers_differ_from_one_process :
  let single := sample_trainer (λ _, two_heads) false in
  let ddp := sample_trainer (λ _, two_heads) true in
  float_loss_steps = take 2 float_loss_steps ++ drop 2 float_loss_steps ∧
  (∃ r, result_of (on_validation_epoch_end single (map step_dict float_loss_steps))
        = inr r) ∧
  (∃ rounds,
     run_world (on_validation_epoch_end ddp (map step_dict (take 2 float_loss_steps)))
               [on_validation_epoch_end ddp (map step_dict (drop 2 float_loss_steps))]
     = Finished [inl ValueError; inl ValueError] rounds) ∧
  let sum m := Float32.np_sum0 (map Float32.array m) in
  sum large_tp = [Qc_of_Z (2 ^ 24)] ∧
  Float32.np_sum0 [sum (take 1 large_tp); sum (drop 1 large_tp)]
  = [Qc_of_Z (2 ^ 24 + 2)] ∧
  sum large_tp ≠ Float32.np_sum0 [sum (take 1 large_tp); sum (drop 1 large_tp)].
Proof.
  intros single ddp. split; [reflexivity|]. split; [|split].
  - assert (H : match result_of (on_validation_epoch_end single
                                   (map step_dict float_loss_steps)) with
                | inr _ => True
                | inl _ => False
                end) by (vm_compute; exact I).
    destruct (result_of _) as [?|r]; [done|by exists r].
  - eexists. vm_compute. reflexivity.
  - intros sum.
    assert (H1 : sum large_tp = [Qc_of_Z (2 ^ 24)]).
    { vm_compute. f_equal. by apply Qc_is_canon. }
    assert (H2 : Float32.np_sum0 [sum (take 1 large_tp); sum (drop 1 large_tp)]
                 = [Qc_of_Z (2 ^ 24 + 2)]).
    { vm_compute. f_equal. by apply Qc_is_canon. }
    split; [done|]. split; [done|]. rewrite H1, H2. by intros [= H].
Qed.

(** * Further properties of the trainer *)

(** ** Building the network *)

Section ArchitectureFacts.
Context {Obj Net : Type} {arch : Arch Obj Net}.
Implicit Types (kw : gmap string (kwval Obj)) (req : list string).

(** What the loop over the names to import does to the keyword arguments. *)
Lemma locate_import_result kw ri kw' :
  result_of (locate_import kw ri) = inr kw' →
  ∃ v, kw !! ri = Some v ∧
       ((v = KNone ∧ kw' = kw) ∨
        (v ≠ KNone ∧ ∃ w, pydoc_locate v = inr w ∧ kw' = <[ri := w]> kw)).
Proof.
  unfold locate_import. destruct (kw !! ri) as [v|] eqn:Hv; [|done].
  cbn [or_raise]. rewrite bind_ret. intros Hr. exists v. split; [done|].
  destruct v as [|s|o].
  - injection Hr as <-. by left.
  - rewrite result_of_bind in Hr.
    destruct (pydoc_locate (KStr s)) as [e|w] eqn:Hw; [done|].
    injection Hr as <-. right. split; [done|]. by exists w.
  - rewrite result_of_bind in Hr.
    destruct (pydoc_locate (KObj o)) as [e|w] eqn:Hw; [done|].
    injection Hr as <-. right. split; [done|]. by exists w.
Qed.

Lemma located_kwargs req : ∀ kw kw',
  result_of (foldP locate_import req kw) = inr kw' →
  dom kw' = dom kw ∧
  (∀ k, k ∈ req → is_Some (kw !! k)) ∧
  (∀ k, k ∉ req → kw' !! k = kw !! k) ∧
  (∀ k, kw !! k = Some KNone → kw' !! k = Some KNone).
Proof.
  induction req as [|ri req IH]; intros kw kw'; simpl.
  - intros [= <-]. repeat split; try done. intros k Hk. by apply elem_of_nil in Hk.
  - rewrite result_of_bind.
    destruct (result_of (locate_import kw ri)) as [e|kw1] eqn:H1; [done|].
    intros Hrest. apply IH in Hrest as (Hdom & Hreq & Hout & Hnone).
    apply locate_import_result in H1 as (v & Hv & Hcase).
    assert (Hdom1 : dom kw1 = dom kw).
    { destruct Hcase as [[_ ->]|(_ & w & _ & ->)]; [done|].
      by apply dom_insert_lookup_L. }
    repeat split.
    + congruence.
    + intros k Hk. apply elem_of_cons in Hk as [->|Hk]; [by eexists|].
      apply elem_of_dom. rewrite <-Hdom1. apply elem_of_dom. by apply Hreq.
    + intros k Hk. apply not_elem_of_cons in Hk as [Hne Hk]. rewrite (Hout k Hk).
      destruct Hcase as [[_ ->]|(_ & w & _ & ->)]; [done|].
      by rewrite lookup_insert_ne.
    + intros k Hk. apply Hnone.
      destruct Hcase as [[_ ->]|(Hnn & w & _ & ->)]; [done|].
      destruct (decide (ri = k)) as [->|Hne]; [congruence|].
      by rewrite lookup_insert_ne.
Qed.

(** The loop stops at the first name that is no key of the keyword
    arguments. *)
Lemma locate_missing_key pre ri post : ∀ kw,
  NoDup pre →
  (∀ k, k ∈ pre → ∃ v, kw !! k = Some v ∧ (v = KNone ∨ ∃ w, pydoc_locate v = inr w)) →
  kw !! ri = None →
  result_of (foldP locate_import (pre ++ ri :: post) kw) = inl (KeyError ri).
Proof.
  induction pre as [|k pre IH]; intros kw Hnd Hpre Hri; simpl.
  - rewrite result_of_bind. unfold locate_import. by rewrite Hri.
  - rewrite result_of_bind.
    apply NoDup_cons in Hnd as [Hk Hnd].
    destruct (Hpre k) as (v & Hv & Hloc); [apply elem_of_cons; by left|].
    assert (Hstep : ∃ kw1, result_of (locate_import kw k) = inr kw1 ∧
                           ∀ j, j ≠ k → kw1 !! j = kw !! j).
    { unfold locate_import. rewrite Hv. cbn [or_raise]. rewrite bind_ret.
      destruct Hloc as [->|[w Hw]]; [by exists kw|].
      destruct v as [|s|o]; [by exists kw|..];
        (exists (<[k := w]> kw); rewrite result_of_bind, Hw; split; [done|];
         intros j Hj; by rewrite lookup_insert_ne). }
    destruct Hstep as (kw1 & -> & Hsame). apply IH; [done| |].
    + intros j Hj. rewrite Hsame by (intros ->; done).
      apply Hpre, elem_of_cons. by right.
    + rewrite Hsame; [done|]. intros ->. by rewrite Hv in Hri.
Qed.

Lemma unknown_architecture (name : string) :
  name ∉ map fst architecture_mapping → dict_get architecture_mapping name = None.
Proof.
  intros Hname. generalize dependent architecture_mapping.
  intros d. induction d as [|[k c] d IH]; intros Hname; simpl; [done|].
  apply not_elem_of_cons in Hname as [Hne Hname].
  rewrite (proj2 (String.eqb_neq k name)) by done. by apply IH.
Qed.

End ArchitectureFacts.

(** [build_network_architecture] with a class name outside the mapping never
    returns a network; once the imports of the keyword arguments went
    through, it raises [ValueError], and no constructor is called. *)
Theorem build_network_unknown_name {Obj Net} {arch : Arch Obj Net}
    (name : string) (kw : gmap string (kwval Obj)) (req : list string)
    (num_in num_out : Z) (ds : bool) :
  name ∉ [ "nnunetv2.architectures.MultiTaskResEncUNet.MultiTaskResEncUNet";
           "nnunetv2.architectures.MultiTaskResEncUNet.MultiTaskChannelAttentionResEncUNet";
           "nnunetv2.architectures.MultiTaskResEncUNet.MultiTaskEfficientAttentionResEncUNet";
           "MultiTaskResEncUNet"; "MultiTaskChannelAttentionResEncUNet";
           "MultiTaskEfficientAttentionResEncUNet" ] →
  let built := build_network_architecture name kw req num_in num_out ds in
  (∀ net, result_of built ≠ inr net) ∧
  (∀ kw', result_of (foldP locate_import req kw) = inr kw' →
          result_of built = inl ValueError).
Proof.
  intros Hname built.
  assert (Hnone : dict_get architecture_mapping name = None)
    by (by apply unknown_architecture).
  unfold built, build_network_architecture. rewrite result_of_bind.
  destruct (result_of (foldP locate_import req kw)) as [e|kw1]; [by split|].
  rewrite Hnone. by split.
Qed.

Lemma build_network_unknown_name_witness :
  result_of (build_network_architecture (arch := sample_arch sample_table)
               "PlainConvUNet" sample_kwargs ["conv_op"; "norm_op"; "dropout_op"]
               1 3 true) = inl ValueError.
Proof.
  destruct (build_network_unknown_name (arch := sample_arch sample_table)
              "PlainConvUNet" sample_kwargs ["conv_op"; "norm_op"; "dropout_op"]
              1 3 true) as [_ Hraise].
  - compute_done.
  - apply (Hraise (<["conv_op" := KObj "Conv3d"]>
                     (<["norm_op" := KObj "InstanceNorm3d"]> sample_kwargs))).
    vm_compute. reflexivity.
Defined.

(** A class may be named in full or by its last component: both names build
    the same network, or fail the same way. *)
Theorem build_network_short_name {Obj Net} {arch : Arch Obj Net}
    (short : string) (kw : gmap string (kwval Obj)) (req : list string)
    (num_in num_out : Z) (ds : bool) :
  short ∈ [ "MultiTaskResEncUNet"; "MultiTaskChannelAttentionResEncUNet";
            "MultiTaskEfficientAttentionResEncUNet" ] →
  build_network_architecture ("nnunetv2.architectures.MultiTaskResEncUNet." +:+ short)
                             kw req num_in num_out ds
  = build_network_architecture short kw req num_in num_out ds.
Proof.
  intros Hshort.
  repeat (apply elem_of_cons in Hshort as [->|Hshort]; [reflexivity|]).
  by apply elem_of_nil in Hshort.
Qed.

Lemma build_network_short_name_witness :
  ∃ net,
    result_of (build_network_architecture (arch := sample_arch sample_table)
      "nnunetv2.architectures.MultiTaskResEncUNet.MultiTaskChannelAttentionResEncUNet"
      sample_kwargs ["conv_op"] 1 3 false) = inr net ∧
    net_class net = MultiTaskChannelAttentionResEncUNet ∧
    net_kwargs net !! "conv_op" = Some (KObj "Conv3d").
Proof.
  pose proof (build_network_short_name (arch := sample_arch sample_table)
                "MultiTaskChannelAttentionResEncUNet" sample_kwargs ["conv_op"] 1 3 false)
    as Heq.
  eexists. change (_ +:+ _) with
    "nnunetv2.architectures.MultiTaskResEncUNet.MultiTaskChannelAttentionResEncUNet"
    in Heq.
  rewrite Heq by compute_done. split; [vm_compute; reflexivity|]. by split.
Defined.

(** A name listed in [arch_init_kwargs_req_import] that is no key of
    [arch_init_kwargs] raises [KeyError] for that name, whatever the class
    name is: the imports are resolved before the class is looked up. *)
Theorem build_network_missing_import {Obj Net} {arch : Arch Obj Net}
    (name : string) (kw : gmap string (kwval Obj)) (pre post : list string) (ri : string)
    (num_in num_out : Z) (ds : bool) :
  NoDup pre →
  (∀ k, k ∈ pre → ∃ v, kw !! k = Some v ∧ (v = KNone ∨ ∃ w, pydoc_locate v = inr w)) →
  kw !! ri = None →
  result_of (build_network_architecture name kw (pre ++ ri :: post) num_in num_out ds)
  = inl (KeyError ri).
Proof.
  intros Hnd Hpre Hri. unfold build_network_architecture.
  by rewrite result_of_bind, locate_missing_key.
Qed.

Lemma build_network_missing_import_witness :
  result_of (build_network_architecture (arch := sample_arch sample_table)
               "no such class" sample_kwargs ["conv_op"; "nonlin"; "norm_op"] 1 3 true)
  = inl (KeyError "nonlin").
Proof.
  apply (build_network_missing_import (arch := sample_arch sample_table)
           "no such class" sample_kwargs ["conv_op"] ["norm_op"] "nonlin").
  - repeat constructor. apply not_elem_of_nil.
  - intros k Hk. apply list_elem_of_singleton in Hk as ->.
    eexists. split; [reflexivity|]. right. eexists. reflexivity.
  - reflexivity.
Defined.

(** When [build_network_architecture] returns a network, the class is the
    one the mapping gives for the name, and its constructor received the
    keyword arguments with the same keys: an entry not listed for import is
    passed as it was, an entry holding [None] stays [None], and neither
    'input_channels' nor 'num_classes' is among them.  The network is the one
    constructed, after [initialize] was applied when it has one. *)
Theorem build_network_returns {Obj Net} {arch : Arch Obj Net}
    (name : string) (kw : gmap string (kwval Obj)) (req : list string)
    (num_in num_out : Z) (ds : bool) (net : Net) :
  result_of (build_network_architecture name kw req num_in num_out ds) = inr net →
  ∃ cls kw' net0,
    dict_get architecture_mapping name = Some cls ∧
    construct cls num_in num_out kw' = inr net0 ∧
    (if has_initialize net0 then apply_initialize net0 = inr net else net = net0) ∧
    dom kw' = dom kw ∧
    (∀ k, k ∈ req → is_Some (kw !! k)) ∧
    (∀ k, k ∉ req → kw' !! k = kw !! k) ∧
    (∀ k, kw !! k = Some KNone → kw' !! k = Some KNone) ∧
    kw !! "input_channels" = None ∧ kw !! "num_classes" = None.
Proof.
  unfold build_network_architecture. rewrite result_of_bind.
  destruct (result_of (foldP locate_import req kw)) as [e|kw'] eqn:Hloop; [done|].
  apply located_kwargs in Hloop as (Hdom & Hreq & Hout & Hnone).
  destruct (dict_get architecture_mapping name) as [cls|]; [|done].
  cbn [or_raise]. rewrite bind_ret, result_of_bind. unfold call_network_class.
  case_bool_decide as Hdup; [done|].
  destruct (construct cls num_in num_out kw') as [e|net0] eqn:Hnet; [done|].
  cbn [lift result_of run_local snd]. intros Hinit.
  exists cls, kw', net0. split; [done|]. split; [done|]. split.
  { destruct (has_initialize net0); [|by injection Hinit as <-].
    by destruct (apply_initialize net0) as [e|n]; simplify_eq/=. }
  do 4 (split; [done|]).
  assert (Hk : ∀ k, kw' !! k = None → kw !! k = None).
  { intros k Hk. apply not_elem_of_dom. rewrite <-Hdom. by apply not_elem_of_dom. }
  split; apply Hk, eq_None_not_Some; tauto.
Qed.

Lemma build_network_returns_witness :
  ∃ kw' : gmap string (kwval string),
    kw' !! "n_stages" = Some (KObj "6") ∧ kw' !! "dropout_op" = Some KNone ∧
    kw' !! "num_classes" = None.
Proof.
  destruct (build_network_returns (arch := sample_arch sample_table)
              "MultiTaskResEncUNet" sample_kwargs ["conv_op"; "norm_op"; "dropout_op"]
              1 3 true
              {| net_class := MultiTaskResEncUNet; net_input_channels := 1;
                 net_num_classes := 3;
                 net_kwargs := <["conv_op" := KObj "Conv3d"]>
                                 (<["norm_op" := KObj "InstanceNorm3d"]> sample_kwargs);
                 net_initialized := true |})
    as (cls & kw' & net0 & _ & _ & _ & Hdom & _ & Hout & Hnone & _ & Hnc).
  { vm_compute. reflexivity. }
  exists kw'. split; [|split].
  - rewrite Hout; [reflexivity|]. compute_done.
  - by apply Hnone.
  - apply not_elem_of_dom. rewrite Hdom. by apply not_elem_of_dom.
Defined.

(** Keyword arguments that already hold 'input_channels' or 'num_classes'
    never give a network: the constructor would receive the keyword twice,
    which is a [TypeError] once the imports went through and the class is
    known. *)
Theorem build_network_duplicate_keyword {Obj Net} {arch : Arch Obj Net}
    (name : string) (kw : gmap string (kwval Obj)) (req : list string)
    (num_in num_out : Z) (ds : bool) :
  is_Some (kw !! "input_channels") ∨ is_Some (kw !! "num_classes") →
  let built := build_network_architecture name kw req num_in num_out ds in
  (∀ net, result_of built ≠ inr net) ∧
  (∀ kw', result_of (foldP locate_import req kw) = inr kw' →
          is_Some (dict_get architecture_mapping name) →
          result_of built = inl TypeError).
Proof.
  intros Hdup built.
  assert (Hloop : ∀ kw', result_of (foldP locate_import req kw) = inr kw' →
            is_Some (kw' !! "input_channels") ∨ is_Some (kw' !! "num_classes")).
  { intros kw' Hloop. apply located_kwargs in Hloop as (Hdom & _).
    rewrite <-!elem_of_dom, Hdom, !elem_of_dom. done. }
  unfold built, build_network_architecture. rewrite result_of_bind.
  destruct (result_of (foldP locate_import req kw)) as [e|kw'] eqn:Hrun; [by split|].
  specialize (Hloop kw' eq_refl).
  destruct (dict_get architecture_mapping name) as [cls|]; cbn [or_raise].
  - rewrite bind_ret, result_of_bind. unfold call_network_class.
    rewrite bool_decide_eq_true_2 by done. by split.
  - split; [done|]. by intros ? _ [? ?].
Qed.

Lemma build_network_duplicate_keyword_witness :
  result_of (build_network_architecture (arch := sample_arch sample_table)
               "MultiTaskResEncUNet" (<["num_classes" := KObj "3"]> sample_kwargs)
               ["conv_op"] 1 3 true) = inl TypeError.
Proof.
  destruct (build_network_duplicate_keyword (arch := sample_arch sample_table)
              "MultiTaskResEncUNet" (<["num_classes" := KObj "3"]> sample_kwargs)
              ["conv_op"] 1 3 true) as [_ Hraise].
  - right. by eexists.
  - apply (Hraise (<["conv_op" := KObj "Conv3d"]>
                     (<["num_classes" := KObj "3"]> sample_kwargs)));
      [vm_compute; reflexivity|by eexists].
Defined.

(** ** The training and validation datasets *)

Lemma append_nonempty (a b : string) : b ≠ "" → a +:+ b ≠ "".
Proof. intros Hb. by destruct a, b. Qed.

Lemma ends_with_sep_cons (c : Ascii.ascii) (s : string) :
  s ≠ "" → ends_with_sep (String c s) = ends_with_sep s.
Proof. by destruct s. Qed.

Lemma ends_with_sep_app (a b : string) :
  b ≠ "" → ends_with_sep (a +:+ b) = ends_with_sep b.
Proof.
  intros Hb. induction a as [|c a IH]; [done|].
  change (String c a +:+ b) with (String c (a +:+ b)).
  by rewrite ends_with_sep_cons, IH by (by apply append_nonempty).
Qed.

Lemma append_assoc (a b c : string) : (a +:+ b) +:+ c = a +:+ (b +:+ c).
Proof.
  induction a as [|x a IH]; [done|].
  change (String x ((a +:+ b) +:+ c) = String x (a +:+ (b +:+ c))). by rewrite IH.
Qed.

(** Without 'nnUNet_raw' in the environment the method raises [KeyError]
    for it, as soon as the split and the dataset class are there: no dataset
    is built. *)
Theorem datasets_need_nnUNet_raw {Keys Folder DatasetClass Dataset}
    {loading : DataLoading Keys Folder DatasetClass Dataset}
    (self : DataTrainer Folder) (environ : gmap string string) :
  environ !! "nnUNet_raw" = None →
  (∀ d, result_of (get_tr_and_val_datasets self environ) ≠ inr d) ∧
  (∀ keys cls, do_split = inr keys →
     infer_dataset_class (preprocessed_dataset_folder self) = inr cls →
     result_of (get_tr_and_val_datasets self environ) = inl (KeyError "nnUNet_raw")).
Proof.
  intros Henv.
  assert (Hrun : result_of (get_tr_and_val_datasets self environ) =
    match do_split with
    | inl e => inl e
    | inr _ =>
        match infer_dataset_class (preprocessed_dataset_folder self) with
        | inl e => inl e
        | inr _ => inl (KeyError "nnUNet_raw")
        end
    end).
  { unfold get_tr_and_val_datasets, environ_getitem. rewrite Henv.
    destruct do_split as [e|[tr_keys val_keys]]; [done|].
    cbn [lift]. rewrite bind_ret.
    by destruct (infer_dataset_class _) as [e|cls]. }
  split.
  - intros d. rewrite Hrun. destruct do_split; [done|].
    by destruct (infer_dataset_class (preprocessed_dataset_folder self)).
  - intros keys cls Hs Hc. by rewrite Hrun, Hs, Hc.
Qed.

Lemma datasets_need_nnUNet_raw_witness :
  result_of (get_tr_and_val_datasets (loading := sample_loading) sample_data_trainer
               (<["nnUNet_results" := "/data/results"]> ∅))
  = inl (KeyError "nnUNet_raw").
Proof.
  destruct (datasets_need_nnUNet_raw (loading := sample_loading) sample_data_trainer
              (<["nnUNet_results" := "/data/results"]> ∅)) as [_ Hraise]; [done|].
  by eapply Hraise.
Defined.

(** When the method returns, both datasets were built by the inferred class
    over the same preprocessed folder and previous-stage folder, with the
    subtype labels switched on and one label file; they differ in the keys of
    the split only.  The label file is [raw/name/labels.csv] for a value
    [raw] of 'nnUNet_raw' and a dataset name that are not empty, with no
    separator at the end of [raw] nor at either end of the name. *)
Theorem datasets_share_label_file {Keys Folder DatasetClass Dataset}
    {loading : DataLoading Keys Folder DatasetClass Dataset}
    (self : DataTrainer Folder) (environ : gmap string string)
    (dataset_tr dataset_val : Dataset) :
  result_of (get_tr_and_val_datasets self environ) = inr (dataset_tr, dataset_val) →
  ∃ tr_keys val_keys cls raw,
    do_split = inr (tr_keys, val_keys) ∧
    infer_dataset_class (preprocessed_dataset_folder self) = inr cls ∧
    environ !! "nnUNet_raw" = Some raw ∧
    let call keys :=
      {| c_folder := preprocessed_dataset_folder self; c_keys := keys;
         c_folder_with_segs_from_previous_stage := folder_with_segs_from_previous_stage self;
         c_load_subtype_labels := true;
         c_label_path := os_path_join raw [dataset_name self; "labels.csv"] |} in
    new_dataset cls (call tr_keys) = inr dataset_tr ∧
    new_dataset cls (call val_keys) = inr dataset_val ∧
    (raw ≠ "" → ends_with_sep raw = false →
     dataset_name self ≠ "" → starts_with_sep (dataset_name self) = false →
     ends_with_sep (dataset_name self) = false →
     os_path_join raw [dataset_name self; "labels.csv"]
     = raw +:+ "/" +:+ dataset_name self +:+ "/labels.csv").
Proof.
  unfold get_tr_and_val_datasets, environ_getitem.
  destruct do_split as [e|[tr_keys val_keys]]; [done|].
  cbn [lift]. rewrite bind_ret.
  destruct (infer_dataset_class _) as [e|cls]; [done|].
  cbn [lift]. rewrite bind_ret.
  destruct (environ !! "nnUNet_raw") as [raw|]; [|done].
  cbn [or_raise]. rewrite bind_ret.
  destruct (new_dataset cls _) as [e|tr] eqn:Htr; [done|].
  cbn [lift]. rewrite !bind_ret.
  destruct (new_dataset cls {| c_keys := val_keys |}) as [e|val] eqn:Hval; [done|].
  intros [= <- <-]. exists tr_keys, val_keys, cls, raw.
  do 5 (split; [done|]).
  intros Hraw Hend Hname Hstart Hend'.
  unfold os_path_join. cbn [foldl]. unfold join_component at 2.
  rewrite Hstart, (proj2 (String.eqb_neq raw "")), Hend by done. cbn [orb].
  unfold join_component. cbn [starts_with_sep].
  change (Ascii.eqb _ sep) with false. cbv iota.
  rewrite (proj2 (String.eqb_neq _ "")) by (by apply append_nonempty, append_nonempty).
  rewrite !ends_with_sep_app, Hend' by (done || by apply append_nonempty).
  cbn [orb]. by rewrite !append_assoc.
Qed.

Lemma datasets_share_label_file_witness :
  ∃ tr val : DatasetCall (list string) string,
    result_of (get_tr_and_val_datasets (loading := sample_loading) sample_data_trainer
                 (<["nnUNet_raw" := "/data/raw"]> ∅)) = inr (tr, val) ∧
    c_label_path tr = "/data/raw/Dataset001_Pancreas/labels.csv" ∧
    c_label_path val = "/data/raw/Dataset001_Pancreas/labels.csv" ∧
    c_keys tr = ["case_0"; "case_1"] ∧ c_keys val = ["case_2"].
Proof.
  destruct (result_of (get_tr_and_val_datasets (loading := sample_loading)
                         sample_data_trainer (<["nnUNet_raw" := "/data/raw"]> ∅)))
    as [e|[tr val]] eqn:Hrun; [by vm_compute in Hrun|].
  exists tr, val. split; [done|].
  destruct (datasets_share_label_file (loading := sample_loading) sample_data_trainer
              (<["nnUNet_raw" := "/data/raw"]> ∅) tr val Hrun)
    as (tr_keys & val_keys & cls & raw & Hsplit & _ & Hraw & Htr & Hval & Hpath).
  assert (raw = "/data/raw") as -> by (vm_compute in Hraw; congruence).
  injection Hsplit as <- <-. injection Htr as <-. injection Hval as <-.
  split; [by apply Hpath|]. split; [by apply Hpath|]. by split.
Defined.

(** ** The training step *)

Section TrainStep.
Context {Tensor Params : Type} {torch : Torch Tensor Params}.
Implicit Types (self : Trainer Params) (batch : Batch Tensor)
  (output : NetOutput Tensor).

(** The split either returns or raises; it does nothing else. *)
Lemma split_output_cases output :
  (∃ seg cls, split_output output = Ret (seg, cls)) ∨
  (∃ k, split_output output = Raise (KeyError k)).
Proof.
  destruct output as [v|d]; [left; by eexists _, _|]. unfold split_output, getitem.
  destruct (size d =? 2)%nat; [|left; by eexists _, _].
  destruct (d !! "segmentation") as [s|]; [|right; by eexists].
  destruct (d !! "classification") as [c|]; [|right; by eexists].
  left. by eexists _, _.
Qed.

Lemma loss_for_backward_cases (ld : gmap string lval) :
  match ld !! "loss" with
  | Some (LTensor q) => loss_for_backward ld = Ret q
  | Some (LFloat _) => loss_for_backward ld = Raise AttributeError
  | None => loss_for_backward ld = Raise (KeyError "loss")
  end.
Proof. unfold loss_for_backward. by destruct (ld !! "loss") as [[q|q]|]. Qed.

Lemma train_step_cases self batch :
  (∃ e, train_step self batch = Raise e) ∨
  (∃ l ld, ld !! "loss" = Some (LTensor l) ∧
     train_step self batch =
     Ret (set_params self (optimizer_step (backward (zero_grad (params self)) l)), ld)).
Proof.
  destruct (split_output_cases (network (zero_grad (params self)) (data batch)))
    as [(seg & cls & Hs)|[k Hs]].
  - rewrite (train_step_after_split self batch seg cls Hs). cbv zeta.
    set (ld := loss_call _ _ _ _ _).
    pose proof (loss_for_backward_cases ld) as Hl.
    destruct (ld !! "loss") as [[q|q]|] eqn:Hq; rewrite Hl.
    + right. by exists q, ld.
    + left. by eexists.
    + left. by eexists.
  - left. exists (KeyError k). unfold train_step. cbn [params set_params].
    by rewrite Hs.
Qed.

End TrainStep.

(** [train_step] is silent: it stops at no debugger prompt, enters no
    collective, writes nothing to the logger or the console.  When it
    returns, the loss mapping holds a tensor under 'loss', the parameters are
    those after [zero_grad], the backward pass of that loss and the optimizer
    step, in this order, and every other attribute of the trainer is as it
    was. *)
Theorem train_step_updates_parameters_only {Tensor Params} {torch : Torch Tensor Params}
    (self : Trainer Params) (batch : Batch Tensor) :
  trace_of (train_step self batch) = [] ∧
  (∀ answers, (run_with (train_step self batch) answers).1.1 = []) ∧
  (∀ self' ld, result_of (train_step self batch) = inr (self', ld) →
     ∃ l, ld !! "loss" = Some (LTensor l) ∧
          params self' = optimizer_step (backward (zero_grad (params self)) l) ∧
          self' = set_params self (params self')).
Proof.
  destruct (train_step_cases self batch) as [[e ->]|(l & ld & Hl & ->)].
  - by repeat split.
  - repeat split; try done. intros self' ld' [= <- <-]. by exists l.
Qed.

Lemma train_step_updates_parameters_only_witness :
  let T := with_loss (sample_torch sample_losses sample_counts sample_scores)
             (λ _ _ _ _ _, <["loss" := LTensor (Qc_of_Z 3)]> sample_losses) in
  let self := sample_trainer (λ _, two_heads) false in
  ∃ l, (<["loss" := LTensor (Qc_of_Z 3)]> sample_losses) !! "loss" = Some (LTensor l) ∧
       params self = optimizer_step (backward (zero_grad (params self)) l) ∧
       self = set_params self (params self).
Proof.
  intros T self.
  destruct (train_step_updates_parameters_only self sample_batch) as (_ & _ & Hret).
  apply Hret. vm_compute. reflexivity.
Defined.

(** The training step reads the loss under the key 'loss' (the validation
    step reads 'total_loss'): when the network output splits and the loss
    functor reports no 'loss', the step raises [KeyError]; when it reports a
    plain float there, the step raises [AttributeError] at [backward]. *)
Theorem train_step_needs_loss_tensor {Tensor Params} {torch : Torch Tensor Params}
    (self : Trainer Params) (batch : Batch Tensor)
    (seg : NetOutput Tensor) (cls : option (netval Tensor)) :
  split_output (network (zero_grad (params self)) (data batch)) = Ret (seg, cls) →
  let loss_dict := loss_call (loss self) seg (target batch) cls (class_target batch) in
  (loss_dict !! "loss" = None →
   result_of (train_step self batch) = inl (KeyError "loss")) ∧
  (∀ q, loss_dict !! "loss" = Some (LFloat q) →
        result_of (train_step self batch) = inl AttributeError).
Proof.
  intros Hs loss_dict.
  rewrite (train_step_after_split self batch seg cls Hs). cbv zeta.
  fold loss_dict. pose proof (loss_for_backward_cases loss_dict) as Hl.
  split.
  - intros Hnone. rewrite Hnone in Hl. by rewrite Hl.
  - intros q Hq. rewrite Hq in Hl. by rewrite Hl.
Qed.

Lemma train_step_needs_loss_tensor_witness :
  let T := sample_torch sample_losses sample_counts sample_scores in
  result_of (train_step (sample_trainer (λ _, two_heads) false) sample_batch)
  = inl (KeyError "loss").
Proof.
  intros T.
  destruct (train_step_needs_loss_tensor (sample_trainer (λ _, two_heads) false)
              sample_batch (OVal (VTensor 1%nat)) (Some (VTensor 2%nat)))
    as [Hmissing _]; [reflexivity|].
  by apply Hmissing.
Defined.

(** ** The segmentation counts of the validation step *)

Section SegmentationCounts.
Context {Tensor Params : Type} {torch : Torch Tensor Params}.
Implicit Types (self : Trainer Params) (batch : Batch Tensor).

(** What [segmentation_counts] hands to [get_tp_fp_fn_tn] and what it keeps
    of the answer. *)
Lemma segmentation_counts_call self (seg : NetOutput Tensor) (target_seg : Tensor)
    (tp_hard fp_hard fn_hard : list N) :
  result_of (segmentation_counts self seg target_seg) = inr (tp_hard, fp_hard, fn_hard) →
  let lm := label_manager self in
  ∃ t pred tgt mask,
    result_of (if enable_deep_supervision self then index0 seg else as_tensor seg)
      = inr t ∧
    pred = (if has_regions lm then sigmoid_gt_half t else argmax_onehot t) ∧
    (mask = None ↔ has_ignore_label lm = false) ∧
    (has_ignore_label lm = false → tgt = target_seg) ∧
    tp_hard = (if has_regions lm then id else tail)
                (get_tp_fp_fn_tn pred tgt (0%nat :: seq 2 (tensor_ndim t - 2)) mask).1.1.1 ∧
    fp_hard = (if has_regions lm then id else tail)
                (get_tp_fp_fn_tn pred tgt (0%nat :: seq 2 (tensor_ndim t - 2)) mask).1.1.2 ∧
    fn_hard = (if has_regions lm then id else tail)
                (get_tp_fp_fn_tn pred tgt (0%nat :: seq 2 (tensor_ndim t - 2)) mask).1.2.
Proof.
  unfold segmentation_counts. rewrite result_of_bind.
  destruct (result_of (if enable_deep_supervision self then _ else _)) as [e|t]; [done|].
  intros Hr. exists t.
  destruct (has_ignore_label (label_manager self)) eqn:Hi,
    (has_regions (label_manager self)) eqn:Hreg; cbn in Hr;
    match type of Hr with
    | context [get_tp_fp_fn_tn ?p ?g ?a ?m] =>
        destruct (get_tp_fp_fn_tn p g a m) as [[[tp fp] fn] tn] eqn:Hc;
        exists p, g, m; rewrite Hc
    end;
    cbn in Hr; injection Hr as <- <- <-; repeat split; try done.
Qed.

End SegmentationCounts.



(** A segmentation output that is a list: without deep supervision the
    validation step raises [AttributeError] (a list has no [ndim]); with deep
    supervision it raises [IndexError] on an empty list and otherwise counts
    on the first entry of the list alone. *)
Theorem validation_step_list_output {Tensor Params} {torch : Torch Tensor Params}
    (self : Trainer Params) (batch : Batch Tensor)
    (outputs : list Tensor) (cls : option (netval Tensor)) :
  split_output (network (params self) (data batch)) = Ret (OVal (VList outputs), cls) →
  let lm := label_manager self in
  (enable_deep_supervision self = false →
   result_of (validation_step self batch) = inl AttributeError) ∧
  (enable_deep_supervision self = true → outputs = [] →
   result_of (validation_step self batch) = inl IndexError) ∧
  (enable_deep_supervision self = true → ∀ t rest r, outputs = t :: rest →
   result_of (validation_step self batch) = inr r →
   ∃ tgt mask,
     dict_get r "tp_hard" =
     Some (PArr1 ((if has_regions lm then id else tail)
                    (get_tp_fp_fn_tn
                       (if has_regions lm then sigmoid_gt_half t else argmax_onehot t)
                       tgt (0%nat :: seq 2 (tensor_ndim t - 2)) mask).1.1.1))).
Proof.
  intros Hs lm. split; [|split].
  - intros Hds. unfold validation_step. rewrite Hs, bind_ret, result_of_bind.
    unfold segmentation_counts. by rewrite Hds.
  - intros Hds ->. unfold validation_step. rewrite Hs, bind_ret, result_of_bind.
    unfold segmentation_counts. by rewrite Hds.
  - intros Hds t rest r -> Hr.
    destruct (validation_step_after_split self batch _ cls r Hs Hr)
      as (tp & fp & fn & cm & Hseg & _ & ->).
    apply segmentation_counts_call in Hseg
      as (t' & pred & tgt & mask & Ht & -> & _ & _ & -> & _ & _).
    rewrite Hds in Ht. injection Ht as <-. by exists tgt, mask.
Qed.

Lemma validation_step_list_output_witness :
  let T := sample_torch sample_losses sample_counts sample_scores in
  result_of (validation_step (sample_trainer (λ _, OVal (VList [1%nat; 2%nat])) false)
                             sample_batch)
  = inl AttributeError.
Proof.
  intros T.
  destruct (validation_step_list_output
              (sample_trainer (λ _, OVal (VList [1%nat; 2%nat])) false) sample_batch
              [1%nat; 2%nat] None) as [Hflat _]; [reflexivity|].
  by apply Hflat.
Defined.

(** ** Marginals of the classification counts *)

Lemma N_sum_map_add {A} (f g : A → N) (l : list A) :
  N_sum (map (λ a, (f a + g a)%N) l) = (N_sum (map f l) + N_sum (map g l))%N.
Proof. induction l as [|a l IH]; simpl; [done|]. rewrite IH. lia. Qed.

Lemma N_sum_no_indicator {A} (P : A → bool) (l : list A) :
  (∀ c, c ∈ l → P c = false) → N_sum (map (λ c, if P c then 1%N else 0%N) l) = 0%N.
Proof.
  induction l as [|c l IH]; intros Hf; simpl; [done|].
  rewrite Hf by (apply elem_of_cons; by left).
  rewrite IH; [done|]. intros d Hd. apply Hf, elem_of_cons. by right.
Qed.

(** An indicator that holds of one element only sums to one over a list
    without duplicates that has the element. *)
Lemma N_sum_indicator {A} (P : A → bool) (x : A) (l : list A) :
  NoDup l → x ∈ l → P x = true → (∀ c, c ∈ l → P c = true → c = x) →
  N_sum (map (λ c, if P c then 1%N else 0%N) l) = 1%N.
Proof.
  induction l as [|c l IH]; intros Hnd Hin Hx Huniq; [by apply elem_of_nil in Hin|].
  apply NoDup_cons in Hnd as [Hc Hnd]. cbn [map N_sum foldr].
  change (foldr N.add 0%N ?y) with (N_sum y).
  destruct (P c) eqn:Hpc.
  - assert (c = x) as -> by (apply Huniq; [apply elem_of_cons; by left|done]).
    rewrite N_sum_no_indicator; [done|].
    intros d Hd. destruct (P d) eqn:Hpd; [|done]. exfalso.
    assert (d = x) as -> by (apply Huniq; [apply elem_of_cons; by right|done]).
    done.
  - apply elem_of_cons in Hin as [->|Hin]; [congruence|].
    rewrite IH; [done|done|done|done|].
    intros d Hd. apply Huniq, elem_of_cons. by right.
Qed.

(** True and false positives of a class: the samples predicted as it. *)
Lemma class_counts_predicted (cls_pred : list nat) (cls_target : list Z) (c : nat) :
  length cls_pred = length cls_target →
  (class_counts cls_pred cls_target c (λ p t, p && t)
   + class_counts cls_pred cls_target c (λ p t, p && negb t))%N
  = count_true (map (λ p, (p =? c)%nat) cls_pred).
Proof.
  unfold class_counts, count_true. revert cls_target.
  induction cls_pred as [|p ps IH]; intros [|t ts] Hl; simplify_eq/=; [done|].
  specialize (IH ts Hl). destruct (p =? c)%nat, (t =? Z.of_nat c)%Z; simpl; lia.
Qed.

(** True positives and false negatives of a class: the samples labelled
    with it. *)
Lemma class_counts_labelled (cls_pred : list nat) (cls_target : list Z) (c : nat) :
  length cls_pred = length cls_target →
  (class_counts cls_pred cls_target c (λ p t, p && t)
   + class_counts cls_pred cls_target c (λ p t, negb p && t))%N
  = count_true (map (λ t, (t =? Z.of_nat c)%Z) cls_target).
Proof.
  unfold class_counts, count_true. revert cls_target.
  induction cls_pred as [|p ps IH]; intros [|t ts] Hl; simplify_eq/=; [done|].
  specialize (IH ts Hl). destruct (p =? c)%nat, (t =? Z.of_nat c)%Z; simpl; lia.
Qed.

Lemma predicted_over_classes (cls_pred : list nat) (n : nat) :
  Forall (λ p, (p < n)%nat) cls_pred →
  N_sum (map (λ c, count_true (map (λ p, (p =? c)%nat) cls_pred)) (seq 0 n))
  = N.of_nat (length cls_pred).
Proof.
  unfold count_true. induction 1 as [|p ps Hp Hps IH].
  - simpl. induction (seq 0 n); simpl; [done|lia].
  - cbn [map N_sum foldr length].
    change (foldr N.add 0%N ?x) with (N_sum x).
    rewrite (N_sum_map_add (λ c, if (p =? c)%nat then 1%N else 0%N)), IH.
    rewrite (N_sum_indicator (λ c, (p =? c)%nat) p).
    + lia.
    + apply NoDup_seq.
    + apply elem_of_seq. lia.
    + apply Nat.eqb_refl.
    + intros c _ Hc. symmetry. by apply Nat.eqb_eq.
Qed.

Lemma labelled_over_classes (cls_target : list Z) (n : nat) :
  N_sum (map (λ c, count_true (map (λ t, (t =? Z.of_nat c)%Z) cls_target)) (seq 0 n))
  = N.of_nat (length (in_range_labels n cls_target)).
Proof.
  unfold count_true, in_range_labels. induction cls_target as [|t ts IH].
  - simpl. induction (seq 0 n); simpl; [done|lia].
  - cbn [map N_sum foldr].
    change (foldr N.add 0%N ?x) with (N_sum x).
    rewrite (N_sum_map_add (λ c, if (t =? Z.of_nat c)%Z then 1%N else 0%N)), IH.
    rewrite filter_cons.
    destruct (decide (0 ≤ t < Z.of_nat n)%Z) as [Hin|Hout].
    + rewrite (N_sum_indicator (λ c, (t =? Z.of_nat c)%Z) (Z.to_nat t)).
      * simpl. lia.
      * apply NoDup_seq.
      * apply elem_of_seq. lia.
      * apply Z.eqb_eq. lia.
      * intros c _ Hc. apply Z.eqb_eq in Hc. lia.
    + rewrite N_sum_no_indicator; [done|].
      intros c Hc. apply elem_of_seq in Hc. apply Z.eqb_neq. lia.
Qed.

Section ClsMarginals.
Context {Tensor Params : Type} {torch : Torch Tensor Params}.

Lemma classification_metrics_marginals (t : Tensor) (target_cls : list Z) :
  length (rows (logits t)) = length target_cls →
  (0 < n_classes (logits t))%nat →
  ∃ tp fp fn tn correct,
    classification_metrics (Some (VTensor t)) target_cls =
    Ret [ ("cls_tp", PArr1 tp); ("cls_fp", PArr1 fp); ("cls_fn", PArr1 fn);
          ("cls_tn", PArr1 tn); ("cls_correct", PArr0I correct);
          ("cls_total", PInt (N.of_nat (length target_cls))) ] ∧
    (N_sum fp + correct)%N = N.of_nat (length target_cls) ∧
    (N_sum fn + correct)%N
      = N.of_nat (length (in_range_labels (n_classes (logits t)) target_cls)).
Proof.
  intros Hrows Hn.
  pose proof (classification_metrics_counts t target_cls Hrows Hn) as Hcm.
  cbv zeta in Hcm.
  set (n := n_classes (logits t)) in *.
  set (cls_pred := map (argmax_row n) (rows (logits t))) in *.
  assert (Hlen : length cls_pred = length target_cls).
  { unfold cls_pred. by rewrite length_map. }
  assert (Hlt : Forall (λ p, (p < n)%nat) cls_pred).
  { unfold cls_pred. apply Forall_forall. intros p Hp.
    apply list_elem_of_fmap in Hp as (row & -> & _). by apply argmax_row_lt. }
  eexists _, _, _, _, _. split; [exact Hcm|].
  rewrite <-(class_counts_correct cls_pred target_cls n Hlen Hlt). split.
  - rewrite N.add_comm, <-N_sum_map_add.
    rewrite (list_fmap_ext _ (λ c, count_true (map (λ p, (p =? c)%nat) cls_pred))
               (seq 0 n)) by (intros; by apply class_counts_predicted).
    by rewrite predicted_over_classes, Hlen.
  - rewrite N.add_comm, <-N_sum_map_add.
    rewrite (list_fmap_ext _ (λ c, count_true (map (λ t, (t =? Z.of_nat c)%Z) target_cls))
               (seq 0 n)) by (intros; by apply class_counts_labelled).
    by rewrite labelled_over_classes.
Qed.

Lemma broadcast_mismatch {A B C} (f : A → B → C) (a : list A) (b : list B) :
  length a ≠ length b → length a ≠ 1%nat → length b ≠ 1%nat →
  broadcast f a b = Raise RuntimeError.
Proof.
  intros Hne Ha Hb. unfold broadcast, broadcast_with.
  rewrite (proj2 (Nat.eqb_neq _ _)) by done.
  destruct a as [|x [|y a]]; [|done|]; by destruct b as [|u [|v b]].
Qed.

Lemma cls_loop_body_mismatch (cls_pred : list nat) (cls_target : list Z)
    (acc : ClsArrays) (c : nat) :
  length cls_pred ≠ length cls_target →
  length cls_pred ≠ 1%nat → length cls_target ≠ 1%nat →
  cls_loop_body cls_pred cls_target acc c = Raise RuntimeError.
Proof.
  intros Hne Hp Ht. unfold cls_loop_body.
  by rewrite (broadcast_mismatch (λ p t : bool, p && t)) by (by rewrite !length_map).
Qed.

Lemma classification_metrics_mismatch (t : Tensor) (target_cls : list Z) :
  (0 < n_classes (logits t))%nat →
  length (rows (logits t)) ≠ length target_cls →
  length (rows (logits t)) ≠ 1%nat → length target_cls ≠ 1%nat →
  classification_metrics (Some (VTensor t)) target_cls = Raise RuntimeError.
Proof.
  intros Hn Hne Hr Ht. unfold classification_metrics, torch_argmax_dim1.
  rewrite (proj2 (Nat.eqb_neq _ 0)) by lia. rewrite bind_ret.
  destruct (n_classes (logits t)) as [|n] eqn:Hcls; [lia|].
  cbn [seq foldP].
  by rewrite cls_loop_body_mismatch by (by rewrite ?length_map).
Qed.

End ClsMarginals.

(** The classification counts of a validation step, summed over the
    classes: the false positives and the correct predictions together are
    all samples, every sample being predicted as exactly one class; the
    false negatives and the correct predictions together are the samples
    whose label names one of the classes, so a label outside 0..n-1 is
    counted in cls_total and in no false negative.  There are never more
    correct predictions than samples. *)
Theorem validation_cls_marginals {Tensor Params} {torch : Torch Tensor Params}
    (self : Trainer Params) (batch : Batch Tensor) (seg : NetOutput Tensor) (t : Tensor)
    (r : pydict pyobj) :
  split_output (network (params self) (data batch)) = Ret (seg, Some (VTensor t)) →
  length (rows (logits t)) = length (class_target batch) →
  (0 < n_classes (logits t))%nat →
  result_of (validation_step self batch) = inr r →
  ∃ fp fn correct,
    dict_get r "cls_fp" = Some (PArr1 fp) ∧
    dict_get r "cls_fn" = Some (PArr1 fn) ∧
    dict_get r "cls_correct" = Some (PArr0I correct) ∧
    dict_get r "cls_total" = Some (PInt (N.of_nat (length (class_target batch)))) ∧
    (N_sum fp + correct)%N = N.of_nat (length (class_target batch)) ∧
    (N_sum fn + correct)%N
      = N.of_nat (length (in_range_labels (n_classes (logits t)) (class_target batch))) ∧
    (correct ≤ N.of_nat (length (class_target batch)))%N.
Proof.
  intros Hs Hrows Hn Hr.
  destruct (classification_metrics_marginals t (class_target batch) Hrows Hn)
    as (tp & fp & fn & tn & correct & Hcm & Hfp & Hfn).
  destruct (validation_step_after_split self batch _ _ r Hs Hr)
    as (stp & sfp & sfn & cm & _ & Hcm' & ->).
  unfold result_of in Hcm'. rewrite Hcm in Hcm'. injection Hcm' as <-.
  exists fp, fn, correct. do 4 (split; [reflexivity|]).
  split; [done|]. split; [done|]. lia.
Qed.

Lemma validation_cls_marginals_witness :
  let T := sample_torch sample_losses sample_counts sample_scores in
  ∃ fp fn correct,
    (N_sum fp + correct)%N = 3%N ∧ (N_sum fn + correct)%N = 3%N ∧ (correct ≤ 3)%N.
Proof.
  intros T.
  destruct (validation_cls_marginals (sample_trainer (λ _, two_heads) false) sample_batch
              (OVal (VTensor 1%nat)) 2%nat
              [ ("loss", PArr0F (Qc_of_Z 3)); ("seg_loss", PArr0F (Qc_of_Z 2));
                ("cls_loss", PArr0F (Qc_of_Z 1));
                ("tp_hard", PArr1 [4; 0]%N); ("fp_hard", PArr1 [1; 0]%N);
                ("fn_hard", PArr1 [2; 0]%N); ("cls_tp", PArr1 [1; 1]%N);
                ("cls_fp", PArr1 [1; 0]%N); ("cls_fn", PArr1 [0; 1]%N);
                ("cls_tn", PArr1 [1; 1]%N); ("cls_correct", PArr0I 2);
                ("cls_total", PInt 3) ])
    as (fp & fn & correct & _ & _ & _ & _ & Hfp & Hfn & Hle).
  - reflexivity.
  - reflexivity.
  - simpl. lia.
  - vm_compute. reflexivity.
  - by exists fp, fn, correct.
Defined.

(** When the classification head scores another number of samples than the
    batch has classification targets, and neither number is 1, the
    comparison of predictions and targets cannot be broadcast: the
    classification block raises [RuntimeError] in its first iteration, and
    the validation step returns nothing ([RuntimeError] itself once the
    segmentation counts are there). *)
Theorem validation_cls_size_mismatch {Tensor Params} {torch : Torch Tensor Params}
    (self : Trainer Params) (batch : Batch Tensor) (seg : NetOutput Tensor) (t : Tensor) :
  split_output (network (params self) (data batch)) = Ret (seg, Some (VTensor t)) →
  (0 < n_classes (logits t))%nat →
  length (rows (logits t)) ≠ length (class_target batch) →
  length (rows (logits t)) ≠ 1%nat → length (class_target batch) ≠ 1%nat →
  classification_metrics (Some (VTensor t)) (class_target batch) = Raise RuntimeError ∧
  (∀ r, result_of (validation_step self batch) ≠ inr r) ∧
  (∀ counts, result_of (segmentation_counts self seg (target batch)) = inr counts →
             result_of (validation_step self batch) = inl RuntimeError).
Proof.
  intros Hs Hn Hne Hr Ht.
  pose proof (classification_metrics_mismatch t (class_target batch) Hn Hne Hr Ht) as Hcm.
  split; [done|].
  assert (Hrun : result_of (validation_step self batch) =
    match result_of (segmentation_counts self seg (target batch)) with
    | inl e => inl e
    | inr _ => inl RuntimeError
    end).
  { unfold validation_step. rewrite Hs, bind_ret, result_of_bind.
    destruct (result_of (segmentation_counts _ _ _)) as [e|[[tp fp] fn]]; [done|].
    by rewrite Hcm. }
  rewrite Hrun. split.
  - intros r. by destruct (result_of (segmentation_counts _ _ _)).
  - by intros counts ->.
Qed.

Lemma validation_cls_size_mismatch_witness :
  let T := sample_torch sample_losses sample_counts sample_scores in
  result_of (validation_step (sample_trainer (λ _, two_heads) false)
               {| data := 0%nat; target := 7%nat; class_target := [0; 1]%Z |})
  = inl RuntimeError.
Proof.
  intros T.
  destruct (validation_cls_size_mismatch (sample_trainer (λ _, two_heads) false)
              {| data := 0%nat; target := 7%nat; class_target := [0; 1]%Z |}
              (OVal (VTensor 1%nat)) 2%nat) as (_ & _ & Hraise).
  - reflexivity.
  - simpl. lia.
  - simpl. lia.
  - simpl. lia.
  - simpl. lia.
  - eapply Hraise. reflexivity.
Defined.

(** ** The trace of the reduction in a single process *)

Lemma cls_summary_active (sh : Shape) (vs : list StepView) :
  vs ≠ [] → Forall (has_shape sh) vs →
  match n_cls sh with
  | Some _ =>
      if (0 <? length (concat (map sv_cls_tp vs)))%nat then
        cls_part (col_sums (map sv_cls_tp vs)) (col_sums (map sv_cls_fp vs))
                 (col_sums (map sv_cls_fn vs))
                 (N_sum (map sv_cls_correct vs)) (N_sum (map sv_cls_total vs))
      else []
  | None => []
  end
  = if cls_active sh then
      cls_part (col_sums (map sv_cls_tp vs)) (col_sums (map sv_cls_fp vs))
               (col_sums (map sv_cls_fn vs))
               (N_sum (map sv_cls_correct vs)) (N_sum (map sv_cls_total vs))
    else [].
Proof.
  intros Hne Hall. destruct (n_cls sh) as [k|] eqn:Hk.
  - by rewrite (cls_active_size sh vs k).
  - unfold cls_active. by rewrite Hk.
Qed.

Lemma epoch_summary_active (sh : Shape) (vs : list StepView) :
  vs ≠ [] → Forall (has_shape sh) vs →
  epoch_summary sh vs =
  seg_part (col_sums (map v_tp vs)) (col_sums (map v_fp vs)) (col_sums (map v_fn vs))
           (loss_mean v_loss vs) (loss_mean v_seg_loss vs) (loss_mean v_cls_loss vs)
  ++ if cls_active sh then
       cls_part (col_sums (map sv_cls_tp vs)) (col_sums (map sv_cls_fp vs))
                (col_sums (map sv_cls_fn vs))
                (N_sum (map sv_cls_correct vs)) (N_sum (map sv_cls_total vs))
     else [].
Proof. intros Hne Hall. unfold epoch_summary. by rewrite cls_summary_active. Qed.

(** A single process: the debugger prompt, then the calls of the logger,
    then the console lines. *)
Lemma on_validation_epoch_end_local_trace {Params} (self : Trainer Params) (sh : Shape)
    (vs : list StepView) (e : nat) :
  vs ≠ [] → Forall (has_shape sh) vs →
  is_ddp self = false → current_epoch self = Some e →
  let dice := dice_per_class (col_sums (map v_tp vs)) (col_sums (map v_fp vs))
                             (col_sums (map v_fn vs)) in
  let cm := if cls_active sh then
              cls_part (col_sums (map sv_cls_tp vs)) (col_sums (map sv_cls_fp vs))
                       (col_sums (map sv_cls_fn vs))
                       (N_sum (map sv_cls_correct vs)) (N_sum (map sv_cls_total vs))
            else [] in
  trace_of (on_validation_epoch_end self (map step_dict vs)) =
  OBreak ::
    trace_of (log_metrics self (np_nanmean dice) dice (loss_mean v_loss vs)
                (loss_mean v_seg_loss vs) (loss_mean v_cls_loss vs) cm)
    ++ trace_of (print_summary self (np_nanmean dice) dice (loss_mean v_loss vs)
                   (loss_mean v_seg_loss vs) (loss_mean v_cls_loss vs) cm).
Proof.
  intros Hne Hall Hddp He dice cm. unfold on_validation_epoch_end.
  rewrite (collate_outputs_views sh) by done. rewrite bind_ret.
  rewrite trace_of_bind. cbn [set_trace result_of trace_of run_local fst snd app].
  f_equal.
  rewrite get_tp_hard, get_fp_hard, get_fn_hard.
  repeat first [rewrite bind_ret | progress cbn [np_sum0]].
  rewrite reduce_segmentation_local by done. rewrite bind_ret.
  rewrite classification_summary_local by done. rewrite bind_ret.
  cbn [r_tp r_fp r_fn r_total_loss r_seg_loss r_cls_loss].
  rewrite cls_summary_active by done. fold dice cm.
  assert (Hcm : cls_part_or_none cm).
  { unfold cm. destruct (cls_active sh); [right; by eexists _, _, _, _, _|by left]. }
  rewrite trace_of_bind, (log_metrics_returns self e) by done.
  rewrite trace_of_bind, (print_summary_returns self e) by done.
  cbn [trace_of run_local fst]. by rewrite app_nil_r.
Qed.

Lemma logged_app (t1 t2 : list obs) : logged (t1 ++ t2) = logged t1 ++ logged t2.
Proof. unfold logged. apply omap_app. Qed.


Lemma print_summary_logs_nothing {Params} (self : Trainer Params) (e : nat)
    (mean_fg_dice : fval) (dc : list fval) (tl sl cl : fval) (cm : pydict sval) :
  current_epoch self = Some e → cls_part_or_none cm →
  logged (trace_of (print_summary self mean_fg_dice dc tl sl cl cm)) = [].
Proof.
  intros He [->|(tp & fp & fn & correct & total & ->)];
    unfold print_summary; rewrite He; by destruct dc as [|? [|? ?]].
Qed.


Lemma log_metrics_logged {Params} (self : Trainer Params) (e : nat)
    (mean_fg_dice : fval) (dc : list fval) (tl sl cl : fval) (cm : pydict sval) :
  current_epoch self = Some e → cls_part_or_none cm →
  logged (trace_of (log_metrics self mean_fg_dice dc tl sl cl cm)) =
  logged_entries e ([ ("mean_fg_dice", SFloat mean_fg_dice);
                      ("dice_per_class", SList dc);
                      ("total_loss", SFloat tl);
                      ("seg_loss", SFloat sl);
                      ("cls_loss", SFloat cl) ] ++ cm).
Proof.
  intros He [->|(tp & fp & fn & correct & total & ->)];
    unfold log_metrics; by rewrite He.
Qed.


(** A process that is not distributed logs what it returns: the logger
    receives, in the order of [log_keys] and all at the current epoch, the
    entries of the returned summary under the logged names, 'val_losses' and
    'val_total_loss' both carrying the total loss: six entries, and the
    seven classification entries after them exactly when classification
    counts for at least one class were collected. *)
Theorem epoch_end_logs_the_summary {Params} (self : Trainer Params) (sh : Shape)
    (vs : list StepView) (e : nat) :
  vs ≠ [] → Forall (has_shape sh) vs →
  is_ddp self = false → current_epoch self = Some e →
  let run := on_validation_epoch_end self (map step_dict vs) in
  ∃ r, result_of run = inr r ∧
       logged (trace_of run) = logged_entries e r ∧
       map (λ x, x.1.1) (logged (trace_of run))
       = take (if cls_active sh then 13 else 6)%nat log_keys.
Proof.
  intros Hne Hall Hddp He run. exists (epoch_summary sh vs).
  split; [by apply (on_validation_epoch_end_local self sh vs e)|].
  unfold run. rewrite (on_validation_epoch_end_local_trace self sh vs e) by done.
  cbv zeta. rewrite epoch_summary_active by done.
  set (dice := dice_per_class _ _ _).
  set (cm := if cls_active sh then _ else []).
  assert (Hcm : cls_part_or_none cm).
  { unfold cm. destruct (cls_active sh); [right; by eexists _, _, _, _, _|by left]. }
  change (OBreak :: ?t) with ([OBreak] ++ t).
  rewrite !logged_app, (print_summary_logs_nothing self e), app_nil_r by done.
  rewrite (log_metrics_logged self e) by done.
  split; [done|]. unfold cm. by destruct (cls_active sh).
Qed.

Lemma epoch_end_logs_the_summary_witness :
  let run := on_validation_epoch_end (sample_trainer (λ _, two_heads) false)
               (map step_dict sample_steps) in
  map (λ x, x.1.1) (logged (trace_of run))
  = [ "mean_fg_dice"; "dice_per_class_or_region"; "val_losses"; "val_total_loss";
      "val_seg_loss"; "val_cls_loss" ].
Proof.
  intros run.
  destruct (epoch_end_logs_the_summary (sample_trainer (λ _, two_heads) false)
              (sample_shape None) sample_steps 0)
    as (r & _ & _ & Hkeys); [done|apply sample_steps_shape|done|done|].
  exact Hkeys.
Defined.



(** The per-step results taken in another order, in a single process: both
    runs return a summary, and the entries computed from the counts (Dice
    per class, mean foreground Dice, the classification metrics) are the
    same, as long as no summed segmentation count is above 2^24, where the
    float32 sums over the steps are the exact sums in either order.  Every
    loss mean is np.mean of the per-step values in the order of the
    results. *)
Theorem epoch_end_order_of_steps {Params} (self : Trainer Params) (sh : Shape)
    (vs vs' : list StepView) (e : nat) :
  vs ≠ [] → Forall (has_shape sh) vs → vs ≡ₚ vs' →
  is_ddp self = false → current_epoch self = Some e →
  let total f := summed_counts (n_fg sh) (map f vs) in
  within_float32 (total v_tp) → within_float32 (total v_fp) →
  within_float32 (total v_fn) →
  (∃ r r',
     result_of (on_validation_epoch_end self (map step_dict vs)) = inr r ∧
     result_of (on_validation_epoch_end self (map step_dict vs')) = inr r' ∧
     dice_entries (total v_tp) (total v_fp) (total v_fn) r ∧
     (∀ key, key ∈ count_metrics → dict_get r' key = dict_get r key) ∧
     (∀ key f, (key, f) ∈ loss_means →
        dict_get r key = Some (SFloat (np_mean (map (λ v, lval_num (f v)) vs))) ∧
        dict_get r' key = Some (SFloat (np_mean (map (λ v, lval_num (f v)) vs'))))) ∧
  (∀ f, f ∈ [v_tp; v_fp; v_fn] →
     let sum ws := Float32.np_sum0 (map (λ v, Float32.array (f v)) ws) in
     sum vs = Float32.array (total f) ∧ sum vs' = Float32.array (total f)).
Proof.
  intros Hne Hall Hperm Hddp He total Hwtp Hwfp Hwfn.
  assert (Hne' : vs' ≠ []).
  { intros ->. by apply Permutation_nil_r in Hperm. }
  assert (Hall' : Forall (has_shape sh) vs') by (by rewrite <-Hperm).
  assert (Hsame : epoch_summary sh vs' = epoch_summary sh vs).
  { symmetry. by apply epoch_summary_permutation. }
  split.
  - exists (epoch_summary sh vs), (epoch_summary sh vs').
    split; [by apply (on_validation_epoch_end_local self sh vs e)|].
    split; [by apply (on_validation_epoch_end_local self sh vs' e)|].
    split.
    { destruct (summed_counts_views sh vs Hne Hall) as (Htp & Hfp & Hfn).
      unfold total. rewrite <-Htp, <-Hfp, <-Hfn. by apply epoch_summary_dice. }
    split; [intros key _; by rewrite Hsame|].
    intros key f Hin. unfold loss_means in Hin.
    repeat (apply elem_of_cons in Hin as [[= -> ->]|Hin]; [by split|]).
    by apply elem_of_nil in Hin.
  - intros f Hf sum.
    assert (Hlen : ∀ ws, Forall (has_shape sh) ws → Forall (λ v, length (f v) = n_fg sh) ws).
    { intros ws Hws. (eapply Forall_impl; [exact Hws|]). intros v (? & ? & ? & _).
      repeat (apply elem_of_cons in Hf as [->|Hf]; [done|]).
      by apply elem_of_nil in Hf. }
    assert (Hw : within_float32 (total f)).
    { repeat (apply elem_of_cons in Hf as [->|Hf]; [done|]).
      by apply elem_of_nil in Hf. }
    unfold sum, total in *. split; [by apply float32_sum_views; auto|].
    rewrite (summed_counts_permutation _ (map f vs) (map f vs')) in *
      by (by apply Permutation_map).
    by apply float32_sum_views; auto.
Qed.

Lemma epoch_end_order_of_steps_witness :
  ∃ r r',
    result_of (on_validation_epoch_end (sample_trainer (λ _, two_heads) false)
                 (map step_dict sample_steps)) = inr r ∧
    result_of (on_validation_epoch_end (sample_trainer (λ _, two_heads) false)
                 (map step_dict (reverse sample_steps))) = inr r' ∧
    dict_get r' "dice_per_class" = dict_get r "dice_per_class".
Proof.
  destruct (epoch_end_order_of_steps (sample_trainer (λ _, two_heads) false)
              (sample_shape None) sample_steps (reverse sample_steps) 0)
    as [(r & r' & Hr & Hr' & _ & Hkeys & _) _];
    [done|apply sample_steps_shape|by rewrite reverse_Permutation|done|done
    |repeat constructor; done|repeat constructor; done|repeat constructor; done|].
  exists r, r'. split; [exact Hr|]. split; [exact Hr'|].
  apply Hkeys. apply elem_of_cons. by left.
Defined.

(** ** Bounds of the metrics *)

Lemma reduces_to_summary {Params} (self : Trainer Params) (sh : Shape) (e : nat)
    (P : list StepView → pydict sval → Prop) :
  current_epoch self = Some e →
  (∀ vs, vs ≠ [] → Forall (has_shape sh) vs → P vs (epoch_summary sh vs)) →
  reduces_to self sh P.
Proof.
  intros He HP. split.
  - intros vs Hne Hall Hddp. exists (epoch_summary sh vs).
    split; [by apply (on_validation_epoch_end_local self sh vs e)|by apply HP].
  - intros vs0 vss Hok Hddp. exists (epoch_summary sh (concat (vs0 :: vss))).
    eexists. split.
    + rewrite (on_validation_epoch_end_world self sh vs0 vss e) by done.
      by rewrite (world_summary_concat sh (vs0 :: vss)).
    + destruct (world_ok_concat sh _ Hok). by apply HP.
Qed.

Lemma Qc_of_N_nonneg (a : N) : 0 ≤ Qc_of_N a.
Proof. unfold Qc_of_N. rewrite <-Z2Qc_inj_0, <-Z2Qc_inj_le. lia. Qed.

Lemma Qc_of_N_le (a b : N) : (a ≤ b)%N ↔ Qc_of_N a ≤ Qc_of_N b.
Proof. unfold Qc_of_N. rewrite <-Z2Qc_inj_le. lia. Qed.

Lemma Qc_of_N_pos (a : N) : (0 < a)%N ↔ 0 < Qc_of_N a.
Proof. unfold Qc_of_N. rewrite <-Z2Qc_inj_0, <-Z2Qc_inj_lt. lia. Qed.

Lemma Qc_of_N_inj (a b : N) : Qc_of_N a = Qc_of_N b → a = b.
Proof. unfold Qc_of_N. intros H. apply Z2Qc_inj in H. lia. Qed.

Lemma ratio_unit (x y : Qc) : 0 ≤ x → x ≤ y → 0 < y → unit_interval (x / y).
Proof.
  intros Hx Hxy Hy. unfold Qcdiv. split.
  - apply Qcmult_nonneg_nonneg; [done|]. by apply Qclt_le_weak, Qcinv_pos.
  - rewrite <-(Qcmult_inv_r y) by (by apply Qclt_not_eq in Hy).
    apply Qcmult_le_mono_nonneg_r; [|done]. by apply Qclt_le_weak, Qcinv_pos.
Qed.

Lemma unit_interval_0 : unit_interval 0.
Proof. split; [apply Qcle_refl|done]. Qed.

Lemma ratio_eq_one (x y : Qc) : y ≠ 0 → x / y = 1 ↔ x = y.
Proof.
  intros Hy. split.
  - intros H. rewrite <-(test_field x y Hy), H. apply Qcmult_1_l.
  - intros ->. by apply Qcmult_inv_r.
Qed.

Lemma ratio_eq_zero (x y : Qc) : y ≠ 0 → x / y = 0 ↔ x = 0.
Proof.
  intros Hy. split.
  - intros H. rewrite <-(test_field x y Hy), H. apply Qcmult_0_l.
  - intros ->. apply Qcmult_0_l.
Qed.

Lemma guarded_ratio_unit (x d : N) : (x ≤ d)%N → unit_interval (guarded_ratio x d).
Proof.
  intros Hle. unfold guarded_ratio. destruct (N.eqb_spec d 0) as [->|Hd].
  - apply unit_interval_0.
  - apply ratio_unit.
    + apply Qc_of_N_nonneg.
    + by apply Qc_of_N_le.
    + apply Qc_of_N_pos. lia.
Qed.

Lemma f1_score_unit (p r : Qc) :
  unit_interval p → unit_interval r → unit_interval (f1_score p r).
Proof.
  intros [Hp0 Hp1] [Hr0 Hr1]. unfold f1_score. case_bool_decide as Hz.
  - apply unit_interval_0.
  - assert (Hsum : 0 ≤ p + r) by (by apply Qcplus_nonneg_nonneg).
    assert (Hpos : 0 < p + r).
    { apply Qcle_lt_or_eq in Hsum as [?|Heq]; [done|]. by destruct Hz. }
    assert (H2 : 0 ≤ Qc_of_Z 2).
    { by rewrite <-Z2Qc_inj_0, <-Z2Qc_inj_le. }
    apply ratio_unit; [| |done].
    + apply Qcmult_nonneg_nonneg; [|done]. by apply Qcmult_nonneg_nonneg.
    + assert (Hpr : p * r ≤ p).
      { rewrite <-(Qcmult_1_r p) at 2. by apply Qcmult_le_mono_nonneg_l. }
      assert (Hrp : p * r ≤ r).
      { rewrite <-(Qcmult_1_l r) at 2. by apply Qcmult_le_mono_nonneg_r. }
      replace (Qc_of_Z 2 * p * r) with (p * r + p * r).
      * by apply Qcplus_le_compat.
      * rewrite Qcplus_diag, Z2Qc_inj_2. ring.
Qed.

Lemma Qc_sum_unit (l : list Qc) :
  Forall unit_interval l → 0 ≤ Qc_sum l ∧ Qc_sum l ≤ Qc_of_Z (Z.of_nat (length l)).
Proof.
  induction 1 as [|q l [Hq0 Hq1] Hl [IH0 IH1]]; cbn [Qc_sum foldr length].
  - split; [apply Qcle_refl|]. by rewrite <-Z2Qc_inj_0, <-Z2Qc_inj_le.
  - change (foldr Qcplus 0 l) with (Qc_sum l).
    split; [by apply Qcplus_nonneg_nonneg|].
    rewrite Nat2Z.inj_succ, <-Z.add_1_l, Z2Qc_inj_add, Z2Qc_inj_1.
    by apply Qcplus_le_compat.
Qed.

Lemma mean_unit (l : list Qc) :
  l ≠ [] → Forall unit_interval l →
  unit_interval (Qc_sum l / Qc_of_Z (Z.of_nat (length l))).
Proof.
  intros Hne Hall. destruct (Qc_sum_unit l Hall) as [H0 H1].
  apply ratio_unit; [done|done|].
  rewrite <-Z2Qc_inj_0, <-Z2Qc_inj_lt. destruct l; [done|]. simpl. lia.
Qed.

Lemma Num_inj (a b : Qc) : Num a = Num b → a = b.
Proof.
  intros H. by apply (f_equal (λ v, match v with Num q => q | _ => a end)) in H.
Qed.

Lemma dice_formula_unit (i j k : N) : nan_or_unit (dice_formula i j k).
Proof.
  unfold dice_formula. case_bool_decide as Hz; [by left|]. right.
  eexists. split; [done|].
  change (Qc_of_Z 2) with (Qc_of_N 2) in *.
  rewrite <-Qc_of_N_mul, <-!Qc_of_N_add in *.
  apply ratio_unit.
  - apply Qc_of_N_nonneg.
  - apply Qc_of_N_le. lia.
  - apply Qc_of_N_pos. rewrite Qc_of_N_zero in Hz. lia.
Qed.

Lemma dice_formula_one (i j k : N) :
  dice_formula i j k = Num 1 ↔ (0 < i)%N ∧ j = 0%N ∧ k = 0%N.
Proof.
  unfold dice_formula.
  change (Qc_of_Z 2) with (Qc_of_N 2) in *.
  rewrite <-Qc_of_N_mul, <-!Qc_of_N_add. case_bool_decide as Hz.
  - rewrite Qc_of_N_zero in Hz. split; [done|]. lia.
  - split.
    + intros H. apply Num_inj in H. apply (proj1 (ratio_eq_one _ _ Hz)) in H.
      apply Qc_of_N_inj in H. rewrite Qc_of_N_zero in Hz. lia.
    + intros (Hi & -> & ->). f_equal. apply (proj2 (ratio_eq_one _ _ Hz)). f_equal. lia.
Qed.

Lemma dice_formula_zero (i j k : N) :
  dice_formula i j k = Num 0 ↔ i = 0%N ∧ (0 < j + k)%N.
Proof.
  unfold dice_formula.
  change (Qc_of_Z 2) with (Qc_of_N 2) in *.
  rewrite <-Qc_of_N_mul, <-!Qc_of_N_add. case_bool_decide as Hz.
  - rewrite Qc_of_N_zero in Hz. split; [done|]. lia.
  - split.
    + intros H. apply Num_inj in H. apply (proj1 (ratio_eq_zero _ _ Hz)) in H.
      apply Qc_of_N_zero in H. rewrite Qc_of_N_zero in Hz. lia.
    + intros [-> Hjk]. f_equal. apply (proj2 (ratio_eq_zero _ _ Hz)).
      by apply Qc_of_N_zero.
Qed.

Lemma numbers_unit (l : list fval) :
  Forall nan_or_unit l → Forall unit_interval (numbers l).
Proof.
  unfold numbers. induction 1 as [|v l [->|(q & -> & Hq)] Hl IH]; simpl; auto.
Qed.

Lemma numbers_nil (l : list fval) :
  Forall nan_or_unit l → numbers l = [] ↔ Forall (λ d, d = NaN) l.
Proof.
  unfold numbers. induction 1 as [|v l [->|(q & -> & Hq)] Hl IH]; simpl.
  - done.
  - rewrite IH. split; [by constructor|]. by inversion 1.
  - split; [done|]. by inversion 1.
Qed.

Lemma mean_ignoring_nan_unit (l : list fval) :
  Forall nan_or_unit l →
  nan_or_unit (mean_ignoring_nan l) ∧
  (mean_ignoring_nan l = NaN ↔ Forall (λ d, d = NaN) l).
Proof.
  intros Hl. pose proof (numbers_unit l Hl) as Hn.
  pose proof (numbers_nil l Hl) as Hnil.
  unfold mean_ignoring_nan. destruct (numbers l) as [|q qs] eqn:Hq.
  - split; [by left|]. split; [intros _; by apply Hnil|done].
  - split.
    + right. eexists. split; [done|]. by apply mean_unit.
    + split; [done|]. intros Hall. apply Hnil in Hall. done.
Qed.

(** The Dice values of the summary, in either mode of the reduction: every
    per-class value is not-a-number or lies between 0 and 1, and so does the
    mean foreground Dice, which is not-a-number exactly when every class is;
    a class with true positives and neither false positives nor false
    negatives has Dice 1, and a class has Dice 0 exactly when it has no true
    positive but some false positive or false negative. *)
Theorem dice_values_are_bounded {Params} (self : Trainer Params) (sh : Shape) (e : nat) :
  current_epoch self = Some e →
  reduces_to self sh (λ vs r,
    ∃ dice m,
      dict_get r "dice_per_class" = Some (SList dice) ∧
      dict_get r "mean_fg_dice" = Some (SFloat m) ∧
      Forall nan_or_unit dice ∧ nan_or_unit m ∧
      (m = NaN ↔ Forall (λ d, d = NaN) dice) ∧
      ∀ c i j k,
        col_sums (map v_tp vs) !! c = Some i → col_sums (map v_fp vs) !! c = Some j →
        col_sums (map v_fn vs) !! c = Some k →
        ((0 < i)%N ∧ j = 0%N ∧ k = 0%N → dice !! c = Some (Num 1)) ∧
        (dice !! c = Some (Num 0) ↔ i = 0%N ∧ (0 < j + k)%N)).
Proof.
  intros He. apply (reduces_to_summary self sh e); [done|].
  intros vs Hne Hall.
  set (tp := col_sums (map v_tp vs)). set (fp := col_sums (map v_fp vs)).
  set (fn := col_sums (map v_fn vs)).
  destruct (has_shape_seg_lengths sh vs Hne Hall) as (Htp & Hfp & Hfn).
  fold tp fp fn in Htp, Hfp, Hfn.
  assert (Hlen : length (dice_per_class tp fp fn) = n_fg sh)
    by (by apply length_dice_per_class).
  assert (Hunit : Forall nan_or_unit (dice_per_class tp fp fn)).
  { apply Forall_lookup. intros c d Hd.
    assert (Hc : (c < n_fg sh)%nat).
    { rewrite <-Hlen. by apply lookup_lt_Some in Hd. }
    destruct (lookup_lt_is_Some_2 tp c) as [i Hi]; [lia|].
    destruct (lookup_lt_is_Some_2 fp c) as [j Hj]; [lia|].
    destruct (lookup_lt_is_Some_2 fn c) as [k Hk]; [lia|].
    rewrite (dice_per_class_lookup tp fp fn c i j k Hi Hj Hk) in Hd.
    injection Hd as <-. apply dice_formula_unit. }
  exists (dice_per_class tp fp fn), (np_nanmean (dice_per_class tp fp fn)).
  split; [done|]. split; [done|]. split; [done|].
  rewrite np_nanmean_spec by apply dice_per_class_finite.
  destruct (mean_ignoring_nan_unit _ Hunit) as [Hm Hnan].
  split; [done|]. split; [done|].
  intros c i j k Hi Hj Hk.
  rewrite (dice_per_class_lookup tp fp fn c i j k Hi Hj Hk).
  split.
  - intros Hone. apply dice_formula_one in Hone. by rewrite Hone.
  - rewrite <-dice_formula_zero. split; [by intros [= ->]|by intros ->].
Qed.

Lemma dice_values_are_bounded_witness :
  ∃ r dice,
    result_of (on_validation_epoch_end (sample_trainer (λ _, two_heads) false)
                 (map step_dict sample_steps)) = inr r ∧
    dict_get r "dice_per_class" = Some (SList dice) ∧ Forall nan_or_unit dice.
Proof.
  destruct (dice_values_are_bounded (sample_trainer (λ _, two_heads) false)
              (sample_shape None) 0 eq_refl) as [Hlocal _].
  destruct (Hlocal sample_steps) as (r & Hr & dice & m & Hd & _ & Hb & _);
    [done|apply sample_steps_shape|done|].
  by exists r, dice.
Defined.


Lemma precision_unit (tp other : list N) :
  Forall unit_interval (zip_with guarded_ratio tp (zip_with N.add tp other)).
Proof.
  revert other. induction tp as [|a tp IH]; intros [|b other]; simpl; try by constructor.
  constructor; [|apply IH]. apply guarded_ratio_unit. lia.
Qed.

Lemma f1_unit (p r : list Qc) :
  Forall unit_interval p → Forall unit_interval r →
  Forall unit_interval (zip_with f1_score p r).
Proof.
  intros Hp. revert r. induction Hp as [|x p Hx Hp IH]; intros r Hr; [by constructor|].
  destruct Hr as [|y r Hy Hr]; [by constructor|]. simpl.
  constructor; [by apply f1_score_unit|by apply IH].
Qed.

Lemma macro_unit (l : list Qc) :
  l ≠ [] → Forall unit_interval l →
  ∃ m, np_nanmean (map Num l) = Num m ∧ unit_interval m.
Proof.
  intros Hne Hl. destruct (macro_average_spec l) as [_ Hm].
  eexists. split; [by apply Hm|]. by apply mean_unit.
Qed.

Lemma accuracy_bounds (correct total : N) :
  let acc := if (0 <? total)%N then Qc_of_N correct / Qc_of_N total else 0 in
  0 ≤ acc ∧ ((correct ≤ total)%N → acc ≤ 1).
Proof.
  cbv zeta. destruct (N.ltb_spec 0 total) as [Hpos|Hz].
  - split.
    + apply Qcmult_nonneg_nonneg; [apply Qc_of_N_nonneg|].
      by apply Qclt_le_weak, Qcinv_pos, Qc_of_N_pos.
    + intros Hle. apply ratio_unit; [apply Qc_of_N_nonneg|by apply Qc_of_N_le|].
      by apply Qc_of_N_pos.
  - split; [apply Qcle_refl|done].
Qed.

(** The classification values of the summary, in either mode of the
    reduction, for [k] > 0 classes: every per-class precision, recall and F1
    and the three macro averages lie between 0 and 1; the accuracy is not
    negative, and is at most 1 when there are no more correct predictions
    than samples. *)
Theorem classification_values_are_bounded {Params} (self : Trainer Params) (sh : Shape)
    (e k : nat) :
  current_epoch self = Some e → n_cls sh = Some k → (0 < k)%nat →
  reduces_to self sh (λ vs r,
    ∃ acc precision recall f1 mp mr mf,
      dict_get r "cls_accuracy" = Some (SFloat (Num acc)) ∧
      dict_get r "cls_precision_per_class" = Some (SArr precision) ∧
      dict_get r "cls_recall_per_class" = Some (SArr recall) ∧
      dict_get r "cls_f1_per_class" = Some (SArr f1) ∧
      dict_get r "cls_macro_precision" = Some (SFloat (Num mp)) ∧
      dict_get r "cls_macro_recall" = Some (SFloat (Num mr)) ∧
      dict_get r "cls_macro_f1" = Some (SFloat (Num mf)) ∧
      Forall unit_interval precision ∧ Forall unit_interval recall ∧
      Forall unit_interval f1 ∧
      unit_interval mp ∧ unit_interval mr ∧ unit_interval mf ∧
      0 ≤ acc ∧
      ((N_sum (map sv_cls_correct vs) ≤ N_sum (map sv_cls_total vs))%N → acc ≤ 1)).
Proof.
  intros He Hk Hpos. apply (reduces_to_summary self sh e); [done|].
  intros vs Hne Hall. rewrite epoch_summary_active by done.
  unfold cls_active. rewrite Hk, (proj2 (Nat.ltb_lt 0 k)) by done.
  set (tp := col_sums (map sv_cls_tp vs)). set (fp := col_sums (map sv_cls_fp vs)).
  set (fn := col_sums (map sv_cls_fn vs)).
  destruct (has_shape_cls_lengths sh vs k Hne Hall Hk) as (Htp & Hfp & Hfn).
  fold tp fp fn in Htp, Hfp, Hfn.
  set (precision := zip_with guarded_ratio tp (zip_with N.add tp fp)).
  set (recall := zip_with guarded_ratio tp (zip_with N.add tp fn)).
  set (f1 := zip_with f1_score precision recall).
  assert (Hup : Forall unit_interval precision) by apply precision_unit.
  assert (Hur : Forall unit_interval recall) by apply precision_unit.
  assert (Huf : Forall unit_interval f1) by (by apply f1_unit).
  assert (Hnonempty : ∀ l : list Qc, length l = k → l ≠ []).
  { intros l Hl ->. simpl in Hl. lia. }
  destruct (macro_unit precision) as (mp & Hmp & Hmpu); [|done|].
  { apply Hnonempty. unfold precision. rewrite !length_zip_with. lia. }
  destruct (macro_unit recall) as (mr & Hmr & Hmru); [|done|].
  { apply Hnonempty. unfold recall. rewrite !length_zip_with. lia. }
  destruct (macro_unit f1) as (mf & Hmf & Hmfu); [|done|].
  { apply Hnonempty. unfold f1, precision, recall. rewrite !length_zip_with. lia. }
  destruct (accuracy_bounds (N_sum (map sv_cls_correct vs))
              (N_sum (map sv_cls_total vs))) as [Hacc0 Hacc1].
  eexists _, precision, recall, f1, mp, mr, mf.
  cbn [seg_part cls_part app dict_get String.eqb Ascii.eqb Bool.eqb].
  fold tp fp fn precision recall f1. rewrite Hmp, Hmr, Hmf.
  do 7 (split; [reflexivity|]). do 6 (split; [assumption|]). by split.
Qed.

Lemma classification_values_are_bounded_witness :
  ∃ r precision,
    result_of (on_validation_epoch_end (sample_trainer (λ _, two_heads) false)
                 (map step_dict [sample_step 3 [4; 0]%N [1; 0]%N [2; 0]%N
                                             (Some (sample_cls 7 10))])) = inr r ∧
    dict_get r "cls_precision_per_class" = Some (SArr precision) ∧
    Forall unit_interval precision.
Proof.
  destruct (classification_values_are_bounded (sample_trainer (λ _, two_heads) false)
              (sample_shape (Some 2%nat)) 0 2 eq_refl eq_refl) as [Hlocal _]; [lia|].
  destruct (Hlocal [sample_step 3 [4; 0]%N [1; 0]%N [2; 0]%N (Some (sample_cls 7 10))])
    as (r & Hr & acc & precision & recall & f1 & mp & mr & mf & _ & Hp & _ & _ & _ & _
        & _ & Hb & _); [done|repeat constructor|done|].
  by exists r, precision.
Defined.

Lemma guarded_ratio_zero (d : N) : guarded_ratio 0 d = 0.
Proof.
  unfold guarded_ratio. destruct (d =? 0)%N; [done|].
  change (Qc_of_N 0) with (Qc_of_Z 0). rewrite Z2Qc_inj_0. apply Qcmult_0_l.
Qed.

(** F1 from the counts: 2*tp / (2*tp + fp + fn), and 0 when that
    denominator is 0. *)
Lemma f1_of_counts (a b x : N) :
  f1_score (guarded_ratio a (a + b)) (guarded_ratio a (a + x))
  = ratio_or_zero (Qc_of_Z 2 * Qc_of_N a)
                  (Qc_of_Z 2 * Qc_of_N a + Qc_of_N b + Qc_of_N x).
Proof.
  destruct (decide (a = 0%N)) as [->|Ha].
  - rewrite !guarded_ratio_zero. unfold f1_score, ratio_or_zero.
    rewrite Qcplus_0_l, bool_decide_eq_true_2 by done.
    change (Qc_of_N 0) with (Qc_of_Z 0). rewrite Z2Qc_inj_0, Qcmult_0_r.
    case_bool_decide; [done|]. symmetry. apply Qcmult_0_l.
  - assert (HA : 0 < Qc_of_N a) by (apply Qc_of_N_pos; lia).
    pose proof (Qc_of_N_nonneg b) as HB. pose proof (Qc_of_N_nonneg x) as HX.
    unfold guarded_ratio.
    rewrite (proj2 (N.eqb_neq (a + b) 0)), (proj2 (N.eqb_neq (a + x) 0)) by lia.
    rewrite !Qc_of_N_add.
    set (A := Qc_of_N a) in *. set (B := Qc_of_N b) in *. set (X := Qc_of_N x) in *.
    assert (HAB : 0 < A + B) by (by apply Qcplus_pos_nonneg).
    assert (HAX : 0 < A + X) by (by apply Qcplus_pos_nonneg).
    assert (H2 : 0 < Qc_of_Z 2) by (by rewrite <-Z2Qc_inj_0, <-Z2Qc_inj_lt).
    assert (Hden : 0 < Qc_of_Z 2 * A + B + X).
    { apply Qcplus_pos_nonneg; [|done]. apply Qcplus_pos_nonneg; [|done].
      by apply Qcmult_pos_pos. }
    assert (Hp : 0 < A / (A + B)) by (apply Qcmult_pos_pos; [done|by apply Qcinv_pos]).
    assert (Hr : 0 < A / (A + X)) by (apply Qcmult_pos_pos; [done|by apply Qcinv_pos]).
    assert (Hsum : 0 < A / (A + B) + A / (A + X)) by (by apply Qcplus_pos_pos).
    unfold f1_score, ratio_or_zero.
    rewrite !bool_decide_eq_false_2 by (by apply not_eq_sym, Qclt_not_eq).
    assert (Hprod : 0 < A * (A + X) + A * (A + B)).
    { apply Qcplus_pos_pos; by apply Qcmult_pos_pos. }
    apply Qclt_not_eq, not_eq_sym in HA, HAB, HAX, Hden, Hsum, Hprod.
    rewrite Z2Qc_inj_2 in *. field. by repeat split.
Qed.

Lemma f1_zero_iff (a b x : N) :
  f1_score (guarded_ratio a (a + b)) (guarded_ratio a (a + x)) = 0 ↔ a = 0%N.
Proof.
  rewrite f1_of_counts. unfold ratio_or_zero.
  change (Qc_of_Z 2) with (Qc_of_N 2).
  rewrite <-Qc_of_N_mul, <-!Qc_of_N_add. case_bool_decide as Hz.
  - rewrite Qc_of_N_zero in Hz. split; [intros _; lia|done].
  - rewrite (ratio_eq_zero _ _ Hz), Qc_of_N_zero. lia.
Qed.

Lemma f1_one (a : N) :
  (0 < a)%N → f1_score (guarded_ratio a (a + 0)) (guarded_ratio a (a + 0)) = 1.
Proof.
  intros Ha. rewrite f1_of_counts. unfold ratio_or_zero.
  change (Qc_of_Z 2) with (Qc_of_N 2).
  rewrite <-Qc_of_N_mul, <-!Qc_of_N_add.
  rewrite bool_decide_eq_false_2 by (rewrite Qc_of_N_zero; lia).
  apply ratio_eq_one; [rewrite Qc_of_N_zero; lia|]. f_equal. lia.
Qed.

(** The per-class F1 of the summary, in either mode of the reduction: it is
    0 exactly for the classes without a true positive, and 1 for a class
    with true positives and neither false positives nor false negatives. *)
Theorem f1_vanishes_without_true_positives {Params} (self : Trainer Params) (sh : Shape)
    (e k : nat) :
  current_epoch self = Some e → n_cls sh = Some k → (0 < k)%nat →
  reduces_to self sh (λ vs r,
    ∃ f1,
      dict_get r "cls_f1_per_class" = Some (SArr f1) ∧ length f1 = k ∧
      ∀ c a b x,
        col_sums (map sv_cls_tp vs) !! c = Some a →
        col_sums (map sv_cls_fp vs) !! c = Some b →
        col_sums (map sv_cls_fn vs) !! c = Some x →
        (f1 !! c = Some 0 ↔ a = 0%N) ∧
        ((0 < a)%N → b = 0%N → x = 0%N → f1 !! c = Some 1)).
Proof.
  intros He Hk Hpos. apply (reduces_to_summary self sh e); [done|].
  intros vs Hne Hall. rewrite epoch_summary_active by done.
  unfold cls_active. rewrite Hk, (proj2 (Nat.ltb_lt 0 k)) by done.
  set (tp := col_sums (map sv_cls_tp vs)). set (fp := col_sums (map sv_cls_fp vs)).
  set (fn := col_sums (map sv_cls_fn vs)).
  destruct (has_shape_cls_lengths sh vs k Hne Hall Hk) as (Htp & Hfp & Hfn).
  fold tp fp fn in Htp, Hfp, Hfn.
  eexists. split; [reflexivity|]. split.
  - rewrite !length_zip_with. lia.
  - intros c a b x Ha Hb Hx.
    rewrite !lookup_zip_with, Ha, Hb, Hx. simpl. split.
    + rewrite <-(f1_zero_iff a b x). split; [by intros [= ->]|by intros ->].
    + intros Hpa -> ->. by rewrite f1_one.
Qed.

Lemma f1_vanishes_without_true_positives_witness :
  ∃ r f1,
    result_of (on_validation_epoch_end (sample_trainer (λ _, two_heads) false)
                 (map step_dict [sample_step 3 [4; 0]%N [1; 0]%N [2; 0]%N
                                             (Some (sample_cls 7 10))])) = inr r ∧
    dict_get r "cls_f1_per_class" = Some (SArr f1) ∧ f1 !! 1%nat = Some 0.
Proof.
  destruct (f1_vanishes_without_true_positives (sample_trainer (λ _, two_heads) false)
              (sample_shape (Some 2%nat)) 0 2 eq_refl eq_refl) as [Hlocal _]; [lia|].
  destruct (Hlocal [sample_step 3 [4; 0]%N [1; 0]%N [2; 0]%N (Some (sample_cls 7 10))])
    as (r & Hr & f1 & Hf & _ & Hc); [done|repeat constructor|done|].
  exists r, f1. split; [done|]. split; [done|].
  by apply (Hc 1%nat 0%N 0%N 3%N).
Defined.

(** ** Workers that disagree on the classification counts *)

Lemma run_with_cons_any {A} (p : Prog A) a rest c o :
  run_with p (a :: rest) = (c, o, []) →
  ∃ name v k c', advance p = Waiting name v k ∧ c = (name, v) :: c' ∧
                 run_with (k a) rest = (c', o, []).
Proof.
  induction p as [x|e|k IH|name v k IH|ev k IH]; simpl; intros Hrun;
    simplify_eq; auto.
  destruct (run_with (k a) rest) as [[c' r'] rem'] eqn:Hk. simplify_eq.
  by exists name, v, k, c'.
Qed.

Lemma run_with_nil_waiting {A} (p : Prog A) c rem :
  run_with p [] = (c, None, rem) → ∃ name v k, advance p = Waiting name v k.
Proof.
  induction p as [x|e|k IH|name v k IH|ev k IH]; simpl; intros Hrun;
    simplify_eq; eauto.
Qed.

Lemma run_world_done_waiting {A} (p q : Prog A) r name v k :
  advance p = Done r → advance q = Waiting name v k → run_world p [q] = Hang.
Proof.
  intros Hp Hq.
  induction p as [a|e|k' IH|name' v' k' IH|ev k' IH]; simpl in *; simplify_eq; auto;
    by rewrite Hq.
Qed.

Lemma run_world_waiting_done {A} (p q : Prog A) r name v k :
  advance p = Waiting name v k → advance q = Done r → run_world p [q] = Hang.
Proof.
  intros Hp Hq.
  induction p as [a|e|k' IH|name' v' k' IH|ev k' IH]; simpl in *; simplify_eq; auto.
  by rewrite Hq.
Qed.

(** Two processes that agree on the collectives of the answers, after which
    one of them has finished and the other waits in one collective more: the
    group hangs. *)
Lemma run_world_one_waits {A} (ans : list (list payload)) :
  ∀ (p q : Prog A) cp cq (op oq : option (exn + A)),
    run_with p ans = (cp, op, []) → run_with q ans = (cq, oq, []) →
    consistent ans [cp; cq] →
    (op = None ∧ is_Some oq) ∨ (is_Some op ∧ oq = None) →
    run_world p [q] = Hang.
Proof.
  induction ans as [|a rest IH]; intros p q cp cq op oq Hp Hq Hcons Hone.
  - destruct Hone as [[-> [r ->]]|[[r ->] ->]].
    + apply run_with_nil_waiting in Hp as (name & v & k & Hp).
      apply run_with_nil in Hq as [Hq _]. by eapply run_world_waiting_done.
    + apply run_with_nil_waiting in Hq as (name & v & k & Hq).
      apply run_with_nil in Hp as [Hp _]. by eapply run_world_done_waiting.
  - apply run_with_cons_any in Hp as (n1 & v1 & k1 & c1 & Hp & -> & Hp').
    apply run_with_cons_any in Hq as (n2 & v2 & k2 & c2 & Hq & -> & Hq').
    destruct Hcons as [Ha Hcons]. cbn in Ha, Hcons.
    rewrite (run_world_waiting p [q] n1 v1 k1 [(n2, v2, k2)]); [|done|].
    2:{ cbn. by rewrite Hq. }
    cbn [map fst snd]. rewrite <-Ha.
    by rewrite (IH (k1 a) (k2 a) c1 c2 op oq).
Qed.

Lemma run_with_gather_nil {A} (name : string) (v : payload) (f : list payload → Prog A) :
  run_with (all_gather_object name v ≫= f) [] = ([(name, v)], None, []).
Proof. reflexivity. Qed.

Section MixedWorld.
Context {Params : Type} (self : Trainer Params) (sh : Shape) (k : nat).
Context (vs0 vs1 : list StepView) (world : list (list StepView)).
Context (Hddp : is_ddp self = true) (Hk : n_cls sh = Some k) (Hpos : (0 < k)%nat).
Context (Hne0 : vs0 ≠ []) (Hall0 : Forall (has_shape sh) vs0).
Context (Hne1 : vs1 ≠ []) (Hall1 : Forall (has_shape (without_cls sh)) vs1).
Context (Hkind : loss_is_tensor sh && seg_loss_is_tensor sh && cls_loss_is_tensor sh = true
                 ∨ length vs0 = length vs1).
Context (Hworld : world = [vs0; vs1] ∨ world = [vs1; vs0]).

Lemma mixed_kind (b : bool) :
  b = loss_is_tensor sh ∨ b = seg_loss_is_tensor sh ∨ b = cls_loss_is_tensor sh →
  b = true ∨ ∃ m, Forall (λ vs, length vs = m) world.
Proof.
  intros Hb. destruct Hkind as [Ht|Hlen].
  - left. apply andb_prop in Ht as [Ht H3]. apply andb_prop in Ht as [H1 H2].
    destruct Hb as [->|[->| ->]]; done.
  - right. exists (length vs0). destruct Hworld as [->| ->]; by repeat constructor.
Qed.

Lemma mixed_lengths (f : StepView → list N) :
  (∀ sh' v, n_fg sh' = n_fg sh → has_shape sh' v → length (f v) = n_fg sh) →
  Forall (λ vs, length (col_sums (map f vs)) = n_fg sh) world.
Proof.
  intros Hf.
  assert (H0 : length (col_sums (map f vs0)) = n_fg sh).
  { apply (length_col_sums_views sh); [done|]. intros v Hv. apply (Hf sh); [done|].
    rewrite Forall_forall in Hall0. by apply Hall0. }
  assert (H1 : length (col_sums (map f vs1)) = n_fg sh).
  { apply (length_col_sums_views sh); [done|]. intros v Hv.
    apply (Hf (without_cls sh)); [done|].
    rewrite Forall_forall in Hall1. by apply Hall1. }
  destruct Hworld as [->| ->]; by repeat constructor.
Qed.

(** The six collectives of the counts and the losses, for a worker of either
    kind. *)
Lemma reduce_segmentation_mixed (shw : Shape) (vs : list StepView)
    (rest : list (list payload)) :
  shw = sh ∨ shw = without_cls sh →
  run_with (reduce_segmentation self (collated_of shw vs) (col_sums (map v_tp vs))
              (col_sums (map v_fp vs)) (col_sums (map v_fn vs)))
           (map (λ ng, map ng.2 world) (seg_plan sh) ++ rest) =
  (map (λ ng, (ng.1, ng.2 vs)) (seg_plan sh),
   Some (inr {| r_tp := world_sum v_tp world; r_fp := world_sum v_fp world;
                r_fn := world_sum v_fn world;
                r_total_loss := loss_mean v_loss (concat world);
                r_seg_loss := loss_mean v_seg_loss (concat world);
                r_cls_loss := loss_mean v_cls_loss (concat world) |}),
   rest).
Proof.
  intros Hshw.
  assert (Htp := mixed_lengths v_tp (λ sh' v Hn Hv, eq_trans (proj1 Hv) Hn)).
  assert (Hfp := mixed_lengths v_fp (λ sh' v Hn Hv, eq_trans (proj1 (proj2 Hv)) Hn)).
  assert (Hfn := mixed_lengths v_fn
                   (λ sh' v Hn Hv, eq_trans (proj1 (proj2 (proj2 Hv))) Hn)).
  assert (Hne : Forall (λ vs : list StepView, vs ≠ []) world)
    by (destruct Hworld as [->| ->]; by repeat constructor).
  assert (Hvne : world ≠ []) by (by destruct Hworld as [->| ->]).
  assert (Hflags : loss_is_tensor shw = loss_is_tensor sh ∧
                   seg_loss_is_tensor shw = seg_loss_is_tensor sh ∧
                   cls_loss_is_tensor shw = cls_loss_is_tensor sh)
    by (by destruct Hshw as [->| ->]).
  destruct Hflags as (Hf1 & Hf2 & Hf3).
  unfold reduce_segmentation. rewrite Hddp. cbn [seg_plan map app fst snd].
  rewrite run_with_gather, (vstack_sum0_world _ world (n_fg sh)), bind_ret by done.
  rewrite run_with_gather, (vstack_sum0_world _ world (n_fg sh)), bind_ret by done.
  rewrite run_with_gather, (vstack_sum0_world _ world (n_fg sh)), bind_ret by done.
  rewrite get_loss, Hf1, bind_ret, run_with_gather, vstack_mean_world, bind_ret;
    [|done|done|apply mixed_kind; auto].
  rewrite get_seg_loss, Hf2, bind_ret, run_with_gather, vstack_mean_world, bind_ret;
    [|done|done|apply mixed_kind; auto].
  rewrite get_cls_loss, Hf3, bind_ret, run_with_gather, vstack_mean_world, bind_ret;
    [|done|done|apply mixed_kind; auto].
  reflexivity.
Qed.

(** The worker with classification counts goes on to gather them. *)
Lemma worker_with_cls_waits :
  ∃ v, run_with (on_validation_epoch_end self (map step_dict vs0))
                (map (λ ng, map ng.2 world) (seg_plan sh))
       = (map (λ ng, (ng.1, ng.2 vs0)) (seg_plan sh) ++ [("cls_tp", v)], None, []).
Proof.
  eexists.
  rewrite <-(app_nil_r (map (λ ng, map ng.2 world) (seg_plan sh))).
  unfold on_validation_epoch_end.
  rewrite (collate_outputs_views sh) by done. rewrite bind_ret.
  rewrite run_with_bind. cbn [set_trace run_with].
  rewrite get_tp_hard, get_fp_hard, get_fn_hard.
  repeat first [rewrite bind_ret | progress cbn [np_sum0]].
  rewrite run_with_bind, (reduce_segmentation_mixed sh vs0) by (by left).
  cbn [r_tp r_fp r_fn r_total_loss r_seg_loss r_cls_loss fst snd].
  rewrite run_with_bind.
  unfold classification_summary.
  rewrite (get_cls_tp sh vs0 k Hk). cbn [coll_size]. rewrite bind_ret.
  rewrite (length_concat_views sh vs0 sv_cls_tp k).
  2:{ intros v Hv. rewrite Forall_forall in Hall0.
      destruct (has_shape_cls sh v k (Hall0 v Hv) Hk) as (c & Hc & ? & _).
      unfold sv_cls_tp. by rewrite Hc. }
  assert (Hsize : (0 <? length vs0 * k)%nat = true).
  { apply Nat.ltb_lt. destruct vs0; [done|]. simpl. lia. }
  rewrite Hsize.
  rewrite (get_cls_fp sh vs0 _ Hk), (get_cls_fn sh vs0 _ Hk), (get_cls_tn sh vs0 _ Hk),
    (get_cls_correct sh vs0 _ Hk), (get_cls_total sh vs0 _ Hk).
  repeat first [rewrite bind_ret | progress cbn [np_sum0] | rewrite np_sum_all_counts
               | rewrite np_sum_all_ints | rewrite Hddp].
  rewrite run_with_bind, run_with_gather_nil. reflexivity.
Qed.

(** The worker without classification counts finishes after the six
    collectives. *)
Lemma worker_without_cls_finishes (e : nat) :
  current_epoch self = Some e →
  ∃ r, run_with (on_validation_epoch_end self (map step_dict vs1))
                (map (λ ng, map ng.2 world) (seg_plan sh))
       = (map (λ ng, (ng.1, ng.2 vs1)) (seg_plan sh), Some (inr r), []).
Proof.
  intros He. eexists.
  rewrite <-(app_nil_r (map (λ ng, map ng.2 world) (seg_plan sh))).
  unfold on_validation_epoch_end.
  rewrite (collate_outputs_views (without_cls sh)) by done. rewrite bind_ret.
  rewrite run_with_bind. cbn [set_trace run_with].
  rewrite get_tp_hard, get_fp_hard, get_fn_hard.
  repeat first [rewrite bind_ret | progress cbn [np_sum0]].
  rewrite run_with_bind, (reduce_segmentation_mixed (without_cls sh) vs1) by (by right).
  cbn [r_tp r_fp r_fn r_total_loss r_seg_loss r_cls_loss fst snd].
  rewrite run_with_bind.
  unfold classification_summary. rewrite get_no_cls by done.
  cbn [run_with fst snd].
  rewrite run_with_bind, (log_metrics_run_with self e) by (done || by left).
  rewrite run_with_bind, (print_summary_run_with self e) by (done || by left).
  cbn [run_with fst snd]. by rewrite !app_nil_r.
Qed.

End MixedWorld.

(** A distributed group of two workers, one holding per-step results with
    classification counts for [k] > 0 classes and one holding results
    without: after the six collectives of the segmentation counts and the
    losses the first enters the collective of 'cls_tp' while the second has
    left the reduction, so the group hangs, whichever of the two has rank
    0.  (The classification collectives sit under a test each worker makes
    on its own results.) *)
Theorem workers_disagreeing_on_classification_hang {Params} (self : Trainer Params)
    (sh : Shape) (k e : nat) (vs0 vs1 : list StepView) :
  is_ddp self = true → current_epoch self = Some e →
  n_cls sh = Some k → (0 < k)%nat →
  vs0 ≠ [] → Forall (has_shape sh) vs0 →
  vs1 ≠ [] → Forall (has_shape (without_cls sh)) vs1 →
  (loss_is_tensor sh && seg_loss_is_tensor sh && cls_loss_is_tensor sh = true
   ∨ length vs0 = length vs1) →
  run_world (on_validation_epoch_end self (map step_dict vs0))
            [on_validation_epoch_end self (map step_dict vs1)] = Hang ∧
  run_world (on_validation_epoch_end self (map step_dict vs1))
            [on_validation_epoch_end self (map step_dict vs0)] = Hang.
Proof.
  intros Hddp He Hk Hpos Hne0 Hall0 Hne1 Hall1 Hkind. split.
  - destruct (worker_with_cls_waits self sh k vs0 vs1 [vs0; vs1])
      as [v Hw]; try done; [by left|].
    destruct (worker_without_cls_finishes self sh vs0 vs1 [vs0; vs1] Hddp Hne0 Hall0
                Hne1 Hall1 Hkind (or_introl eq_refl) e He) as [r Hf].
    eapply (run_world_one_waits _ _ _ _ _ None (Some (inr r))); [exact Hw|exact Hf| |].
    + cbn. by repeat split.
    + left. by split; [|eexists].
  - destruct (worker_with_cls_waits self sh k vs0 vs1 [vs1; vs0])
      as [v Hw]; try done; [by right|].
    destruct (worker_without_cls_finishes self sh vs0 vs1 [vs1; vs0] Hddp Hne0 Hall0
                Hne1 Hall1 Hkind (or_intror eq_refl) e He) as [r Hf].
    eapply (run_world_one_waits _ _ _ _ _ (Some (inr r)) None); [exact Hf|exact Hw| |].
    + cbn. by repeat split.
    + right. by split; [eexists|].
Qed.

Lemma workers_disagreeing_on_classification_hang_witness :
  let self := sample_trainer (λ _, two_heads) true in
  run_world (on_validation_epoch_end self
               (map step_dict [sample_step 3 [4; 0]%N [1; 0]%N [2; 0]%N
                                           (Some (sample_cls 7 10))]))
            [on_validation_epoch_end self
               (map step_dict [sample_step 5 [1; 0]%N [0; 0]%N [3; 0]%N None])]
  = Hang.
Proof.
  intros self.
  destruct (workers_disagreeing_on_classification_hang self (sample_shape (Some 2%nat))
              2 0 [sample_step 3 [4; 0]%N [1; 0]%N [2; 0]%N (Some (sample_cls 7 10))]
              [sample_step 5 [1; 0]%N [0; 0]%N [3; 0]%N None]) as [Hhang _];
    try done.
  - lia.
  - repeat constructor.
  - repeat constructor.
  - by left.
Defined.

(** ** The epoch-start hook and the loss functor *)

Lemma epoch_ratio_unit (e : nat) : unit_interval (epoch_ratio e).
Proof.
  destruct (decide (e ≤ 100)%nat) as [Hle|Hgt].
  - rewrite epoch_ratio_below by done. apply ratio_unit.
    + rewrite <-Z2Qc_inj_0, <-Z2Qc_inj_le. lia.
    + rewrite <-Z2Qc_inj_le. lia.
    + apply hundred_pos.
  - rewrite epoch_ratio_above by lia. split; [done|apply Qcle_refl].
Qed.

Lemma epoch_ratio_mono (e e' : nat) : (e ≤ e')%nat → epoch_ratio e ≤ epoch_ratio e'.
Proof.
  intros Hle. destruct (decide (e' ≤ 100)%nat) as [Hle'|Hgt'].
  - rewrite !epoch_ratio_below by lia.
    apply Qcmult_le_mono_nonneg_r.
    + apply Qclt_le_weak, Qcinv_pos, hundred_pos.
    + rewrite <-Z2Qc_inj_le. lia.
  - rewrite (epoch_ratio_above e') by lia. apply epoch_ratio_unit.
Qed.

Lemma build_loss_after_hook {Params} (self : Trainer Params) :
  _build_loss (on_train_epoch_start self) = _build_loss self.
Proof. unfold on_train_epoch_start. by destruct (current_epoch self). Qed.

(** The hook does not compound: it computes the weight from the configured
    [cls_weight] of the trainer, which it leaves alone, so running it twice
    is running it once; of the loss functor it assigns the classification
    weight only, and it changes no other attribute of the trainer. *)
Theorem epoch_start_hook_does_not_compound {Params} (self : Trainer Params) :
  let self' := on_train_epoch_start self in
  on_train_epoch_start self' = self' ∧
  self' = set_loss self (loss self') ∧
  loss_seg_weight (loss self') = loss_seg_weight (loss self) ∧
  loss_loss_type (loss self') = loss_loss_type (loss self) ∧
  _build_loss self' = _build_loss self.
Proof.
  unfold on_train_epoch_start. destruct (current_epoch self) as [e|] eqn:He; cbn.
  - rewrite He. by destruct self.
  - rewrite He. by destruct self.
Qed.

(** For a configured weight that is not negative the ramp never goes down
    and never leaves the range from 0 to the configured weight: of two
    trainers with the same configured weight, the one at the later epoch
    gets at least the weight of the other. *)
Theorem loss_ramp_is_monotone {Params} (self self' : Trainer Params) (e e' : nat) :
  current_epoch self = Some e → current_epoch self' = Some e' →
  cls_weight self' = cls_weight self → 0 ≤ cls_weight self → (e ≤ e')%nat →
  let w := loss_cls_weight (loss (on_train_epoch_start self)) in
  let w' := loss_cls_weight (loss (on_train_epoch_start self')) in
  0 ≤ w ∧ w ≤ w' ∧ w' ≤ cls_weight self.
Proof.
  intros He He' Hw Hpos Hle. cbv zeta. unfold on_train_epoch_start.
  rewrite He, He'. cbn [set_loss loss loss_cls_weight]. rewrite Hw.
  destruct (epoch_ratio_unit e) as [H0 H1]. destruct (epoch_ratio_unit e') as [H0' H1'].
  split; [by apply Qcmult_nonneg_nonneg|]. split.
  - apply Qcmult_le_mono_nonneg_l; [done|]. by apply epoch_ratio_mono.
  - rewrite <-(Qcmult_1_r (cls_weight self)) at 2.
    by apply Qcmult_le_mono_nonneg_l.
Qed.

Lemma loss_ramp_is_monotone_witness :
  let self := sample_trainer (λ _, two_heads) false in
  0 ≤ loss_cls_weight (loss (on_train_epoch_start self)) ∧
  loss_cls_weight (loss (on_train_epoch_start self)) ≤ cls_weight self.
Proof.
  intros self.
  destruct (loss_ramp_is_monotone self self 0 0) as (H0 & _ & H1); try done.
Defined.

(** A trainer straight from [__init__] has three classification classes,
    and the loss it builds weighs the segmentation 1, the classification
    1/2 and is of type 'dice_ce', whatever the base trainer had set up.
    [_build_loss] reads the attributes of the trainer, not the loss functor
    in use: after any number of epoch-start hooks it builds the functor with
    the full classification weight again. *)
Theorem initial_loss_is_rebuilt_unramped {Params} (base : Trainer Params) (hooks : nat) :
  let self := init base in
  num_classification_classes self = 3%nat ∧
  _build_loss self
  = {| loss_seg_weight := 1; loss_cls_weight := Qc_of_Z 1 / Qc_of_Z 2;
       loss_loss_type := "dice_ce" |} ∧
  _build_loss (Nat.iter hooks on_train_epoch_start self) = _build_loss self.
Proof.
  intros self. split; [done|]. split; [done|].
  induction hooks as [|n IH]; [done|].
  by rewrite Nat.iter_succ, build_loss_after_hook.
Qed.

(** ** Losses reported as plain floats, in a distributed group *)

Lemma vstack_mean_unequal (f : StepView → lval) (vs0 vs1 : list StepView) :
  length vs0 ≠ length vs1 →
  vstack_mean (map (λ vs, GColl (loss_column false f vs)) [vs0; vs1]) = Raise ValueError.
Proof.
  intros Hlen. unfold vstack_mean. rewrite mapP_map.
  rewrite (mapP_ret _ (λ vs, map RowF (loss_rows false f vs)))
    by (intros; apply coll_rows_loss_column).
  rewrite bind_ret. cbn [map concat loss_rows app].
  unfold np_vstack, same_length. cbn [forallb row_length]. rewrite !length_map.
  by rewrite (proj2 (Nat.eqb_neq (length vs1) (length vs0))) by done.
Qed.

Section FloatLosses.
Context {Params : Type} (self : Trainer Params) (sh : Shape).
Context (vs0 vs1 : list StepView).
Context (Hddp : is_ddp self = true).
Context (Hne0 : vs0 ≠ []) (Hall0 : Forall (has_shape sh) vs0).
Context (Hne1 : vs1 ≠ []) (Hall1 : Forall (has_shape sh) vs1).
Context (Hfloat : loss_is_tensor sh = false) (Hlen : length vs0 ≠ length vs1).

(** A worker of the group, against the first four collectives. *)
Lemma worker_raises_at_the_losses (vs : list StepView) :
  vs ≠ [] → Forall (has_shape sh) vs →
  run_with (on_validation_epoch_end self (map step_dict vs))
           (map (λ ng, map ng.2 [vs0; vs1]) (take 4 (seg_plan sh)))
  = (map (λ ng, (ng.1, ng.2 vs)) (take 4 (seg_plan sh)), Some (inl ValueError), []).
Proof.
  intros Hne Hall.
  assert (Hlens : ∀ f : StepView → list N,
            (∀ v, has_shape sh v → length (f v) = n_fg sh) →
            Forall (λ vs, length (col_sums (map f vs)) = n_fg sh) [vs0; vs1]).
  { intros f Hf. repeat constructor; apply (length_col_sums_views sh); try done;
      intros v Hv; apply Hf; [rewrite Forall_forall in Hall0; by apply Hall0
                             |rewrite Forall_forall in Hall1; by apply Hall1]. }
  assert (Htp := Hlens v_tp (λ v Hv, proj1 Hv)).
  assert (Hfp := Hlens v_fp (λ v Hv, proj1 (proj2 Hv))).
  assert (Hfn := Hlens v_fn (λ v Hv, proj1 (proj2 (proj2 Hv)))).
  pose proof (vstack_mean_unequal v_loss vs0 vs1 Hlen) as Hmean.
  remember [vs0; vs1] as vss eqn:Hvss.
  assert (Hvne : vss ≠ []) by (by subst).
  unfold on_validation_epoch_end.
  rewrite (collate_outputs_views sh) by done. rewrite bind_ret.
  rewrite run_with_bind. cbn [set_trace run_with].
  rewrite get_tp_hard, get_fp_hard, get_fn_hard.
  repeat first [rewrite bind_ret | progress cbn [np_sum0]].
  rewrite run_with_bind.
  unfold reduce_segmentation. rewrite Hddp. cbn [seg_plan take map app fst snd].
  rewrite run_with_gather, (vstack_sum0_world _ vss (n_fg sh)), bind_ret by done.
  rewrite run_with_gather, (vstack_sum0_world _ vss (n_fg sh)), bind_ret by done.
  rewrite run_with_gather, (vstack_sum0_world _ vss (n_fg sh)), bind_ret by done.
  rewrite get_loss, Hfloat, bind_ret, run_with_gather, Hmean.
  reflexivity.
Qed.

End FloatLosses.

(** In a distributed group of two workers whose total loss is reported as a
    plain float (as it is when the loss mapping has no 'total_loss' and the
    default 0.0 is taken), the collated losses are Python lists, which
    [np.vstack] stacks as rows: when the workers hold different numbers of
    per-step results, every worker raises [ValueError] there, after the
    collectives of tp, fp, fn and loss. *)
Theorem float_losses_need_equal_shards {Params} (self : Trainer Params) (sh : Shape)
    (vs0 vs1 : list StepView) :
  is_ddp self = true →
  vs0 ≠ [] → Forall (has_shape sh) vs0 → vs1 ≠ [] → Forall (has_shape sh) vs1 →
  loss_is_tensor sh = false → length vs0 ≠ length vs1 →
  run_world (on_validation_epoch_end self (map step_dict vs0))
            [on_validation_epoch_end self (map step_dict vs1)]
  = Finished [inl ValueError; inl ValueError]
             [ ["tp"; "tp"]; ["fp"; "fp"]; ["fn"; "fn"]; ["loss"; "loss"] ].
Proof.
  intros Hddp Hne0 Hall0 Hne1 Hall1 Hfloat Hlen.
  pose (plan := take 4 (seg_plan sh)).
  pose (outs := map (λ vs, (map (λ ng : string * (list StepView → payload),
                                   (ng.1, ng.2 vs)) plan,
                            inl (B := pydict sval) ValueError)) [vs0; vs1]).
  rewrite (run_world_answers (map (λ ng, map ng.2 [vs0; vs1]) plan) _ _ outs).
  - reflexivity.
  - unfold outs, plan. repeat constructor; cbn [fst snd];
      by apply (worker_raises_at_the_losses self sh vs0 vs1).
  - unfold outs. rewrite <-list_fmap_compose.
    apply (plan_consistent plan [vs0; vs1]).
Qed.

Lemma float_losses_need_equal_shards_witness :
  let float_step (tp : list N) :=
    {| v_loss := LFloat 0; v_seg_loss := LTensor (Qc_of_Z 2);
       v_cls_loss := LTensor (Qc_of_Z 1);
       v_tp := tp; v_fp := [1; 0]%N; v_fn := [2; 0]%N; v_cls := None |} in
  let self := sample_trainer (λ _, two_heads) true in
  ∃ rounds,
    run_world (on_validation_epoch_end self
                 (map step_dict [float_step [4; 0]%N; float_step [1; 0]%N]))
              [on_validation_epoch_end self (map step_dict [float_step [3; 3]%N])]
    = Finished [inl ValueError; inl ValueError] rounds.
Proof.
  intros float_step self. eexists.
  apply (float_losses_need_equal_shards self
           {| n_fg := 2; n_cls := None; loss_is_tensor := false;
              seg_loss_is_tensor := true; cls_loss_is_tensor := true |});
    try done; repeat constructor.
Defined.
